(** * pa3.c: translation cache, two-level page table, frame allocation,
      copy-on-write fork and process switch.

    A shallow embedding of [src/pa3.c].  C arrays are lists read with
    stdpp's lookup; reading or writing outside an array, dereferencing a
    null directory pointer and using an uninitialised variable have no
    defined behaviour in C, and are the [None] of the option monad here.
    Frame reference counts are [unsigned int]: their arithmetic wraps
    modulo [2^32]. *)

From Stdlib Require Import ZArith Lia.
From stdpp Require Import base option list numbers.

Local Open Scope Z_scope.

(** ** Machine integers *)

(** [unsigned int] arithmetic. *)
Definition wrap (x : Z) : Z := x mod 2 ^ 32.

(** [(unsigned int) -1], what [alloc_page] returns on failure. *)
Definition MINUS_ONE : Z := wrap (-1).

Local Close Scope Z_scope.

(** ** Data model

    The structures are declared in vm.h, which is not among the sources;
    they are given here with the fields pa3.c reads and writes. *)

(** Modelled from the spec: [struct pte] of vm.h, the PageTableEntry
    [{valid, writable, pfn, permissionTag}], the tag being the field
    [private] in pa3.c. *)
Record pte := Pte {
  valid : bool;
  writable : bool;
  pfn : nat;
  private : nat
}.

(** Modelled from the spec: [struct tlb_entry] of vm.h, the
    TranslationCacheEntry [{valid, vpn, pfn}]; the fields are [valid],
    [vpn] and [pfn] in pa3.c. *)
Record tlb_entry := TlbEntry {
  tlb_valid : bool;
  tlb_vpn : nat;
  tlb_pfn : nat
}.

(** [struct pte_directory] is its array [ptes]; [struct pagetable] is its
    array [outer_ptes] of directory pointers, [None] being [NULL]. *)
Abbreviation pte_directory := (list pte).
Abbreviation pagetable_t := (list (option (list pte))).

(** Modelled from the spec: [struct process] of vm.h, the Process
    [{pid, pagetable, listLink}].  The list link is the position of the
    process in the ready queue of the machine. *)
Record process := Process {
  pid : nat;
  pagetable : pagetable_t
}.

(** The globals of pa3.c.  Process objects live in [heap] and are named
    by their address (an index); [processes] is the ready queue,
    [current] the running process, and [ptbr] is either [NULL] or the
    address of the process whose page table it points at. *)
Record machine := Machine {
  heap : list process;
  processes : list nat;
  current : nat;
  ptbr : option nat;
  tlb : list tlb_entry;
  mapcounts : list Z
}.

Definition set_valid (b : bool) (e : pte) : pte :=
  Pte b (writable e) (pfn e) (private e).
Definition set_writable (b : bool) (e : pte) : pte :=
  Pte (valid e) b (pfn e) (private e).
Definition set_tlb_valid (b : bool) (t : tlb_entry) : tlb_entry :=
  TlbEntry b (tlb_vpn t) (tlb_pfn t).

Definition with_heap (h : list process) (m : machine) : machine :=
  Machine h (processes m) (current m) (ptbr m) (tlb m) (mapcounts m).
Definition with_tlb (t : list tlb_entry) (m : machine) : machine :=
  Machine (heap m) (processes m) (current m) (ptbr m) t (mapcounts m).
Definition with_mapcounts (c : list Z) (m : machine) : machine :=
  Machine (heap m) (processes m) (current m) (ptbr m) (tlb m) c.

(** ** Array accesses *)

(** [a[i] = x], undefined outside the array. *)
Definition store {A} (i : nat) (x : A) (a : list A) : option (list A) :=
  match a !! i with
  | Some _ => Some (<[i := x]> a)
  | None => None
  end.

(** [pt.outer_ptes[o]->ptes[i]], undefined when the directory is [NULL]. *)
Definition pt_read (pt : pagetable_t) (o i : nat) : option pte :=
  od ← pt !! o; d ← od; d !! i.

(** [pt.outer_ptes[o]->ptes[i] = e]. *)
Definition pt_write (pt : pagetable_t) (o i : nat) (e : pte)
  : option pagetable_t :=
  od ← pt !! o; d ← od; d' ← store i e d; Some (<[o := Some d']> pt).

(** [current->pagetable]. *)
Definition cur_pagetable (m : machine) : option pagetable_t :=
  pagetable <$> heap m !! current m.

Definition set_cur_pagetable (pt : pagetable_t) (m : machine) : machine :=
  with_heap (alter (fun p => Process (pid p) pt) (current m) (heap m)) m.

Definition read_pte (m : machine) (o i : nat) : option pte :=
  pt ← cur_pagetable m; pt_read pt o i.

Definition write_pte (m : machine) (o i : nat) (e : pte) : option machine :=
  pt ← cur_pagetable m; pt' ← pt_write pt o i e;
  Some (set_cur_pagetable pt' m).

(** [mapcounts[f]++] and [mapcounts[f]--]. *)
Definition incr (f : nat) (c : list Z) : option (list Z) :=
  n ← c !! f; Some (<[f := wrap (n + 1)]> c).
Definition decr (f : nat) (c : list Z) : option (list Z) :=
  n ← c !! f; Some (<[f := wrap (n - 1)]> c).

(** A [for (i = i0; i < i0 + n; i++)] loop without [break]. *)
Fixpoint for_up {St} (n i : nat) (body : nat → St → option St) (s : St)
  : option St :=
  match n with
  | O => Some s
  | S n' => s' ← body i s; for_up n' (S i) body s'
  end.

(** ** The program *)

Section PA3.

(** The constants of vm.h, which is not among the sources: the number of
    entries of a directory and of the outer table, the number of frames,
    and the number of cache slots. *)
Variable NR_PTES_PER_PAGE : nat.
Variable NR_PAGEFRAMES : nat.
Variable NR_TLB_ENTRIES : nat.

(** *** Translation cache *)

Fixpoint lookup_tlb_from (n i : nat) (vpn : nat) (t : list tlb_entry)
  : option (option nat) :=
  match n with
  | O => Some None
  | S n' =>
      e ← t !! i;
      if negb (tlb_valid e) then lookup_tlb_from n' (S i) vpn t
      else if Nat.eqb (tlb_vpn e) vpn then Some (Some (tlb_pfn e))
      else lookup_tlb_from n' (S i) vpn t
  end.

(** [lookup_tlb]: [Some pfn] is [true] with [*pfn] written, [None] is
    [false] with [*pfn] untouched. *)
Definition lookup_tlb (vpn : nat) (m : machine) : option (option nat) :=
  lookup_tlb_from NR_TLB_ENTRIES 0 vpn (tlb m).

Fixpoint insert_tlb_from (n i : nat) (vpn pfn : nat) (t : list tlb_entry)
  : option (list tlb_entry) :=
  match n with
  | O => Some t
  | S n' =>
      e ← t !! i;
      if negb (tlb_valid e) then Some (<[i := TlbEntry true vpn pfn]> t)
      else insert_tlb_from n' (S i) vpn pfn t
  end.

Definition insert_tlb (vpn pfn : nat) (m : machine) : option machine :=
  t ← insert_tlb_from NR_TLB_ENTRIES 0 vpn pfn (tlb m); Some (with_tlb t m).

Definition free_tlb_body (vpn : nat) (i : nat) (t : list tlb_entry)
  : option (list tlb_entry) :=
  e ← t !! i;
  if tlb_valid e then
    if Nat.eqb (tlb_vpn e) vpn then Some (<[i := set_tlb_valid false e]> t)
    else Some t
  else Some t.

Definition free_tlb (vpn : nat) (m : machine) : option machine :=
  t ← for_up NR_TLB_ENTRIES 0 (free_tlb_body vpn) (tlb m);
  Some (with_tlb t m).

Definition flush_tlb_body (i : nat) (t : list tlb_entry)
  : option (list tlb_entry) :=
  e ← t !! i;
  if tlb_valid e then Some (<[i := set_tlb_valid false e]> t) else Some t.

Definition flush_tlb (m : machine) : option machine :=
  t ← for_up NR_TLB_ENTRIES 0 flush_tlb_body (tlb m); Some (with_tlb t m).

(** *** Frame allocation *)

(** The frame-selection loop of [alloc_page]: [pfn] is the variable the
    loop assigns, [None] while it is uninitialised. *)
Fixpoint find_frame (n i : nat) (pfn : option nat) (c : list Z)
  : option nat :=
  match n with
  | O => pfn
  | S n' =>
      k ← c !! i;
      if Z.eqb k 0 then Some i else find_frame n' (S i) (Some i) c
  end.

(** [alloc_page(vpn, rw)].  [junk] is the content of the directory that
    [malloc] returns when the outer slot is [NULL]. *)
Definition alloc_page (junk : pte_directory) (vpn rw : nat) (m : machine)
  : option (Z * machine) :=
  let outIndex := vpn / NR_PTES_PER_PAGE in
  let inIndex := vpn mod NR_PTES_PER_PAGE in
  pt ← cur_pagetable m;
  od ← pt !! outIndex;
  let pt1 := match od with
             | None => <[outIndex := Some junk]> pt
             | Some _ => pt
             end in
  f ← find_frame NR_PAGEFRAMES 0 None (mapcounts m);
  k ← mapcounts m !! f;
  if Z.eqb k 16 then Some (MINUS_ONE, set_cur_pagetable pt1 m)
  else
    let e := if Nat.eqb rw 1 then Pte true false f 1 else Pte true true f 3 in
    pt2 ← pt_write pt1 outIndex inIndex e;
    c ← incr f (mapcounts m);
    Some (Z.of_nat f, with_mapcounts c (set_cur_pagetable pt2 m)).

(** [free_page(vpn)]. *)
Definition free_page (vpn : nat) (m : machine) : option machine :=
  let outIndex := vpn / NR_PTES_PER_PAGE in
  let inIndex := vpn mod NR_PTES_PER_PAGE in
  e ← read_pte m outIndex inIndex;
  c ← decr (pfn e) (mapcounts m);
  m1 ← write_pte (with_mapcounts c m) outIndex inIndex (Pte false false 0 0);
  free_tlb vpn m1.

(** *** Fault handling *)

Definition handle_page_fault (junk : pte_directory) (vpn rw : nat)
  (m : machine) : option (bool * machine) :=
  let outIndex := vpn / NR_PTES_PER_PAGE in
  let inIndex := vpn mod NR_PTES_PER_PAGE in
  pt ← cur_pagetable m;
  od ← pt !! outIndex;
  match od with
  | None => Some (false, m)
  | Some d =>
      e ← d !! inIndex;
      if negb (valid e) then
        k ← mapcounts m !! pfn e;
        if Z.eqb k 1 then
          m1 ← write_pte m outIndex inIndex (set_valid true e);
          Some (true, m1)
        else
          m1 ← write_pte m outIndex inIndex (set_valid true e);
          c ← decr (pfn e) (mapcounts m1);
          r ← alloc_page junk vpn rw (with_mapcounts c m1);
          Some (true, r.2)
      else if negb (writable e) && Nat.eqb (private e) 3 then
        k ← mapcounts m !! pfn e;
        if Z.eqb k 1 then
          m1 ← write_pte m outIndex inIndex (set_writable true e);
          Some (true, m1)
        else
          m1 ← write_pte m outIndex inIndex (set_writable true e);
          c ← decr (pfn e) (mapcounts m1);
          r ← alloc_page junk vpn rw (with_mapcounts c m1);
          Some (true, r.2)
      else Some (false, m)
  end.

(** *** Switch and fork *)

(** [list_for_each_entry] with the [break] on the first process whose pid
    matches: the address found, or [None] when the loop runs off the end. *)
Fixpoint find_pid (h : list process) (q : list nat) (p : nat)
  : option (option nat) :=
  match q with
  | [] => Some None
  | a :: q' =>
      t ← h !! a;
      if Nat.eqb (pid t) p then Some (Some a) else find_pid h q' p
  end.

(** [list_del_init]: unlink one node. *)
Fixpoint unlink (a : nat) (q : list nat) : list nat :=
  match q with
  | [] => []
  | b :: q' => if Nat.eqb a b then q' else b :: unlink a q'
  end.

(** The state of the two fork loops: the parent's directory or page
    table, the child's, and the frame counts. *)
Definition fork_pte_body (j : nat)
  (s : pte_directory * pte_directory * list Z)
  : option (pte_directory * pte_directory * list Z) :=
  let '(pd, cd, c) := s in
  e ← pd !! j;
  if negb (valid e) then Some s
  else
    let ce := Pte (valid e) (writable e) (pfn e) (private e) in
    cd1 ← store j ce cd;
    let pd2 := if Nat.eqb (private e) 3
               then <[j := set_writable false e]> pd else pd in
    let ce2 := if Nat.eqb (private e) 3 then set_writable false ce else ce in
    let cd2 := <[j := ce2]> cd1 in
    c' ← incr (pfn ce2) c;
    Some (pd2, cd2, c').

Definition fork_dir_body (junk_dir : nat → pte_directory) (i : nat)
  (s : pagetable_t * pagetable_t * list Z)
  : option (pagetable_t * pagetable_t * list Z) :=
  let '(ppt, cpt, c) := s in
  od ← ppt !! i;
  match od with
  | None => Some s
  | Some pd =>
      cpt1 ← store i (Some (junk_dir i)) cpt;
      r ← for_up NR_PTES_PER_PAGE 0 fork_pte_body (pd, junk_dir i, c);
      let '(pd', cd', c') := r in
      Some (<[i := Some pd']> ppt, <[i := Some cd']> cpt1, c')
  end.

(** [switch_process(pid)].  [junk_pt] is the content of the page table
    inside the process object that [malloc] returns on the fork path, and
    [junk_dir i] the content of the directory allocated for outer index
    [i]. *)
Definition switch_process (junk_pt : pagetable_t)
  (junk_dir : nat → pte_directory) (p : nat) (m : machine)
  : option machine :=
  m0 ← flush_tlb m;
  found ← find_pid (heap m0) (processes m0) p;
  match found with
  | Some temp =>
      Some (Machine (heap m0) (unlink temp (processes m0 ++ [current m0]))
                    temp (Some temp) (tlb m0) (mapcounts m0))
  | None =>
      parent ← heap m0 !! current m0;
      let child := length (heap m0) in
      r ← for_up NR_PTES_PER_PAGE 0 (fork_dir_body junk_dir)
             (pagetable parent, junk_pt, mapcounts m0);
      let '(ppt, cpt, c) := r in
      Some (Machine
              ((<[current m0 := Process (pid parent) ppt]> (heap m0))
                 ++ [Process p cpt])
              (processes m0 ++ [current m0])
              child (Some child) (tlb m0) c)
  end.

End PA3.

(** ** Reference counting, as a specification *)

(** The number of valid PTEs that point at frame [f]: in one entry, in a
    directory, in a page table, in the process at address [a], and over
    the running process and every process of the ready queue. *)
Definition refs_pte (f : nat) (e : pte) : nat :=
  if valid e && Nat.eqb (pfn e) f then 1 else 0.
Definition refs_dir (f : nat) (d : pte_directory) : nat :=
  sum_list_with (refs_pte f) d.
Definition refs_pt (f : nat) (pt : pagetable_t) : nat :=
  sum_list_with (from_option (refs_dir f) 0) pt.
Definition refs_proc (m : machine) (f a : nat) : nat :=
  from_option (fun p => refs_pt f (pagetable p)) 0 (heap m !! a).
Definition count_refs (m : machine) (f : nat) : nat :=
  sum_list_with (refs_proc m f) (current m :: processes m).

(** Every frame's count is the number of valid PTEs that point at it. *)
Definition refcount_inv (nr_pageframes : nat) (m : machine) : bool :=
  forallb (fun f => bool_decide (mapcounts m !! f = Some (Z.of_nat (count_refs m f))))
          (seq 0 nr_pageframes).

(** The PTE of the process at address [a] for virtual page [vpn]. *)
Definition pte_of (nr_ptes : nat) (m : machine) (a vpn : nat) : option pte :=
  p ← heap m !! a; pt_read (pagetable p) (vpn / nr_ptes) (vpn mod nr_ptes).

(** ** Sample machines

    The constants are those of a pool of 128 frames with 16 entries per
    directory and 256 cache slots; every sample is reached from [boot] by
    the operations of the program. *)

(** One process with an empty page table, an empty translation cache and
    128 unused frames. *)
Definition boot : machine :=
  Machine [Process 0 (replicate 16 None)] [] 0 (Some 0)
          (replicate 256 (TlbEntry false 0 0)) (replicate 128 0%Z).

(** A directory and a page table whose fresh memory happens to be zero. *)
Definition zero_dir : pte_directory := replicate 16 (Pte false false 0 0).
Definition zero_pt : pagetable_t := replicate 16 None.

Definition alloc (vpn rw : nat) (m : machine) : option machine :=
  r ← alloc_page 16 128 zero_dir vpn rw m; Some r.2.
Definition fault (vpn rw : nat) (m : machine) : option machine :=
  r ← handle_page_fault 16 128 zero_dir vpn rw m; Some r.2.
Definition switch (p : nat) (m : machine) : option machine :=
  switch_process 16 256 zero_pt (fun _ => zero_dir) p m.

(** [alloc_page] for [n] consecutive pages from [v] on, with write intent. *)
Fixpoint fill (n v : nat) (m : machine) : option machine :=
  match n with
  | O => Some m
  | S n' => m' ← alloc v 2 m; fill n' (S v) m'
  end.

(** A sequence of operations, from left to right. *)
Definition run (steps : list (machine → option machine)) (m : machine)
  : option machine :=
  foldl (fun r step => r ≫= step) (Some m) steps.

(** A translation cached. *)
Definition cached_trace : option machine := run [insert_tlb 256 5 7] boot.
Definition cached : machine := default boot cached_trace.

(** Page 0 allocated for writing and page 1 for reading. *)
Definition two_pages_trace : option machine :=
  run [alloc 0 2; alloc 1 1] boot.
Definition two_pages : machine := default boot two_pages_trace.

(** Page 0 allocated for writing, then a fork: the child runs and shares
    frame 0 with the parent. *)
Definition shared_trace : option machine :=
  run [alloc 0 2; switch 1] boot.
Definition shared : machine := default boot shared_trace.

(** After the fork the child has written to page 0 and the parent runs
    again: it is the only process left on frame 0. *)
Definition sole_owner_trace : option machine :=
  run [alloc 0 2; switch 1; fault 0 2; switch 0] boot.
Definition sole_owner : machine := default boot sole_owner_trace.

(** Every frame taken by the running process. *)
Definition full_trace : option machine := run [fill 128 0] boot.
Definition full : machine := default boot full_trace.

(** Every frame taken, then a fork: every frame shared by two processes. *)
Definition full_shared_trace : option machine :=
  run [fill 128 0; switch 1] boot.
Definition full_shared : machine := default boot full_shared_trace.

(** Every frame taken, then fifteen forks in a row: every frame has the
    sixteen references of the cap.  The running process then frees page
    0, whose cleared PTE names frame 0, left with fifteen references. *)
Definition capped_trace : option machine :=
  run (fill 128 0 :: (switch <$> seq 1 15) ++ [free_page 16 256 0]) boot.
Definition capped : machine := default boot capped_trace.

(** Page 0 allocated and freed again. *)
Definition freed_trace : option machine :=
  run [alloc 0 2; free_page 16 256 0] boot.
Definition freed : machine := default boot freed_trace.

(** Pages 0 and 1 allocated, page 1 freed and then read: the fault
    handler revalidates it on the frame its cleared PTE names, frame 0. *)
Definition revalidated_trace : option machine :=
  run [alloc 0 2; alloc 1 2; free_page 16 256 1; fault 1 1] boot.
Definition revalidated : machine := default boot revalidated_trace.

(** The same, up to the fault. *)
Definition page_one_freed_trace : option machine :=
  run [alloc 0 2; alloc 1 2; free_page 16 256 1] boot.
Definition page_one_freed : machine := default boot page_one_freed_trace.

(** ** Loops *)

(** Invariant rule for [for_up]: the loop terminates in a state that
    satisfies the invariant when every iteration is defined and keeps it. *)
Lemma for_up_inv {St} (P : nat → St → Prop) (body : nat → St → option St)
    (n i : nat) (s : St) :
  P i s →
  (∀ k t, i ≤ k < i + n → P k t → ∃ t', body k t = Some t' ∧ P (S k) t') →
  ∃ s', for_up n i body s = Some s' ∧ P (i + n) s'.
Proof.
  revert i s. induction n as [|n IH]; intros i s Hi Hstep; simpl.
  - exists s. by rewrite Nat.add_0_r.
  - destruct (Hstep i s) as (t & Hb & Ht); [lia | done |].
    rewrite Hb; simpl.
    destruct (IH (S i) t Ht) as (s' & Hs' & HP).
    + intros k u Hk Hu. apply Hstep; [lia | done].
    + exists s'. split; [done|]. by replace (i + S n) with (S i + n) by lia.
Qed.

(** ** Translation cache *)

Section Tlb.

Variable NR_TLB_ENTRIES : nat.

Lemma lookup_tlb_from_miss (t : list tlb_entry) (vpn n i : nat) :
  (∀ j, i ≤ j < i + n →
     ∃ e, t !! j = Some e ∧ (tlb_valid e = false ∨ tlb_vpn e ≠ vpn)) →
  lookup_tlb_from n i vpn t = Some None.
Proof.
  revert i. induction n as [|n IH]; intros i H; simpl; [done|].
  destruct (H i) as (e & He & Hv); [lia|].
  rewrite He; simpl.
  assert (Hnext : lookup_tlb_from n (S i) vpn t = Some None).
  { apply IH. intros j Hj. apply H. lia. }
  destruct (tlb_valid e); simpl; [|done].
  destruct (Nat.eqb_spec (tlb_vpn e) vpn); [|done].
  by destruct Hv.
Qed.

(** What the loop of [free_tlb] leaves in each slot. *)
Definition free_tlb_entry (vpn : nat) (e : tlb_entry) : tlb_entry :=
  if tlb_valid e && Nat.eqb (tlb_vpn e) vpn then set_tlb_valid false e else e.

Lemma free_tlb_loop (vpn : nat) (t : list tlb_entry) :
  NR_TLB_ENTRIES ≤ length t →
  ∃ t', for_up NR_TLB_ENTRIES 0 (free_tlb_body vpn) t = Some t'
        ∧ length t' = length t
        ∧ ∀ j, t' !! j = if decide (j < NR_TLB_ENTRIES)
                         then free_tlb_entry vpn <$> t !! j else t !! j.
Proof.
  intros Hlen.
  destruct (for_up_inv
    (fun k (u : list tlb_entry) =>
       length u = length t
       ∧ ∀ j, u !! j = if decide (j < k)
                       then free_tlb_entry vpn <$> t !! j else t !! j)
    (free_tlb_body vpn) NR_TLB_ENTRIES 0 t) as (t' & Hrun & Hl & Hinv).
  - split; [done|]. intros j. case_decide; [lia | done].
  - intros k u Hk (Hl & Hinv).
    destruct (lookup_lt_is_Some_2 t k) as [e He]; [lia|].
    assert (Hu : u !! k = Some e).
    { rewrite Hinv. case_decide; [lia | done]. }
    unfold free_tlb_body. rewrite Hu; simpl.
    assert (Hstep : ∀ u', length u' = length u →
              u' !! k = Some (free_tlb_entry vpn e) →
              (∀ j, j ≠ k → u' !! j = u !! j) →
              length u' = length t
              ∧ ∀ j, u' !! j = if decide (j < S k)
                               then free_tlb_entry vpn <$> t !! j
                               else t !! j).
    { intros u' Hl' Hk' Hoth. split; [congruence|]. intros j.
      destruct (decide (j = k)) as [->|Hne].
      - rewrite Hk', He. case_decide; [done | lia].
      - rewrite Hoth, Hinv by done. repeat case_decide; try done; lia. }
    unfold free_tlb_entry in Hstep.
    destruct (tlb_valid e) eqn:Hv; simpl in Hstep.
    + destruct (Nat.eqb (tlb_vpn e) vpn) eqn:Hq.
      * eexists. split; [done|]. apply Hstep.
        -- apply length_insert.
        -- apply list_lookup_insert_eq. by eapply lookup_lt_Some.
        -- intros j Hj. by apply list_lookup_insert_ne.
      * exists u. split; [done|]. by apply Hstep.
    + exists u. split; [done|]. by apply Hstep.
  - exists t'. eauto.
Qed.

Lemma free_tlb_then_lookup_misses (vpn : nat) (m : machine) :
  NR_TLB_ENTRIES ≤ length (tlb m) →
  ∃ t', free_tlb NR_TLB_ENTRIES vpn m = Some (with_tlb t' m)
        ∧ lookup_tlb NR_TLB_ENTRIES vpn (with_tlb t' m) = Some None
        ∧ ∀ j, t' !! j = if decide (j < NR_TLB_ENTRIES)
                         then free_tlb_entry vpn <$> tlb m !! j
                         else tlb m !! j.
Proof.
  intros Hlen.
  destruct (free_tlb_loop vpn (tlb m) Hlen) as (t' & Hrun & Hl & Hinv).
  exists t'. unfold free_tlb. rewrite Hrun. split; [done|]. split; [|done].
  unfold lookup_tlb; simpl. apply lookup_tlb_from_miss. intros j Hj.
  destruct (lookup_lt_is_Some_2 (tlb m) j) as [e He]; [lia|].
  exists (free_tlb_entry vpn e). split.
  - rewrite Hinv, He. case_decide; [done | lia].
  - unfold free_tlb_entry. destruct (tlb_valid e) eqn:Hv; simpl; [|by left].
    destruct (Nat.eqb_spec (tlb_vpn e) vpn); simpl; [by left | by right].
Qed.

Lemma flush_tlb_loop (t : list tlb_entry) :
  NR_TLB_ENTRIES ≤ length t →
  ∃ t', for_up NR_TLB_ENTRIES 0 flush_tlb_body t = Some t'
        ∧ length t' = length t
        ∧ (∀ j, j < NR_TLB_ENTRIES →
             ∃ e, t' !! j = Some e ∧ tlb_valid e = false)
        ∧ (∀ j, NR_TLB_ENTRIES ≤ j → t' !! j = t !! j).
Proof.
  intros Hlen.
  destruct (for_up_inv
    (fun k (u : list tlb_entry) =>
       length u = length t
       ∧ (∀ j, j < k → ∃ e, u !! j = Some e ∧ tlb_valid e = false)
       ∧ (∀ j, NR_TLB_ENTRIES ≤ j → u !! j = t !! j))
    flush_tlb_body NR_TLB_ENTRIES 0 t) as (t' & Hrun & Hl & Hinv & Hrest).
  - split; [done|]. split; [intros j Hj; lia | done].
  - intros k u Hk (Hl & Hinv & Hrest).
    destruct (lookup_lt_is_Some_2 u k) as [e He]; [lia|].
    unfold flush_tlb_body. rewrite He; simpl.
    destruct (tlb_valid e) eqn:Hv.
    + eexists. split; [done|]. rewrite length_insert. split; [done|]. split.
      * intros j Hj. destruct (decide (j = k)) as [->|Hne].
        -- eexists. split; [apply list_lookup_insert_eq; lia | done].
        -- rewrite list_lookup_insert_ne by done. apply Hinv. lia.
      * intros j Hj. rewrite list_lookup_insert_ne by lia. by apply Hrest.
    + exists u. split; [done|]. split; [done|]. split; [|done].
      intros j Hj. destruct (decide (j = k)) as [->|Hne]; [eauto|].
      apply Hinv. lia.
  - exists t'. eauto.
Qed.

(** C8: after [flush_tlb], [lookup_tlb] finds nothing for any page,
    whatever the cache held before the flush. *)
Theorem flush_tlb_then_lookup_misses (m : machine) :
  NR_TLB_ENTRIES ≤ length (tlb m) →
  ∃ m', flush_tlb NR_TLB_ENTRIES m = Some m'
        ∧ ∀ vpn, lookup_tlb NR_TLB_ENTRIES vpn m' = Some None.
Proof.
  intros Hlen.
  destruct (flush_tlb_loop (tlb m) Hlen) as (t' & Hrun & _ & Hinv & _).
  exists (with_tlb t' m). unfold flush_tlb. rewrite Hrun. split; [done|].
  intros vpn. unfold lookup_tlb; simpl.
  apply lookup_tlb_from_miss. intros j Hj.
  destruct (Hinv j) as (e & He & Hv); [lia|]. eauto.
Qed.

End Tlb.

(** ** Page-table accesses *)

Lemma set_cur_pagetable_same (m : machine) (pt : pagetable_t) :
  cur_pagetable m = Some pt → set_cur_pagetable pt m = m.
Proof.
  unfold cur_pagetable, set_cur_pagetable, with_heap. intros H.
  destruct m as [h q c b t k]; simpl in *. f_equal.
  apply list_eq. intros j. rewrite list_lookup_alter.
  destruct (decide (c = j)) as [<-|]; [|done].
  destruct (h !! c) as [[p0 pt0]|]; simpl in *; [|done]. congruence.
Qed.

Lemma cur_pagetable_set (m : machine) (pt0 pt : pagetable_t) :
  cur_pagetable m = Some pt0 → cur_pagetable (set_cur_pagetable pt m) = Some pt.
Proof.
  unfold cur_pagetable, set_cur_pagetable; simpl. intros H.
  rewrite list_lookup_alter_eq. by destruct (heap m !! current m).
Qed.

Lemma heap_set_cur_pagetable_ne (m : machine) (pt : pagetable_t) (a : nat) :
  a ≠ current m → heap (set_cur_pagetable pt m) !! a = heap m !! a.
Proof. intros H. simpl. by rewrite list_lookup_alter_ne. Qed.

Lemma pids_set_cur_pagetable (m : machine) (pt : pagetable_t) :
  pid <$> heap (set_cur_pagetable pt m) = pid <$> heap m.
Proof.
  simpl. apply list_eq. intros j. rewrite !list_lookup_fmap.
  rewrite list_lookup_alter.
  destruct (decide (current m = j)) as [<-|]; [|done].
  by destruct (heap m !! current m).
Qed.

Lemma pt_write_defined (pt : pagetable_t) (o i : nat) (d : pte_directory)
    (e0 e : pte) :
  pt !! o = Some (Some d) → d !! i = Some e0 →
  pt_write pt o i e = Some (<[o := Some (<[i := e]> d)]> pt).
Proof.
  intros Ho Hi. unfold pt_write, store. rewrite Ho; simpl. by rewrite Hi.
Qed.

Lemma pt_read_write_eq (pt : pagetable_t) (o i : nat) (d : pte_directory)
    (e0 e : pte) :
  pt !! o = Some (Some d) → d !! i = Some e0 →
  pt_read (<[o := Some (<[i := e]> d)]> pt) o i = Some e.
Proof.
  intros Ho Hi. unfold pt_read.
  rewrite list_lookup_insert_eq by (by eapply lookup_lt_Some); simpl.
  apply list_lookup_insert_eq. by eapply lookup_lt_Some.
Qed.

Lemma pt_read_write_ne (pt : pagetable_t) (o i o' i' : nat)
    (d : pte_directory) (e : pte) :
  pt !! o = Some (Some d) → (o', i') ≠ (o, i) →
  pt_read (<[o := Some (<[i := e]> d)]> pt) o' i' = pt_read pt o' i'.
Proof.
  intros Ho Hne. unfold pt_read.
  destruct (decide (o' = o)) as [->|Ho'].
  - rewrite list_lookup_insert_eq by (by eapply lookup_lt_Some).
    rewrite Ho; simpl. apply list_lookup_insert_ne. congruence.
  - by rewrite list_lookup_insert_ne.
Qed.

(** A virtual page number is determined by its two indices. *)
Lemma vpn_indices_inj (n v v' : nat) :
  v' ≠ v → (v' / n, v' mod n) ≠ (v / n, v mod n).
Proof.
  intros Hne [= Hd Hm]. apply Hne.
  rewrite (Nat.div_mod_eq v' n), (Nat.div_mod_eq v n). congruence.
Qed.

(** ** Frame selection *)

Lemma find_frame_lowest_free (c : list Z) (n i : nat) (p : option nat) :
  i + n ≤ length c →
  (∃ f, i ≤ f < i + n ∧ c !! f = Some 0%Z) →
  ∃ f, find_frame n i p c = Some f ∧ i ≤ f < i + n ∧ c !! f = Some 0%Z
       ∧ ∀ g, i ≤ g < f → c !! g ≠ Some 0%Z.
Proof.
  revert i p. induction n as [|n IH]; intros i p Hlen (f & Hf & Hz); [lia|].
  simpl. destruct (lookup_lt_is_Some_2 c i) as [k Hk]; [lia|].
  rewrite Hk; simpl. destruct (Z.eqb_spec k 0) as [->|Hk0].
  - exists i. repeat split; [lia | lia | done | intros g Hg; lia].
  - destruct (IH (S i) (Some i)) as (f' & Hrun & Hr & Hz' & Hlow); [lia| |].
    + exists f. split; [|done]. destruct (decide (f = i)) as [->|]; [|lia].
      congruence.
    + exists f'. repeat split; [done | lia | lia | done |].
      intros g Hg. destruct (decide (g = i)) as [->|]; [congruence|].
      apply Hlow. lia.
Qed.

Lemma find_frame_exhausted (c : list Z) (n i : nat) (p : option nat) :
  i + n ≤ length c →
  (∀ g, i ≤ g < i + n → c !! g ≠ Some 0%Z) →
  find_frame n i p c = match n with O => p | S _ => Some (i + n - 1) end.
Proof.
  revert i p. induction n as [|n IH]; intros i p Hlen Hnz; [done|].
  simpl. destruct (lookup_lt_is_Some_2 c i) as [k Hk]; [lia|].
  rewrite Hk; simpl. destruct (Z.eqb_spec k 0) as [->|Hk0].
  - exfalso. apply (Hnz i); [lia | done].
  - rewrite IH; [|lia|intros g Hg; apply Hnz; lia].
    destruct n; f_equal; lia.
Qed.

(** The loop always leaves a frame number inside the pool when the pool is
    not empty. *)
Lemma find_frame_defined (c : list Z) (n i : nat) (p : option nat) :
  i + n ≤ length c → 0 < n →
  ∃ f, find_frame n i p c = Some f ∧ i ≤ f < i + n.
Proof.
  revert i p. induction n as [|n IH]; intros i p Hlen Hn; [lia|].
  simpl. destruct (lookup_lt_is_Some_2 c i) as [k Hk]; [lia|].
  rewrite Hk; simpl. destruct (Z.eqb k 0).
  - exists i. split; [done | lia].
  - destruct n as [|n'].
    + exists i. split; [done | lia].
    + destruct (IH (S i) (Some i)) as (f & Hf & Hr); [lia | lia |].
      exists f. split; [done | lia].
Qed.

(** ** Allocation, deallocation and faults *)

Section Paging.

Variable NR_PTES_PER_PAGE : nat.
Variable NR_PAGEFRAMES : nat.
Variable NR_TLB_ENTRIES : nat.

Local Abbreviation out_index vpn := (vpn / NR_PTES_PER_PAGE).
Local Abbreviation in_index vpn := (vpn mod NR_PTES_PER_PAGE).
Local Abbreviation pte_at := (pte_of NR_PTES_PER_PAGE).

Lemma write_pte_defined (m : machine) (pt : pagetable_t) (o i : nat)
    (d : pte_directory) (e0 e : pte) :
  cur_pagetable m = Some pt → pt !! o = Some (Some d) → d !! i = Some e0 →
  write_pte m o i e
  = Some (set_cur_pagetable (<[o := Some (<[i := e]> d)]> pt) m).
Proof.
  intros Hpt Ho Hi. unfold write_pte. rewrite Hpt; simpl.
  by rewrite (pt_write_defined pt o i d e0 e Ho Hi).
Qed.

Lemma pte_at_current_inv (m : machine) (vpn : nat) (e : pte) :
  pte_at m (current m) vpn = Some e →
  ∃ pt d, cur_pagetable m = Some pt
          ∧ pt !! out_index vpn = Some (Some d)
          ∧ d !! in_index vpn = Some e.
Proof.
  unfold pte_of, cur_pagetable, pt_read. intros H.
  destruct (heap m !! current m) as [p|]; simpl in *; [|done].
  destruct (pagetable p !! out_index vpn) as [[d|]|] eqn:Ho; simpl in *;
    try done.
  exists (pagetable p), d. eauto.
Qed.

Lemma pte_at_set_cur_eq (m : machine) (pt0 pt : pagetable_t) (vpn : nat) :
  cur_pagetable m = Some pt0 →
  pte_at (set_cur_pagetable pt m) (current m) vpn
  = pt_read pt (out_index vpn) (in_index vpn).
Proof.
  unfold cur_pagetable, pte_of; simpl. intros H.
  rewrite list_lookup_alter_eq. by destruct (heap m !! current m).
Qed.

Lemma pte_at_set_cur_ne (m : machine) (pt : pagetable_t) (a vpn : nat) :
  a ≠ current m → pte_at (set_cur_pagetable pt m) a vpn = pte_at m a vpn.
Proof.
  intros H. unfold pte_of. by rewrite heap_set_cur_pagetable_ne.
Qed.

(** Replacing one PTE of the running process leaves every other PTE of
    every process as it was. *)
Lemma pte_at_update_other (m : machine) (pt : pagetable_t) (vpn : nat)
    (d : pte_directory) (e : pte) (a v : nat) :
  cur_pagetable m = Some pt → pt !! out_index vpn = Some (Some d) →
  (a, v) ≠ (current m, vpn) →
  pte_at (set_cur_pagetable
            (<[out_index vpn := Some (<[in_index vpn := e]> d)]> pt) m) a v
  = pte_at m a v.
Proof.
  intros Hpt Ho Hne. destruct (decide (a = current m)) as [->|Ha].
  - rewrite (pte_at_set_cur_eq m pt) by done.
    rewrite pt_read_write_ne; [|done|apply vpn_indices_inj; congruence].
    unfold pte_of. unfold cur_pagetable in Hpt.
    destruct (heap m !! current m); simpl in *; congruence.
  - by apply pte_at_set_cur_ne.
Qed.

(** What [alloc_page] does once a frame number has come out of the
    selection loop. *)
Lemma alloc_page_unfold (junk : pte_directory) (vpn rw : nat) (m : machine)
    (pt : pagetable_t) (od : option pte_directory) (e0 : pte) (f : nat)
    (k : Z) :
  cur_pagetable m = Some pt →
  pt !! out_index vpn = Some od →
  default junk od !! in_index vpn = Some e0 →
  find_frame NR_PAGEFRAMES 0 None (mapcounts m) = Some f →
  mapcounts m !! f = Some k →
  alloc_page NR_PTES_PER_PAGE NR_PAGEFRAMES junk vpn rw m
  = if Z.eqb k 16
    then Some (MINUS_ONE,
               set_cur_pagetable
                 (<[out_index vpn := Some (default junk od)]> pt) m)
    else Some (Z.of_nat f,
               with_mapcounts (<[f := wrap (k + 1)]> (mapcounts m))
                 (set_cur_pagetable
                    (<[out_index vpn :=
                         Some (<[in_index vpn :=
                                   if Nat.eqb rw 1 then Pte true false f 1
                                   else Pte true true f 3]>
                                 (default junk od))]> pt) m)).
Proof.
  intros Hpt Ho Hi Hf Hk. unfold alloc_page.
  rewrite Hpt; simpl. rewrite Ho; simpl. rewrite Hf; simpl.
  rewrite Hk; simpl.
  assert (Hlt : out_index vpn < length pt) by (by eapply lookup_lt_Some).
  destruct (Z.eqb k 16).
  - destruct od as [d|]; simpl; [|done].
    by rewrite (list_insert_id pt _ _ Ho).
  - set (e := if Nat.eqb rw 1 then _ else _).
    unfold incr. rewrite Hk; simpl.
    destruct od as [d|]; simpl in *.
    + by rewrite (pt_write_defined pt _ _ d e0 e Ho Hi).
    + erewrite (pt_write_defined _ _ _ junk e0 e);
        [|by apply list_lookup_insert_eq|done].
      simpl. by rewrite list_insert_insert_eq.
Qed.

(** C7: a write fault on a copy-on-write page whose frame has one
    reference makes the PTE writable in place and changes nothing else. *)
Theorem write_fault_sole_owner_promotes_in_place (junk : pte_directory)
    (vpn rw : nat) (m : machine) (e : pte) :
  pte_at m (current m) vpn = Some e →
  valid e = true → writable e = false → private e = 3 →
  mapcounts m !! pfn e = Some 1%Z →
  ∃ m', handle_page_fault NR_PTES_PER_PAGE NR_PAGEFRAMES junk vpn rw m
        = Some (true, m')
    ∧ pte_at m' (current m) vpn = Some (Pte true true (pfn e) 3)
    ∧ (∀ a v, (a, v) ≠ (current m, vpn) → pte_at m' a v = pte_at m a v)
    ∧ mapcounts m' = mapcounts m
    ∧ tlb m' = tlb m ∧ processes m' = processes m
    ∧ current m' = current m ∧ ptbr m' = ptbr m
    ∧ pid <$> heap m' = pid <$> heap m.
Proof.
  intros He Hv Hw Hp Hk.
  destruct (pte_at_current_inv m vpn e He) as (pt & d & Hpt & Ho & Hi).
  eexists. split.
  - unfold handle_page_fault. rewrite Hpt; simpl. rewrite Ho; simpl.
    rewrite Hi; simpl. rewrite Hv, Hw, Hp; simpl. rewrite Hk; simpl.
    by rewrite (write_pte_defined m pt _ _ d e _ Hpt Ho Hi).
  - split; [|split; [|repeat split]].
    + rewrite (pte_at_set_cur_eq m pt) by done.
      rewrite (pt_read_write_eq pt _ _ d e) by done.
      unfold set_writable. by rewrite Hv, Hp.
    + intros a v Hne. by apply pte_at_update_other.
    + apply pids_set_cur_pagetable.
Qed.

Lemma pte_at_with_mapcounts (m : machine) (c : list Z) (a v : nat) :
  pte_at (with_mapcounts c m) a v = pte_at m a v.
Proof. done. Qed.

Lemma cur_pagetable_with_mapcounts (m : machine) (c : list Z) :
  cur_pagetable (with_mapcounts c m) = cur_pagetable m.
Proof. done. Qed.

(** While some frame is free, [alloc_page] returns the lowest free frame
    and maps the page on it, creating the directory when it is absent. *)
Lemma alloc_page_lowest_free (junk : pte_directory) (vpn rw : nat)
    (m : machine) (pt : pagetable_t) (od : option pte_directory) (e0 : pte) :
  cur_pagetable m = Some pt →
  pt !! out_index vpn = Some od →
  default junk od !! in_index vpn = Some e0 →
  length (mapcounts m) = NR_PAGEFRAMES →
  (∃ g, mapcounts m !! g = Some 0%Z) →
  ∃ g m',
    alloc_page NR_PTES_PER_PAGE NR_PAGEFRAMES junk vpn rw m
    = Some (Z.of_nat g, m')
    ∧ mapcounts m !! g = Some 0%Z
    ∧ (∀ h, h < g → mapcounts m !! h ≠ Some 0%Z)
    ∧ mapcounts m' = <[g := 1%Z]> (mapcounts m)
    ∧ pte_at m' (current m) vpn
      = Some (if Nat.eqb rw 1 then Pte true false g 1 else Pte true true g 3).
Proof.
  intros Hpt Ho Hi Hlen (g0 & Hg0).
  destruct (find_frame_lowest_free (mapcounts m) NR_PAGEFRAMES 0 None)
    as (g & Hg & _ & Hgz & Hlow); [lia| |].
  { exists g0. split; [apply lookup_lt_Some in Hg0; lia | done]. }
  rewrite (alloc_page_unfold junk vpn rw m pt od e0 g 0%Z) by done.
  simpl. eexists g, _. split; [done|]. split; [done|]. split.
  { intros h Hh. apply Hlow. lia. }
  split; [done|].
  rewrite pte_at_with_mapcounts, (pte_at_set_cur_eq m pt) by done.
  unfold pt_read.
  rewrite list_lookup_insert_eq by (by eapply lookup_lt_Some). simpl.
  apply list_lookup_insert_eq. by eapply lookup_lt_Some.
Qed.

(** With no free frame, the loop of [alloc_page] ends on the last frame:
    [-1] comes back only when that frame's count is 16, and otherwise the
    page is mapped on the last frame, which is in use. *)
Lemma alloc_page_exhausted (junk : pte_directory) (vpn rw : nat)
    (m : machine) (pt : pagetable_t) (d : pte_directory) (e0 : pte) (k : Z) :
  cur_pagetable m = Some pt →
  pt !! out_index vpn = Some (Some d) →
  d !! in_index vpn = Some e0 →
  length (mapcounts m) = NR_PAGEFRAMES →
  (∀ g, g < NR_PAGEFRAMES → mapcounts m !! g ≠ Some 0%Z) →
  mapcounts m !! (NR_PAGEFRAMES - 1) = Some k →
  (k = 16%Z →
   alloc_page NR_PTES_PER_PAGE NR_PAGEFRAMES junk vpn rw m
   = Some (MINUS_ONE, m))
  ∧ (k ≠ 16%Z →
     ∃ m', alloc_page NR_PTES_PER_PAGE NR_PAGEFRAMES junk vpn rw m
           = Some (Z.of_nat (NR_PAGEFRAMES - 1), m')
       ∧ mapcounts m' = <[NR_PAGEFRAMES - 1 := wrap (k + 1)]> (mapcounts m)
       ∧ pfn <$> pte_at m' (current m) vpn = Some (NR_PAGEFRAMES - 1)).
Proof.
  intros Hpt Ho Hi Hlen Hfull Hk.
  assert (Hpos : 0 < NR_PAGEFRAMES).
  { apply lookup_lt_Some in Hk. lia. }
  assert (Hf : find_frame NR_PAGEFRAMES 0 None (mapcounts m)
               = Some (NR_PAGEFRAMES - 1)).
  { rewrite find_frame_exhausted; [|lia|intros g Hg; apply Hfull; lia].
    destruct NR_PAGEFRAMES; [lia|]. f_equal. }
  rewrite (alloc_page_unfold junk vpn rw m pt (Some d) e0 _ k) by done.
  simpl. split.
  - intros ->. simpl. rewrite (list_insert_id pt _ _ Ho).
    by rewrite (set_cur_pagetable_same m pt Hpt).
  - intros Hne. destruct (Z.eqb_spec k 16) as [|_]; [done|].
    eexists. split; [done|]. split; [done|].
    rewrite pte_at_with_mapcounts, (pte_at_set_cur_eq m pt) by done.
    rewrite (pt_read_write_eq pt _ _ d e0) by done.
    by destruct (Nat.eqb rw 1).
Qed.

(** C9: a fault on an invalid PTE whose stale frame number names a frame
    with a count other than 1 is always reported as resolved.  The
    handler first sets the valid bit of the PTE, the other fields being
    as they were, and takes one reference off the stale frame; the result
    of the inner [alloc_page] is then dropped.  When no frame is free and
    the last frame is at the cap, [alloc_page] returns [-1] and changes
    nothing, and the handler still returns [true], with the PTE valid on
    the stale frame. *)
Theorem invalid_pte_fault_always_reports_success (junk : pte_directory)
    (vpn rw : nat) (m : machine) (e : pte) (k : Z) :
  pte_at m (current m) vpn = Some e → valid e = false →
  mapcounts m !! pfn e = Some k → k ≠ 1%Z →
  length (mapcounts m) = NR_PAGEFRAMES →
  ∃ m1 r,
    pte_at m1 (current m) vpn
    = Some (Pte true (writable e) (pfn e) (private e))
    ∧ mapcounts m1 = <[pfn e := wrap (k - 1)]> (mapcounts m)
    ∧ alloc_page NR_PTES_PER_PAGE NR_PAGEFRAMES junk vpn rw m1 = Some r
    ∧ handle_page_fault NR_PTES_PER_PAGE NR_PAGEFRAMES junk vpn rw m
      = Some (true, r.2)
    ∧ ((∀ g, g < NR_PAGEFRAMES → mapcounts m1 !! g ≠ Some 0%Z) →
       mapcounts m1 !! (NR_PAGEFRAMES - 1) = Some 16%Z →
       r = (MINUS_ONE, m1)
       ∧ pte_at r.2 (current m) vpn
         = Some (Pte true (writable e) (pfn e) (private e))).
Proof.
  intros He Hv Hk Hk1 Hlen.
  destruct (pte_at_current_inv m vpn e He) as (pt & d & Hpt & Ho & Hi).
  set (d1 := <[in_index vpn := set_valid true e]> d).
  set (pt1 := <[out_index vpn := Some d1]> pt).
  set (c1 := <[pfn e := wrap (k - 1)]> (mapcounts m)).
  set (m1 := with_mapcounts c1 (set_cur_pagetable pt1 m)).
  assert (Hpt1 : cur_pagetable m1 = Some pt1).
  { unfold m1. rewrite cur_pagetable_with_mapcounts.
    by apply (cur_pagetable_set m pt). }
  assert (Ho1 : pt1 !! out_index vpn = Some (Some d1)).
  { apply list_lookup_insert_eq. by eapply lookup_lt_Some. }
  assert (Hi1 : d1 !! in_index vpn = Some (set_valid true e)).
  { apply list_lookup_insert_eq. by eapply lookup_lt_Some. }
  assert (Hpos : 0 < NR_PAGEFRAMES).
  { apply lookup_lt_Some in Hk. lia. }
  assert (Hlen1 : length c1 = NR_PAGEFRAMES).
  { unfold c1. by rewrite length_insert. }
  destruct (find_frame_defined c1 NR_PAGEFRAMES 0 None)
    as (f & Hf & Hrange); [lia | done |].
  destruct (lookup_lt_is_Some_2 c1 f) as [kf Hkf]; [lia|].
  pose proof (alloc_page_unfold junk vpn rw m1 pt1 (Some d1) _ f kf
                Hpt1 Ho1 Hi1 Hf Hkf) as Halloc.
  assert (Hrun : ∀ r,
    alloc_page NR_PTES_PER_PAGE NR_PAGEFRAMES junk vpn rw m1 = Some r →
    handle_page_fault NR_PTES_PER_PAGE NR_PAGEFRAMES junk vpn rw m
    = Some (true, r.2)).
  { intros r Hr. unfold handle_page_fault.
    rewrite Hpt; simpl. rewrite Ho; simpl. rewrite Hi; simpl.
    rewrite Hv; simpl. rewrite Hk; simpl.
    destruct (Z.eqb_spec k 1) as [|_]; [done|].
    rewrite (write_pte_defined m pt _ _ d e _ Hpt Ho Hi); simpl.
    unfold decr; simpl. rewrite Hk; simpl.
    fold d1 pt1 c1 m1. by rewrite Hr. }
  assert (Hm1 : pte_at m1 (current m) vpn
                = Some (Pte true (writable e) (pfn e) (private e))).
  { unfold m1. rewrite pte_at_with_mapcounts.
    rewrite (pte_at_set_cur_eq m pt) by done.
    by apply (pt_read_write_eq pt _ _ d e). }
  simpl in Halloc. destruct (Z.eqb_spec kf 16) as [->|Hcap].
  - rewrite (list_insert_id pt1 _ _ Ho1) in Halloc.
    rewrite (set_cur_pagetable_same m1 pt1 Hpt1) in Halloc.
    exists m1, (MINUS_ONE, m1). eauto 10.
  - eexists m1, _. split; [done|]. split; [done|]. split; [exact Halloc|].
    split; [by apply Hrun|]. intros Hfull Hlast. exfalso.
    rewrite find_frame_exhausted in Hf; [|lia|intros g Hg; apply Hfull; lia].
    destruct NR_PAGEFRAMES as [|n]; [lia|].
    injection Hf as <-. simpl in Hlast, Hkf. congruence.
Qed.

(** C3, amended: while some frame is free, a write fault on a
    copy-on-write page whose frame has two references takes the count of
    that frame to 1 and maps the page of the running process, writable,
    on the lowest free frame, which is not the shared one; the PTEs of
    every other process, among them the other sharer's, are as before. *)
Theorem cow_write_fault_copies_to_free_frame (junk : pte_directory)
    (vpn rw : nat) (m : machine) (e : pte) :
  pte_at m (current m) vpn = Some e →
  valid e = true → writable e = false → private e = 3 →
  mapcounts m !! pfn e = Some 2%Z →
  rw ≠ 1 →
  length (mapcounts m) = NR_PAGEFRAMES →
  (∃ g, mapcounts m !! g = Some 0%Z) →
  ∃ m' g,
    handle_page_fault NR_PTES_PER_PAGE NR_PAGEFRAMES junk vpn rw m
    = Some (true, m')
    ∧ mapcounts m' !! pfn e = Some 1%Z
    ∧ g ≠ pfn e
    ∧ mapcounts m !! g = Some 0%Z
    ∧ (∀ h, h < g → mapcounts m !! h ≠ Some 0%Z)
    ∧ mapcounts m' !! g = Some 1%Z
    ∧ (∀ h, h ≠ pfn e → h ≠ g → mapcounts m' !! h = mapcounts m !! h)
    ∧ pte_at m' (current m) vpn = Some (Pte true true g 3)
    ∧ (∀ a v, a ≠ current m → pte_at m' a v = pte_at m a v)
    ∧ current m' = current m ∧ processes m' = processes m.
Proof.
  intros He Hv Hw Hp Hk Hrw Hlen (g0 & Hg0).
  destruct (pte_at_current_inv m vpn e He) as (pt & d & Hpt & Ho & Hi).
  set (d1 := <[in_index vpn := set_writable true e]> d).
  set (pt1 := <[out_index vpn := Some d1]> pt).
  set (c1 := <[pfn e := wrap (2 - 1)]> (mapcounts m)).
  set (m1 := with_mapcounts c1 (set_cur_pagetable pt1 m)).
  assert (Hpt1 : cur_pagetable m1 = Some pt1).
  { unfold m1. rewrite cur_pagetable_with_mapcounts.
    by apply (cur_pagetable_set m pt). }
  assert (Ho1 : pt1 !! out_index vpn = Some (Some d1)).
  { apply list_lookup_insert_eq. by eapply lookup_lt_Some. }
  assert (Hi1 : d1 !! in_index vpn = Some (set_writable true e)).
  { apply list_lookup_insert_eq. by eapply lookup_lt_Some. }
  assert (Hc1f : c1 !! pfn e = Some 1%Z).
  { unfold c1. apply list_lookup_insert_eq. by eapply lookup_lt_Some. }
  assert (Hc1 : ∀ h, h ≠ pfn e → c1 !! h = mapcounts m !! h).
  { intros h Hh. unfold c1. by apply list_lookup_insert_ne. }
  assert (Hlen1 : length c1 = NR_PAGEFRAMES).
  { unfold c1. by rewrite length_insert. }
  destruct (find_frame_lowest_free c1 NR_PAGEFRAMES 0 None)
    as (g & Hg & Hrange & Hgz & Hlow); [lia| |].
  { exists g0. split; [apply lookup_lt_Some in Hg0; lia|].
    rewrite Hc1; [done|]. intros ->. congruence. }
  assert (Hgf : g ≠ pfn e) by (intros ->; congruence).
  pose proof (alloc_page_unfold junk vpn rw m1 pt1 (Some d1) _ g 0%Z
                Hpt1 Ho1 Hi1 Hg Hgz) as Halloc.
  simpl in Halloc. destruct (Nat.eqb_spec rw 1) as [|_]; [done|].
  eexists _, g. split.
  { unfold handle_page_fault.
    rewrite Hpt; simpl. rewrite Ho; simpl. rewrite Hi; simpl.
    rewrite Hv, Hw, Hp; simpl. rewrite Hk; simpl.
    rewrite (write_pte_defined m pt _ _ d e _ Hpt Ho Hi); simpl.
    unfold decr; simpl. rewrite Hk; simpl.
    fold d1 pt1 c1 m1. by rewrite Halloc. }
  simpl. repeat split.
  - rewrite list_lookup_insert_ne by done. exact Hc1f.
  - done.
  - by rewrite <- Hc1.
  - intros h Hh Hz. destruct (decide (h = pfn e)) as [->|Hne]; [congruence|].
    apply (Hlow h); [lia|]. by rewrite Hc1.
  - apply list_lookup_insert_eq. lia.
  - intros h Hh Hhg. rewrite list_lookup_insert_ne by done. by apply Hc1.
  - rewrite pte_at_with_mapcounts.
    rewrite (pte_at_set_cur_eq m1 pt1) by done.
    by apply (pt_read_write_eq pt1 _ _ d1 (set_writable true e)).
  - intros a v Ha. rewrite pte_at_with_mapcounts.
    rewrite pte_at_set_cur_ne by done. unfold m1.
    rewrite pte_at_with_mapcounts. by rewrite pte_at_set_cur_ne.
Qed.

(** What the unguarded [free_page] does on a page with no valid mapping.
    On a page whose directory is absent it reads through the null
    directory pointer, which is undefined.  On a page whose directory
    exists and whose PTE is invalid it runs as for a mapped page: the
    count of the frame named by the stale frame number goes down by one
    (modulo [2^32]), the PTE is cleared and the cache entries of the page
    are invalidated; no other PTE and no other count changes. *)
Lemma free_page_on_unmapped_page (vpn : nat) (m : machine)
    (pt : pagetable_t) :
  cur_pagetable m = Some pt →
  NR_TLB_ENTRIES ≤ length (tlb m) →
  (pt !! out_index vpn = Some None →
   free_page NR_PTES_PER_PAGE NR_TLB_ENTRIES vpn m = None)
  ∧ (∀ d e k,
       pt !! out_index vpn = Some (Some d) → d !! in_index vpn = Some e →
       valid e = false → mapcounts m !! pfn e = Some k →
       ∃ m', free_page NR_PTES_PER_PAGE NR_TLB_ENTRIES vpn m = Some m'
         ∧ mapcounts m' = <[pfn e := wrap (k - 1)]> (mapcounts m)
         ∧ pte_at m' (current m) vpn = Some (Pte false false 0 0)
         ∧ (∀ a v, (a, v) ≠ (current m, vpn) → pte_at m' a v = pte_at m a v)
         ∧ lookup_tlb NR_TLB_ENTRIES vpn m' = Some None
         ∧ (∀ j, tlb m' !! j = if decide (j < NR_TLB_ENTRIES)
                               then free_tlb_entry vpn <$> tlb m !! j
                               else tlb m !! j)
         ∧ current m' = current m ∧ processes m' = processes m).
Proof.
  intros Hpt Htlb. split.
  - intros Ho. unfold free_page, read_pte, pt_read.
    rewrite Hpt; simpl. by rewrite Ho.
  - intros d e k Ho Hi Hv Hk.
    set (c1 := <[pfn e := wrap (k - 1)]> (mapcounts m)).
    set (pt1 := <[out_index vpn :=
                    Some (<[in_index vpn := Pte false false 0 0]> d)]> pt).
    set (m1 := set_cur_pagetable pt1 (with_mapcounts c1 m)).
    destruct (free_tlb_then_lookup_misses NR_TLB_ENTRIES vpn m1)
      as (t' & Hfree & Hmiss & Hent); [done|].
    exists (with_tlb t' m1). split.
    { unfold free_page, read_pte, pt_read.
      rewrite Hpt; simpl. rewrite Ho; simpl. rewrite Hi; simpl.
      unfold decr. rewrite Hk; simpl. fold c1.
      rewrite (write_pte_defined (with_mapcounts c1 m) pt _ _ d e _);
        [|done..]. simpl. fold pt1 m1. exact Hfree. }
    split; [done|]. split.
    { change (pte_at (set_cur_pagetable pt1 m) (current m) vpn
              = Some (Pte false false 0 0)).
      rewrite (pte_at_set_cur_eq m pt) by done.
      by apply (pt_read_write_eq pt _ _ d e). }
    split.
    { intros a v Hne.
      change (pte_at (set_cur_pagetable pt1 m) a v = pte_at m a v).
      by apply pte_at_update_other. }
    split; [done|]. split; [exact Hent|]. done.
Qed.

End Paging.

(** ** Switch and fork *)

(** [n] increments of a frame count, each wrapping as [mapcounts[f]++]. *)
Definition bump (n : nat) (k : Z) : Z := Nat.iter n (fun x => wrap (x + 1)) k.

(** What fork makes of a valid PTE: a copy-on-write page loses its
    write permission, any other page is left alone. *)
Definition cow_protect (e : pte) : pte :=
  if Nat.eqb (private e) 3 then set_writable false e else e.

(** What fork leaves in the parent's slot and in the child's slot, the
    child's slot holding [j] before. *)
Definition fork_parent_pte (e : pte) : pte :=
  if valid e then cow_protect e else e.
Definition fork_child_pte (e j : pte) : pte :=
  if valid e then cow_protect e else j.
Definition fork_child_dir (pd junk : pte_directory) : pte_directory :=
  zip_with fork_child_pte pd junk.

Definition fork_parent_slot (od : option pte_directory)
  : option pte_directory :=
  match od with
  | Some pd => Some (fork_parent_pte <$> pd)
  | None => None
  end.
Definition fork_parent_pt (pt : pagetable_t) : pagetable_t :=
  fork_parent_slot <$> pt.
Definition fork_child_slot (junk_dir : nat → pte_directory) (i : nat)
  (s : option pte_directory * option pte_directory) : option pte_directory :=
  match s.1 with
  | Some pd => Some (fork_child_dir pd (junk_dir i))
  | None => s.2
  end.
Definition fork_child_pt (junk_dir : nat → pte_directory)
  (pt junk_pt : pagetable_t) : pagetable_t :=
  imap (fork_child_slot junk_dir) (zip pt junk_pt).

(** The shape of a page table: [nr_ptes] slots, every directory of
    [nr_ptes] entries, every valid entry on a frame below [nr_frames]. *)
Definition wf_directory (nr_ptes nr_frames : nat) (d : pte_directory) : bool :=
  Nat.eqb (length d) nr_ptes
  && forallb (fun e => implb (valid e) (Nat.ltb (pfn e) nr_frames)) d.
Definition wf_pagetable (nr_ptes nr_frames : nat) (pt : pagetable_t) : bool :=
  Nat.eqb (length pt) nr_ptes
  && forallb (from_option (wf_directory nr_ptes nr_frames) true) pt.

Lemma wf_pagetable_length (nr_ptes nr_frames : nat) (pt : pagetable_t) :
  wf_pagetable nr_ptes nr_frames pt = true → length pt = nr_ptes.
Proof.
  unfold wf_pagetable. intros [H _]%andb_prop. by apply Nat.eqb_eq.
Qed.

Lemma wf_pagetable_directory (nr_ptes nr_frames : nat) (pt : pagetable_t)
    (o : nat) (d : pte_directory) :
  wf_pagetable nr_ptes nr_frames pt = true → pt !! o = Some (Some d) →
  length d = nr_ptes ∧ ∀ e, e ∈ d → valid e = true → pfn e < nr_frames.
Proof.
  unfold wf_pagetable. intros [_ H]%andb_prop Ho.
  rewrite forallb_forall in H.
  specialize (H (Some d)). simpl in H. unfold wf_directory in H.
  destruct (andb_prop _ _ (H (proj1 (list_elem_of_In _ _)
                              (list_elem_of_lookup_2 _ _ _ Ho)))) as [Hl Hd].
  split; [by apply Nat.eqb_eq|].
  intros e He Hv. rewrite forallb_forall in Hd.
  specialize (Hd e (proj1 (list_elem_of_In _ _) He)).
  rewrite Hv in Hd. simpl in Hd. by apply Nat.ltb_lt.
Qed.

(** One more slot done in a loop that rewrites an array from left to
    right: [D] is the finished array, [T] the array at the start. *)
Lemma lookup_take_drop {A} (D T : list A) (i : nat) :
  i ≤ length D → (take i D ++ drop i T) !! i = T !! i.
Proof.
  intros H. rewrite lookup_app_r; rewrite length_take; [|lia].
  rewrite lookup_drop. f_equal. lia.
Qed.

Lemma insert_take_drop {A} (D T : list A) (i : nat) (y : A) :
  D !! i = Some y → i < length T →
  <[i := y]> (take i D ++ drop i T) = take (S i) D ++ drop (S i) T.
Proof.
  intros HD HT. pose proof (lookup_lt_Some _ _ _ HD) as Hlt.
  destruct (lookup_lt_is_Some_2 T i HT) as [x Hx].
  rewrite insert_app_r_alt; rewrite length_take; [|lia].
  replace (i - i `min` length D) with 0 by lia.
  rewrite (drop_S T x i Hx); simpl.
  by rewrite (take_S_r D i y HD), <- app_assoc.
Qed.

Lemma length_fork_child_dir (pd junk : pte_directory) :
  length (fork_child_dir pd junk) = length pd `min` length junk.
Proof. apply length_zip_with. Qed.

Lemma bump_add (a b : nat) (k : Z) : bump (a + b) k = bump b (bump a k).
Proof.
  unfold bump. induction b as [|b IH].
  - by rewrite Nat.add_0_r.
  - rewrite Nat.add_succ_r. simpl. by rewrite IH.
Qed.

Lemma refs_dir_snoc (f : nat) (d : pte_directory) (e : pte) :
  refs_dir f (d ++ [e]) = refs_dir f d + refs_pte f e.
Proof.
  unfold refs_dir. rewrite sum_list_with_app. simpl. lia.
Qed.

Lemma refs_pt_snoc (f : nat) (pt : pagetable_t) (od : option pte_directory) :
  refs_pt f (pt ++ [od]) = refs_pt f pt + from_option (refs_dir f) 0 od.
Proof.
  unfold refs_pt. rewrite sum_list_with_app. simpl. lia.
Qed.

Section Fork.

Variable NR_PTES_PER_PAGE : nat.
Variable NR_PAGEFRAMES : nat.
Variable NR_TLB_ENTRIES : nat.

Local Abbreviation pte_at := (pte_of NR_PTES_PER_PAGE).

(** The inner loop of fork, over one directory of the parent. *)
Lemma fork_ptes_loop (pd cd : pte_directory) (c : list Z) :
  length pd = NR_PTES_PER_PAGE → length cd = NR_PTES_PER_PAGE →
  (∀ e, e ∈ pd → valid e = true → pfn e < length c) →
  ∃ c', for_up NR_PTES_PER_PAGE 0 fork_pte_body (pd, cd, c)
        = Some (fork_parent_pte <$> pd, fork_child_dir pd cd, c')
    ∧ length c' = length c
    ∧ ∀ f k, c !! f = Some k → c' !! f = Some (bump (refs_dir f pd) k).
Proof.
  intros Hpd Hcd Hpfn.
  destruct (for_up_inv
    (fun j (s : pte_directory * pte_directory * list Z) =>
       s.1.1 = (fork_parent_pte <$> take j pd) ++ drop j pd
       ∧ s.1.2 = take j (fork_child_dir pd cd) ++ drop j cd
       ∧ length s.2 = length c
       ∧ ∀ f k, c !! f = Some k →
           s.2 !! f = Some (bump (refs_dir f (take j pd)) k))
    fork_pte_body NR_PTES_PER_PAGE 0 (pd, cd, c))
    as ([[pd' cd'] c'] & Hrun & Hp & Hc & Hl & Hcount).
  - simpl. rewrite ?take_0, ?drop_0. done.
  - intros j [[pdj cdj] cj] Hj (Hp & Hc & Hl & Hcount); simpl in *.
    destruct (lookup_lt_is_Some_2 pd j) as [e He]; [lia|].
    destruct (lookup_lt_is_Some_2 cd j) as [x Hx]; [lia|].
    assert (Hpj : pdj !! j = Some e).
    { rewrite Hp, lookup_app_r; rewrite length_fmap, length_take; [|lia].
      rewrite lookup_drop. rewrite <- He. f_equal. lia. }
    assert (Hcj : cdj !! j = Some x).
    { rewrite Hc, lookup_app_r;
        rewrite length_take, length_fork_child_dir; [|lia].
      rewrite lookup_drop. rewrite <- Hx. f_equal. lia. }
    assert (Htp : ∀ y, <[j := y]> pdj
                       = (fork_parent_pte <$> take j pd) ++ y :: drop (S j) pd).
    { intros y. rewrite Hp.
      rewrite insert_app_r_alt; rewrite length_fmap, length_take; [|lia].
      replace (j - j `min` length pd) with 0 by lia.
      by rewrite (drop_S pd e j He). }
    assert (Htc : ∀ y, <[j := y]> cdj
                       = take j (fork_child_dir pd cd) ++ y :: drop (S j) cd).
    { intros y. rewrite Hc.
      rewrite insert_app_r_alt;
        rewrite length_take, length_fork_child_dir; [|lia].
      replace (j - j `min` (length pd `min` length cd)) with 0 by lia.
      by rewrite (drop_S cd x j Hx). }
    assert (Hsp : ∀ y, y = fork_parent_pte e →
              (fork_parent_pte <$> take j pd) ++ y :: drop (S j) pd
              = (fork_parent_pte <$> take (S j) pd) ++ drop (S j) pd).
    { intros y ->. rewrite (take_S_r pd j e He), fmap_app, <- app_assoc.
      done. }
    assert (Hsc : ∀ y, y = fork_child_pte e x →
              take j (fork_child_dir pd cd) ++ y :: drop (S j) cd
              = take (S j) (fork_child_dir pd cd) ++ drop (S j) cd).
    { intros y ->.
      rewrite (take_S_r (fork_child_dir pd cd) j (fork_child_pte e x)).
      - by rewrite <- app_assoc.
      - unfold fork_child_dir. rewrite lookup_zip_with, He; simpl.
        by rewrite Hx. }
    unfold fork_pte_body. rewrite Hpj; simpl.
    destruct (valid e) eqn:Hv; simpl.
    + unfold store. rewrite Hcj; simpl.
      assert (Hlt : pfn e < length cj).
      { rewrite Hl. apply Hpfn; [|done]. by eapply list_elem_of_lookup_2. }
      destruct (lookup_lt_is_Some_2 cj (pfn e) Hlt) as [n Hn].
      assert (Hpfn_eq : pfn (if Nat.eqb (private e) 3
                             then set_writable false
                                    (Pte true (writable e) (pfn e) (private e))
                             else Pte true (writable e) (pfn e) (private e))
                        = pfn e).
      { by destruct (Nat.eqb (private e) 3). }
      unfold incr. rewrite Hpfn_eq, Hn; simpl.
      eexists. split; [done|]. simpl. split; [|split; [|split]].
      * destruct (Nat.eqb (private e) 3) eqn:Hq.
        -- rewrite Htp. apply Hsp.
           unfold fork_parent_pte, cow_protect. by rewrite Hv, Hq.
        -- rewrite <- (list_insert_id pdj j e Hpj), Htp. apply Hsp.
           unfold fork_parent_pte, cow_protect. by rewrite Hv, Hq.
      * rewrite list_insert_insert_eq, Htc. apply Hsc.
        unfold fork_child_pte, cow_protect. rewrite Hv.
        destruct e as [v w p q]; simpl in *. subst v.
        by destruct (Nat.eqb q 3).
      * by rewrite length_insert.
      * intros f k Hk. specialize (Hcount f k Hk).
        rewrite (take_S_r pd j e He), refs_dir_snoc.
        unfold refs_pte. rewrite Hv; simpl.
        destruct (Nat.eqb_spec (pfn e) f) as [<-|Hne].
        -- rewrite list_lookup_insert_eq by done.
           rewrite Hn in Hcount. injection Hcount as ->.
           by rewrite bump_add.
        -- rewrite list_lookup_insert_ne by done.
           by rewrite Nat.add_0_r.
    + eexists. split; [done|]. simpl. split; [|split; [|split]].
      * rewrite <- (list_insert_id pdj j e Hpj), Htp. apply Hsp.
        unfold fork_parent_pte. by rewrite Hv.
      * rewrite <- (list_insert_id cdj j x Hcj), Htc. apply Hsc.
        unfold fork_child_pte. by rewrite Hv.
      * done.
      * intros f k Hk. rewrite (take_S_r pd j e He), refs_dir_snoc.
        unfold refs_pte. rewrite Hv; simpl. rewrite Nat.add_0_r. eauto.
  - simpl in *. exists c'. split; [|split; [done|]].
    + rewrite Hrun. do 2 f_equal.
      rewrite Hp, Hc. f_equal.
      * rewrite take_ge, drop_ge by lia. by rewrite app_nil_r.
      * rewrite take_ge, drop_ge; [by rewrite app_nil_r|lia|].
        rewrite length_fork_child_dir. lia.
    + intros f k Hk. rewrite (Hcount f k Hk). by rewrite take_ge by lia.
Qed.

(** The outer loop of fork, over the parent's page table. *)
Lemma fork_dirs_loop (junk_dir : nat → pte_directory)
    (ppt cpt : pagetable_t) (c : list Z) :
  wf_pagetable NR_PTES_PER_PAGE NR_PAGEFRAMES ppt = true →
  length cpt = NR_PTES_PER_PAGE →
  (∀ i, length (junk_dir i) = NR_PTES_PER_PAGE) →
  length c = NR_PAGEFRAMES →
  ∃ c', for_up NR_PTES_PER_PAGE 0 (fork_dir_body NR_PTES_PER_PAGE junk_dir)
          (ppt, cpt, c)
        = Some (fork_parent_pt ppt, fork_child_pt junk_dir ppt cpt, c')
    ∧ length c' = length c
    ∧ ∀ f k, c !! f = Some k → c' !! f = Some (bump (refs_pt f ppt) k).
Proof.
  intros Hwf Hcpt Hjunk Hc.
  pose proof (wf_pagetable_length _ _ _ Hwf) as Hppt.
  set (P := fork_parent_pt ppt). set (C := fork_child_pt junk_dir ppt cpt).
  assert (HlP : length P = NR_PTES_PER_PAGE).
  { unfold P, fork_parent_pt. by rewrite length_fmap. }
  assert (HlC : length C = NR_PTES_PER_PAGE).
  { unfold C, fork_child_pt. rewrite length_imap, length_zip. lia. }
  destruct (for_up_inv
    (fun i (s : pagetable_t * pagetable_t * list Z) =>
       s.1.1 = take i P ++ drop i ppt
       ∧ s.1.2 = take i C ++ drop i cpt
       ∧ length s.2 = length c
       ∧ ∀ f k, c !! f = Some k →
           s.2 !! f = Some (bump (refs_pt f (take i ppt)) k))
    (fork_dir_body NR_PTES_PER_PAGE junk_dir) NR_PTES_PER_PAGE 0
    (ppt, cpt, c)) as ([[ppt' cpt'] c'] & Hrun & Hp & Hcc & Hl & Hcount).
  - simpl. rewrite ?take_0, ?drop_0. done.
  - intros i [[ppti cpti] ci] Hi (Hp & Hcc & Hl & Hcount); simpl in *.
    destruct (lookup_lt_is_Some_2 ppt i) as [od Hod]; [lia|].
    destruct (lookup_lt_is_Some_2 cpt i) as [x Hx]; [lia|].
    assert (Hpi : ppti !! i = Some od).
    { rewrite Hp, lookup_take_drop; [done | lia]. }
    assert (Hci : cpti !! i = Some x).
    { rewrite Hcc, lookup_take_drop; [done | lia]. }
    assert (HP : P !! i = Some (fork_parent_slot od)).
    { unfold P, fork_parent_pt. by rewrite list_lookup_fmap, Hod. }
    assert (HC : C !! i = Some (fork_child_slot junk_dir i (od, x))).
    { unfold C, fork_child_pt. rewrite list_lookup_imap.
      by rewrite (proj2 (lookup_zip_Some ppt cpt i od x) (conj Hod Hx)). }
    unfold fork_dir_body. rewrite Hpi; simpl.
    destruct od as [pd|]; simpl.
    + destruct (wf_pagetable_directory _ _ _ _ _ Hwf Hod) as [Hlpd Hpfn].
      unfold store. rewrite Hci; simpl.
      destruct (fork_ptes_loop pd (junk_dir i) ci)
        as (c1 & Hinner & Hl1 & Hc1); [done | done | |].
      { intros e He Hv. rewrite Hl, Hc. by apply Hpfn. }
      rewrite Hinner; simpl. eexists. split; [done|]. simpl.
      split; [|split; [|split]].
      * rewrite Hp. apply insert_take_drop; [done | lia].
      * rewrite list_insert_insert_eq, Hcc.
        apply insert_take_drop; [done | lia].
      * congruence.
      * intros f k Hk. rewrite (take_S_r ppt i _ Hod), refs_pt_snoc.
        simpl. rewrite bump_add. apply Hc1. by apply Hcount.
    + eexists. split; [done|]. simpl. split; [|split; [|split]].
      * rewrite <- (list_insert_id ppti i None Hpi), Hp.
        apply insert_take_drop; [done | lia].
      * rewrite <- (list_insert_id cpti i x Hci), Hcc.
        apply insert_take_drop; [done | lia].
      * done.
      * intros f k Hk. rewrite (take_S_r ppt i _ Hod), refs_pt_snoc.
        simpl. rewrite Nat.add_0_r. by apply Hcount.
  - simpl in *. exists c'. split; [|split; [done|]].
    + rewrite Hrun. do 2 f_equal. rewrite Hp, Hcc. f_equal.
      * rewrite take_ge, drop_ge by lia. by rewrite app_nil_r.
      * rewrite take_ge, drop_ge by lia. by rewrite app_nil_r.
    + intros f k Hk. rewrite (Hcount f k Hk). by rewrite take_ge by lia.
Qed.

Lemma find_pid_absent (h : list process) (q : list nat) (p : nat) :
  Forall (fun a => ∃ t, h !! a = Some t ∧ pid t ≠ p) q →
  find_pid h q p = Some None.
Proof.
  induction 1 as [|a q (t & Ht & Hp) _ IH]; simpl; [done|].
  rewrite Ht; simpl. by destruct (Nat.eqb_spec (pid t) p).
Qed.

Lemma find_pid_present (h : list process) (q : list nat) (p : nat) :
  Forall (fun a => is_Some (h !! a)) q →
  Exists (fun a => ∃ t, h !! a = Some t ∧ pid t = p) q →
  ∃ l1 temp l2,
    q = l1 ++ temp :: l2
    ∧ (∃ t, h !! temp = Some t ∧ pid t = p)
    ∧ Forall (fun a => ∃ u, h !! a = Some u ∧ pid u ≠ p) l1
    ∧ find_pid h q p = Some (Some temp).
Proof.
  induction 1 as [|a q [t Ht] _ IH]; intros Hex.
  - by apply Exists_nil in Hex.
  - simpl. rewrite Ht; simpl. destruct (Nat.eqb_spec (pid t) p) as [Hp|Hp].
    + exists [], a, q. eauto 10.
    + apply Exists_cons in Hex as [(u & Hu & Hup)|Hex]; [congruence|].
      destruct (IH Hex) as (l1 & temp & l2 & -> & Htemp & Hl1 & Hfind).
      exists (a :: l1), temp, l2. split; [done|]. split; [done|].
      split; [|done]. constructor; eauto.
Qed.

Lemma unlink_first (a : nat) (l1 l2 : list nat) :
  a ∉ l1 → unlink a (l1 ++ a :: l2) = l1 ++ l2.
Proof.
  induction l1 as [|b l1 IH]; intros Hin; simpl.
  - by rewrite Nat.eqb_refl.
  - apply not_elem_of_cons in Hin as [Hne Hin].
    destruct (Nat.eqb_spec a b); [done|]. by rewrite IH.
Qed.

(** C6: switching to a pid of the ready queue takes the first process
    with that pid out of the queue and makes it the running process, with
    [ptbr] on its page table; the process that was running goes to the
    tail, and the other processes keep their order. *)
Theorem switch_to_queued_process (junk_pt : pagetable_t)
    (junk_dir : nat → pte_directory) (p : nat) (m : machine) :
  NR_TLB_ENTRIES ≤ length (tlb m) →
  NoDup (current m :: processes m) →
  Forall (fun a => is_Some (heap m !! a)) (processes m) →
  Exists (fun a => ∃ t, heap m !! a = Some t ∧ pid t = p) (processes m) →
  ∃ m' l1 temp l2,
    switch_process NR_PTES_PER_PAGE NR_TLB_ENTRIES junk_pt junk_dir p m
    = Some m'
    ∧ processes m = l1 ++ temp :: l2
    ∧ (∃ t, heap m !! temp = Some t ∧ pid t = p)
    ∧ Forall (fun a => ∃ u, heap m !! a = Some u ∧ pid u ≠ p) l1
    ∧ processes m' = l1 ++ l2 ++ [current m]
    ∧ (temp ∉ processes m')
    ∧ current m' = temp
    ∧ ptbr m' = Some temp
    ∧ heap m' = heap m
    ∧ mapcounts m' = mapcounts m.
Proof.
  intros Htlb Hnd Hheap Hex.
  destruct (flush_tlb_loop NR_TLB_ENTRIES (tlb m) Htlb) as (t' & Hrun & _).
  destruct (find_pid_present (heap m) (processes m) p Hheap Hex)
    as (l1 & temp & l2 & Hq & Htemp & Hl1 & Hfind).
  rewrite Hq in Hnd.
  pose proof (NoDup_cons_1_1 _ _ Hnd) as Hcur.
  apply NoDup_cons_1_2, list.NoDup_app in Hnd as (_ & Hl1l2 & Hnd2).
  pose proof (NoDup_cons_1_1 _ _ Hnd2) as Hl2.
  assert (Htl1 : temp ∉ l1).
  { intros Hin. apply (Hl1l2 temp Hin). by left. }
  eexists _, l1, temp, l2. split.
  { unfold switch_process, flush_tlb. rewrite Hrun; simpl.
    rewrite Hfind; simpl. done. }
  simpl. rewrite Hq, <- app_assoc. simpl.
  rewrite (unlink_first temp l1 (l2 ++ [current m]) Htl1).
  repeat split; try done.
  rewrite !elem_of_app, list_elem_of_singleton.
  intros [? | [? | Heq]]; [done | done |]. subst temp.
  apply Hcur. rewrite elem_of_app. right. by left.
Qed.

Lemma pt_read_fork_parent (pt : pagetable_t) (o i : nat) (e : pte) :
  pt_read pt o i = Some e →
  pt_read (fork_parent_pt pt) o i = Some (fork_parent_pte e).
Proof.
  unfold pt_read, fork_parent_pt. rewrite list_lookup_fmap.
  destruct (pt !! o) as [[d|]|]; simpl; try done.
  rewrite list_lookup_fmap. by intros ->.
Qed.

Lemma pt_read_fork_child (junk_dir : nat → pte_directory)
    (pt junk_pt : pagetable_t) (o i : nat) (e : pte) :
  wf_pagetable NR_PTES_PER_PAGE NR_PAGEFRAMES pt = true →
  length junk_pt = NR_PTES_PER_PAGE →
  (∀ k, length (junk_dir k) = NR_PTES_PER_PAGE) →
  pt_read pt o i = Some e → valid e = true →
  pt_read (fork_child_pt junk_dir pt junk_pt) o i = Some (cow_protect e).
Proof.
  intros Hwf Hjp Hjd Hread Hv. unfold pt_read in Hread.
  destruct (pt !! o) as [[d|]|] eqn:Ho; simpl in Hread; try done.
  pose proof (wf_pagetable_length _ _ _ Hwf) as Hlen.
  destruct (wf_pagetable_directory _ _ _ _ _ Hwf Ho) as [Hld _].
  destruct (lookup_lt_is_Some_2 junk_pt o) as [x Hx].
  { apply lookup_lt_Some in Ho. lia. }
  destruct (lookup_lt_is_Some_2 (junk_dir o) i) as [y Hy].
  { apply lookup_lt_Some in Hread. rewrite Hjd. lia. }
  unfold pt_read, fork_child_pt. rewrite list_lookup_imap.
  rewrite (proj2 (lookup_zip_Some pt junk_pt o (Some d) x) (conj Ho Hx)).
  simpl. unfold fork_child_dir. rewrite lookup_zip_with, Hread; simpl.
  rewrite Hy; simpl. unfold fork_child_pte. by rewrite Hv.
Qed.

(** The fork path of [switch_process], in full. *)
Lemma fork_spec (junk_pt : pagetable_t) (junk_dir : nat → pte_directory)
    (p : nat) (m : machine) (parent : process) :
  NR_TLB_ENTRIES ≤ length (tlb m) →
  Forall (fun a => ∃ t, heap m !! a = Some t ∧ pid t ≠ p) (processes m) →
  heap m !! current m = Some parent →
  wf_pagetable NR_PTES_PER_PAGE NR_PAGEFRAMES (pagetable parent) = true →
  length (mapcounts m) = NR_PAGEFRAMES →
  length junk_pt = NR_PTES_PER_PAGE →
  (∀ i, length (junk_dir i) = NR_PTES_PER_PAGE) →
  ∃ t' c',
    switch_process NR_PTES_PER_PAGE NR_TLB_ENTRIES junk_pt junk_dir p m
    = Some (Machine
              ((<[current m := Process (pid parent)
                                 (fork_parent_pt (pagetable parent))]>
                  (heap m))
                 ++ [Process p
                       (fork_child_pt junk_dir (pagetable parent) junk_pt)])
              (processes m ++ [current m])
              (length (heap m)) (Some (length (heap m))) t' c')
    ∧ length c' = NR_PAGEFRAMES
    ∧ ∀ f k, mapcounts m !! f = Some k →
        c' !! f = Some (bump (refs_proc m f (current m)) k).
Proof.
  intros Htlb Habs Hpar Hwf Hc Hjp Hjd.
  destruct (flush_tlb_loop NR_TLB_ENTRIES (tlb m) Htlb) as (t' & Hrun & _).
  destruct (fork_dirs_loop junk_dir (pagetable parent) junk_pt (mapcounts m))
    as (c' & Hloop & Hl & Hcount); [done..|].
  exists t', c'. split; [|split; [congruence|]].
  - unfold switch_process, flush_tlb. rewrite Hrun; simpl.
    rewrite (find_pid_absent _ _ _ Habs); simpl. rewrite Hpar; simpl.
    by rewrite Hloop.
  - intros f k Hk. unfold refs_proc. rewrite Hpar; simpl. by apply Hcount.
Qed.

(** The fork path, seen through the PTEs and the frame counts. *)
Lemma fork_pte_spec (junk_pt : pagetable_t) (junk_dir : nat → pte_directory)
    (p : nat) (m : machine) (parent : process) :
  NR_TLB_ENTRIES ≤ length (tlb m) →
  Forall (fun a => ∃ t, heap m !! a = Some t ∧ pid t ≠ p) (processes m) →
  heap m !! current m = Some parent →
  wf_pagetable NR_PTES_PER_PAGE NR_PAGEFRAMES (pagetable parent) = true →
  length (mapcounts m) = NR_PAGEFRAMES →
  length junk_pt = NR_PTES_PER_PAGE →
  (∀ i, length (junk_dir i) = NR_PTES_PER_PAGE) →
  ∃ m',
    switch_process NR_PTES_PER_PAGE NR_TLB_ENTRIES junk_pt junk_dir p m
    = Some m'
    ∧ current m' = length (heap m)
    ∧ ptbr m' = Some (length (heap m))
    ∧ processes m' = processes m ++ [current m]
    ∧ pid <$> heap m' !! current m' = Some p
    ∧ (∀ f k, mapcounts m !! f = Some k →
         mapcounts m' !! f = Some (bump (refs_proc m f (current m)) k))
    ∧ (∀ vpn e, pte_at m (current m) vpn = Some e → valid e = true →
         pte_at m' (current m) vpn = Some (cow_protect e)
         ∧ pte_at m' (current m') vpn = Some (cow_protect e)).
Proof.
  intros Htlb Habs Hpar Hwf Hc Hjp Hjd.
  destruct (fork_spec junk_pt junk_dir p m parent)
    as (t' & c' & Hrun & Hl & Hcount); [done..|].
  pose proof (lookup_lt_Some _ _ _ Hpar) as Hcur.
  eexists. split; [exact Hrun|]. simpl.
  assert (Hchild : ∀ (x : process) (h : list process),
            length h = length (heap m) → (h ++ [x]) !! length (heap m) = Some x).
  { intros x h Hh. rewrite lookup_app_r by lia.
    by replace (length (heap m) - length h) with 0 by lia. }
  split; [done|]. split; [done|]. split; [done|]. split.
  { by rewrite Hchild by apply length_insert. }
  split; [done|].
  intros vpn e He Hv. unfold pte_of in *. simpl.
  rewrite Hpar in He; simpl in He. split.
  - rewrite lookup_app_l by (by rewrite length_insert).
    rewrite list_lookup_insert_eq by done. simpl.
    rewrite (pt_read_fork_parent _ _ _ e He).
    unfold fork_parent_pte. by rewrite Hv.
  - rewrite Hchild by apply length_insert. simpl.
    by apply pt_read_fork_child.
Qed.

(** C10: fork raises a frame's count once for every valid PTE of the
    parent that points at it, whatever the tag of the PTE.  A valid page
    that is not tagged copy-on-write ends up in both page tables with its
    write permission as it was, and its frame's count one higher when no
    other page of the parent is on that frame. *)
Theorem fork_counts_every_duplicated_pte (junk_pt : pagetable_t)
    (junk_dir : nat → pte_directory) (p : nat) (m : machine)
    (parent : process) :
  NR_TLB_ENTRIES ≤ length (tlb m) →
  Forall (fun a => ∃ t, heap m !! a = Some t ∧ pid t ≠ p) (processes m) →
  heap m !! current m = Some parent →
  wf_pagetable NR_PTES_PER_PAGE NR_PAGEFRAMES (pagetable parent) = true →
  length (mapcounts m) = NR_PAGEFRAMES →
  length junk_pt = NR_PTES_PER_PAGE →
  (∀ i, length (junk_dir i) = NR_PTES_PER_PAGE) →
  ∃ m',
    switch_process NR_PTES_PER_PAGE NR_TLB_ENTRIES junk_pt junk_dir p m
    = Some m'
    ∧ current m' = length (heap m)
    ∧ (∀ f k, mapcounts m !! f = Some k →
         mapcounts m' !! f = Some (bump (refs_proc m f (current m)) k))
    ∧ (∀ vpn e, pte_at m (current m) vpn = Some e →
         valid e = true → private e ≠ 3 →
         pte_at m' (current m) vpn = Some e
         ∧ pte_at m' (current m') vpn = Some e
         ∧ ∀ k, mapcounts m !! pfn e = Some k →
             refs_proc m (pfn e) (current m) = 1 →
             mapcounts m' !! pfn e = Some (wrap (k + 1))).
Proof.
  intros Htlb Habs Hpar Hwf Hc Hjp Hjd.
  destruct (fork_pte_spec junk_pt junk_dir p m parent)
    as (m' & Hrun & Hcur & _ & _ & _ & Hcount & Hpte); [done..|].
  exists m'. split; [done|]. split; [done|]. split; [done|].
  intros vpn e He Hv Hp.
  destruct (Hpte vpn e He Hv) as [Hparent Hchild].
  assert (Hsame : cow_protect e = e).
  { unfold cow_protect. by destruct (Nat.eqb_spec (private e) 3). }
  rewrite Hsame in Hparent, Hchild. split; [done|]. split; [done|].
  intros k Hk Hone. rewrite (Hcount _ _ Hk), Hone. done.
Qed.

(** C4, amended: when the copy-on-write page is the only valid page of
    the running process on its frame and the frame's count is 1, fork
    takes the count to 2 and leaves the page read-only, valid and on the
    same frame in the parent and in the child. *)
Theorem fork_shares_cow_page_read_only (junk_pt : pagetable_t)
    (junk_dir : nat → pte_directory) (p : nat) (m : machine)
    (parent : process) (vpn : nat) (e : pte) :
  NR_TLB_ENTRIES ≤ length (tlb m) →
  Forall (fun a => ∃ t, heap m !! a = Some t ∧ pid t ≠ p) (processes m) →
  heap m !! current m = Some parent →
  wf_pagetable NR_PTES_PER_PAGE NR_PAGEFRAMES (pagetable parent) = true →
  length (mapcounts m) = NR_PAGEFRAMES →
  length junk_pt = NR_PTES_PER_PAGE →
  (∀ i, length (junk_dir i) = NR_PTES_PER_PAGE) →
  pte_at m (current m) vpn = Some e →
  valid e = true → private e = 3 →
  mapcounts m !! pfn e = Some 1%Z →
  refs_proc m (pfn e) (current m) = 1 →
  ∃ m',
    switch_process NR_PTES_PER_PAGE NR_TLB_ENTRIES junk_pt junk_dir p m
    = Some m'
    ∧ current m' ≠ current m
    ∧ processes m' = processes m ++ [current m]
    ∧ pid <$> heap m' !! current m' = Some p
    ∧ mapcounts m' !! pfn e = Some 2%Z
    ∧ pte_at m' (current m) vpn = Some (Pte true false (pfn e) 3)
    ∧ pte_at m' (current m') vpn = Some (Pte true false (pfn e) 3).
Proof.
  intros Htlb Habs Hpar Hwf Hc Hjp Hjd He Hv Hp Hk Hone.
  destruct (fork_pte_spec junk_pt junk_dir p m parent)
    as (m' & Hrun & Hcur & _ & Hq & Hpid & Hcount & Hpte); [done..|].
  exists m'. split; [done|]. split.
  { rewrite Hcur. apply lookup_lt_Some in Hpar. lia. }
  split; [done|]. split; [done|]. split.
  { rewrite (Hcount _ _ Hk), Hone. done. }
  destruct (Hpte vpn e He Hv) as [Hparent Hchild].
  assert (Hprot : cow_protect e = Pte true false (pfn e) 3).
  { unfold cow_protect, set_writable. by rewrite Hp, Hv. }
  by rewrite Hprot in Hparent, Hchild.
Qed.

End Fork.

(** ** The sample machines, and the theorems on them *)

(** Every sample trace is defined: none of its steps leaves C's defined
    behaviour. *)
Lemma sample_traces_defined :
  cached_trace = Some cached
  ∧ two_pages_trace = Some two_pages
  ∧ shared_trace = Some shared
  ∧ sole_owner_trace = Some sole_owner
  ∧ full_trace = Some full
  ∧ full_shared_trace = Some full_shared
  ∧ freed_trace = Some freed
  ∧ revalidated_trace = Some revalidated
  ∧ page_one_freed_trace = Some page_one_freed.
Proof. vm_compute. repeat split. Qed.

(** C1: with every frame taken, none at the cap, [alloc_page] does not
    return [-1]: it returns the last frame, 127, and maps the new page on
    it although page 127 is mapped there already. *)
Theorem alloc_page_full_pool_takes_last_frame :
  forallb (Z.eqb 1) (mapcounts full) = true
  ∧ refcount_inv 128 full = true
  ∧ pte_of 16 full 0 127 = Some (Pte true true 127 3)
  ∧ ∃ m', alloc_page 16 128 zero_dir 128 2 full = Some (127%Z, m')
      ∧ pte_of 16 m' 0 128 = Some (Pte true true 127 3)
      ∧ pte_of 16 m' 0 127 = Some (Pte true true 127 3)
      ∧ mapcounts m' !! 127 = Some 2%Z.
Proof.
  split; [by vm_compute|]. split; [by vm_compute|]. split; [by vm_compute|].
  eexists. split; [vm_compute; reflexivity|]. by vm_compute.
Qed.

(** C2: after page 0 is allocated and freed, every count is right; a
    fault on page 0 then takes the count of frame 0, which no PTE points
    at, from 0 to [2^32 - 1]. *)
Theorem fault_on_freed_page_breaks_refcount :
  refcount_inv 128 freed = true
  ∧ pte_of 16 freed 0 0 = Some (Pte false false 0 0)
  ∧ ∃ m', handle_page_fault 16 128 zero_dir 0 1 freed = Some (true, m')
      ∧ refcount_inv 128 m' = false
      ∧ mapcounts m' !! 0 = Some 4294967295%Z
      ∧ count_refs m' 0 = 0
      ∧ pte_of 16 m' 0 0 = Some (Pte true false 1 1).
Proof.
  split; [by vm_compute|]. split; [by vm_compute|].
  eexists. split; [vm_compute; reflexivity|]. by vm_compute.
Qed.

(** C5: [free_page] does not refuse a page with no valid mapping.  In
    [freed] page 0 has been freed, its PTE is invalid and every count is
    right; freeing page 0 again is carried out, and the count of frame 0,
    which no PTE points at, goes from 0 to [2^32 - 1].  In [boot] the
    directory of page 0 is absent, and [free_page] reads the PTE through
    the null directory pointer, which is undefined. *)
Theorem free_page_does_not_refuse_unmapped_page :
  pte_of 16 freed (current freed) 0 = Some (Pte false false 0 0)
  ∧ refcount_inv 128 freed = true
  ∧ mapcounts freed !! 0 = Some 0%Z
  ∧ (∃ m', free_page 16 256 0 freed = Some m'
       ∧ mapcounts m' !! 0 = Some 4294967295%Z
       ∧ count_refs m' 0 = 0
       ∧ refcount_inv 128 m' = false)
  ∧ cur_pagetable boot ≫= (fun pt => pt !! 0) = Some None
  ∧ free_page 16 256 0 boot = None.
Proof.
  split; [by vm_compute|]. split; [by vm_compute|]. split; [by vm_compute|].
  split; [|split; by vm_compute].
  eexists. split; [vm_compute; reflexivity|]. by vm_compute.
Qed.

(** The other way the invalid-PTE branch loses count: the stale frame
    number of a freed page names a frame with one reference, and the page
    is revalidated on that frame with no increment. *)
Lemma revalidation_breaks_refcount :
  refcount_inv 128 page_one_freed = true
  ∧ handle_page_fault 16 128 zero_dir 1 1 page_one_freed
    = Some (true, revalidated)
  ∧ refcount_inv 128 revalidated = false
  ∧ mapcounts revalidated !! 0 = Some 1%Z
  ∧ count_refs revalidated 0 = 2.
Proof. vm_compute. repeat split. Qed.

(** C3 as stated fails when no frame is free: in [full_shared] every
    frame has two references; after a write fault of the child on page
    127 the count of frame 127 is 2 again and the page is still on it. *)
Lemma cow_write_fault_full_pool_counterexample :
  ¬ (∀ (junk : pte_directory) (vpn rw : nat) (m : machine) (e : pte)
       (other : nat) (e' : pte),
       pte_of 16 m (current m) vpn = Some e →
       valid e = true → writable e = false → private e = 3 →
       other ≠ current m → other ∈ processes m →
       pte_of 16 m other vpn = Some e' →
       valid e' = true → writable e' = false → private e' = 3 →
       pfn e' = pfn e →
       mapcounts m !! pfn e = Some 2%Z →
       rw ≠ 1 →
       length (mapcounts m) = 128 →
       ∃ m' e2,
         handle_page_fault 16 128 junk vpn rw m = Some (true, m')
         ∧ mapcounts m' !! pfn e = Some 1%Z
         ∧ pte_of 16 m' (current m) vpn = Some e2
         ∧ valid e2 = true ∧ writable e2 = true ∧ pfn e2 ≠ pfn e
         ∧ pte_of 16 m' other vpn = Some e').
Proof.
  intros H.
  assert (Hex : ∃ m' e2,
    handle_page_fault 16 128 zero_dir 127 2 full_shared = Some (true, m')
    ∧ mapcounts m' !! 127 = Some 1%Z
    ∧ pte_of 16 m' (current full_shared) 127 = Some e2
    ∧ valid e2 = true ∧ writable e2 = true ∧ pfn e2 ≠ 127
    ∧ pte_of 16 m' 0 127 = Some (Pte true false 127 3)).
  { apply (H zero_dir 127 2 full_shared (Pte true false 127 3)
             0 (Pte true false 127 3)).
    all: try (vm_compute; reflexivity).
    - vm_compute. intros Hne. discriminate Hne.
    - vm_compute. apply list_elem_of_singleton. reflexivity.
    - intros Hne. discriminate Hne. }
  destruct Hex as (m' & e2 & Hrun & Hcount & _).
  vm_compute in Hrun. injection Hrun as <-.
  vm_compute in Hcount. discriminate Hcount.
Qed.

(** C4 as stated fails when a second valid page of the parent is on the
    same frame: in [revalidated] pages 0 and 1 are both on frame 0, whose
    count is 1, and the fork takes that count to 3. *)
Lemma fork_two_pages_one_frame_counterexample :
  ¬ (∀ (junk_pt : pagetable_t) (junk_dir : nat → pte_directory) (p : nat)
       (m : machine) (parent : process) (vpn : nat) (e : pte),
       256 ≤ length (tlb m) →
       Forall (fun a => ∃ t, heap m !! a = Some t ∧ pid t ≠ p) (processes m) →
       heap m !! current m = Some parent →
       wf_pagetable 16 128 (pagetable parent) = true →
       length (mapcounts m) = 128 →
       length junk_pt = 16 →
       (∀ i, length (junk_dir i) = 16) →
       pte_of 16 m (current m) vpn = Some e →
       valid e = true → private e = 3 →
       mapcounts m !! pfn e = Some 1%Z →
       ∃ m',
         switch_process 16 256 junk_pt junk_dir p m = Some m'
         ∧ mapcounts m' !! pfn e = Some 2%Z
         ∧ pte_of 16 m' (current m) vpn = Some (Pte true false (pfn e) 3)
         ∧ pte_of 16 m' (current m') vpn = Some (Pte true false (pfn e) 3)).
Proof.
  intros H.
  assert (Hex : ∃ m',
    switch_process 16 256 zero_pt (fun _ => zero_dir) 1 revalidated = Some m'
    ∧ mapcounts m' !! 0 = Some 2%Z
    ∧ pte_of 16 m' (current revalidated) 0 = Some (Pte true false 0 3)
    ∧ pte_of 16 m' (current m') 0 = Some (Pte true false 0 3)).
  { apply (H zero_pt (fun _ => zero_dir) 1 revalidated
             (Process 0 (default [] (cur_pagetable revalidated)))
             0 (Pte true true 0 3)).
    all: try (vm_compute; reflexivity).
    vm_compute. constructor. }
  destruct Hex as (m' & Hrun & Hcount & _).
  vm_compute in Hrun. injection Hrun as <-.
  vm_compute in Hcount. discriminate Hcount.
Qed.

(** No refusal on a page whose PTE is invalid: in [freed] page 0 has been
    freed; freeing it again takes the count of frame 0 from 0 to
    [2^32 - 1]. *)
Lemma free_page_twice_counterexample :
  ¬ (∀ (vpn : nat) (m : machine) (e : pte),
       pte_of 16 m (current m) vpn = Some e → valid e = false →
       256 ≤ length (tlb m) →
       is_Some (mapcounts m !! pfn e) →
       ∃ m', free_page 16 256 vpn m = Some m'
         ∧ mapcounts m' = mapcounts m
         ∧ tlb m' = tlb m
         ∧ ∀ a v, pte_of 16 m' a v = pte_of 16 m a v).
Proof.
  intros H.
  destruct (H 0 freed (Pte false false 0 0))
    as (m' & Hrun & Hcount & _).
  - vm_compute. reflexivity.
  - reflexivity.
  - vm_compute. lia.
  - vm_compute. eexists. reflexivity.
  - vm_compute in Hrun. injection Hrun as <-.
    vm_compute in Hcount. discriminate Hcount.
Qed.

(** ** The theorems at work on the samples *)

Lemma flush_tlb_then_lookup_misses_witness :
  lookup_tlb 256 5 cached = Some (Some 7)
  ∧ ∃ m', flush_tlb 256 cached = Some m'
      ∧ ∀ vpn, lookup_tlb 256 vpn m' = Some None.
Proof.
  split; [vm_compute; reflexivity|].
  apply (flush_tlb_then_lookup_misses 256 cached).
  vm_compute. reflexivity.
Defined.

Lemma write_fault_sole_owner_promotes_in_place_witness :
  ∃ m', handle_page_fault 16 128 zero_dir 0 2 sole_owner = Some (true, m')
    ∧ pte_of 16 m' (current sole_owner) 0 = Some (Pte true true 0 3)
    ∧ mapcounts m' = mapcounts sole_owner.
Proof.
  destruct (write_fault_sole_owner_promotes_in_place 16 128 zero_dir 0 2
              sole_owner (Pte true false 0 3))
    as (m' & Hrun & Hpte & _ & Hcount & _); [vm_compute; reflexivity..|].
  exists m'. split; [exact Hrun|]. split; [exact Hpte | exact Hcount].
Defined.

Lemma capped_trace_defined : capped_trace = Some capped.
Proof. vm_compute. reflexivity. Qed.

(** Reading off a concrete pool that no frame is free. *)
Lemma no_free_frame_below (c : list Z) (n : nat) :
  forallb (fun k => negb (Z.eqb k 0)) (take n c) = true →
  ∀ g, g < n → c !! g ≠ Some 0%Z.
Proof.
  intros Hall g Hg Hz. rewrite forallb_forall in Hall.
  assert (Hin : In 0%Z (take n c)).
  { apply (proj1 (list_elem_of_In _ _)).
    apply (list_elem_of_lookup_2 _ g). by rewrite lookup_take_lt. }
  specialize (Hall _ Hin). discriminate Hall.
Qed.

Lemma invalid_pte_fault_always_reports_success_witness :
  ∃ m1,
    alloc_page 16 128 zero_dir 0 2 m1 = Some (MINUS_ONE, m1)
    ∧ handle_page_fault 16 128 zero_dir 0 2 capped = Some (true, m1)
    ∧ pte_of 16 m1 (current capped) 0 = Some (Pte true false 0 0)
    ∧ mapcounts m1 !! 0 = Some 14%Z.
Proof.
  destruct (invalid_pte_fault_always_reports_success 16 128 zero_dir 0 2
              capped (Pte false false 0 0) 15%Z)
    as (m1 & r & Hpte & Hcounts & Halloc & Hrun & Hcap).
  - vm_compute. reflexivity.
  - reflexivity.
  - vm_compute. reflexivity.
  - intros Hk. discriminate Hk.
  - vm_compute. reflexivity.
  - destruct Hcap as [Hr _].
    + rewrite Hcounts. apply no_free_frame_below. vm_compute. reflexivity.
    + rewrite Hcounts. vm_compute. reflexivity.
    + subst r. exists m1. split; [exact Halloc|]. split; [exact Hrun|].
      split; [exact Hpte|]. rewrite Hcounts. vm_compute. reflexivity.
Defined.

Lemma cow_write_fault_copies_to_free_frame_witness :
  ∃ m' g, handle_page_fault 16 128 zero_dir 0 2 shared = Some (true, m')
    ∧ mapcounts m' !! 0 = Some 1%Z
    ∧ g ≠ 0
    ∧ mapcounts m' !! g = Some 1%Z
    ∧ pte_of 16 m' (current shared) 0 = Some (Pte true true g 3)
    ∧ pte_of 16 m' 0 0 = pte_of 16 shared 0 0.
Proof.
  destruct (cow_write_fault_copies_to_free_frame 16 128 zero_dir 0 2
              shared (Pte true false 0 3))
    as (m' & g & Hrun & Hf & Hg & _ & _ & Hg1 & _ & Hpte & Hother & _).
  - vm_compute. reflexivity.
  - reflexivity.
  - reflexivity.
  - reflexivity.
  - vm_compute. reflexivity.
  - intros Hrw. discriminate Hrw.
  - vm_compute. reflexivity.
  - exists 1. vm_compute. reflexivity.
  - exists m', g. split; [exact Hrun|]. split; [exact Hf|].
    split; [exact Hg|]. split; [exact Hg1|]. split; [exact Hpte|].
    apply Hother. vm_compute. intros Hne. discriminate Hne.
Defined.

Lemma free_page_on_unmapped_page_witness :
  ∃ m', free_page 16 256 0 freed = Some m'
    ∧ mapcounts m' = <[0 := wrap (0 - 1)]> (mapcounts freed)
    ∧ pte_of 16 m' (current freed) 0 = Some (Pte false false 0 0).
Proof.
  destruct (free_page_on_unmapped_page 16 256 0 freed
              (default [] (cur_pagetable freed))) as [_ Hinvalid].
  - vm_compute. reflexivity.
  - vm_compute. reflexivity.
  - destruct (Hinvalid (Pte false false 0 0 :: replicate 15 (Pte false false 0 0))
                (Pte false false 0 0) 0%Z)
      as (m' & Hrun & Hcount & Hpte & _).
    + vm_compute. reflexivity.
    + reflexivity.
    + reflexivity.
    + vm_compute. reflexivity.
    + exists m'. split; [exact Hrun|]. split; [exact Hcount | exact Hpte].
Defined.

Lemma switch_to_queued_process_witness :
  ∃ m' l1 temp l2,
    switch_process 16 256 zero_pt (fun _ => zero_dir) 0 shared = Some m'
    ∧ processes shared = l1 ++ temp :: l2
    ∧ processes m' = l1 ++ l2 ++ [current shared]
    ∧ current m' = temp
    ∧ ptbr m' = Some temp.
Proof.
  destruct (switch_to_queued_process 16 256 zero_pt (fun _ => zero_dir) 0
              shared)
    as (m' & l1 & temp & l2 & Hrun & Hq & _ & _ & Hq' & _ & Hcur & Hptbr & _).
  - vm_compute. reflexivity.
  - vm_compute. apply NoDup_cons_2; [|apply NoDup_singleton].
    intros Hin. apply list_elem_of_singleton in Hin. discriminate Hin.
  - vm_compute. constructor; [|constructor]. eexists. reflexivity.
  - vm_compute. constructor 1. eexists. split; reflexivity.
  - exists m', l1, temp, l2. split; [exact Hrun|]. split; [exact Hq|].
    split; [exact Hq'|]. split; [exact Hcur | exact Hptbr].
Defined.

Lemma fork_counts_every_duplicated_pte_witness :
  ∃ m', switch_process 16 256 zero_pt (fun _ => zero_dir) 1 two_pages
        = Some m'
    ∧ pte_of 16 m' (current two_pages) 1 = Some (Pte true false 1 1)
    ∧ pte_of 16 m' (current m') 1 = Some (Pte true false 1 1)
    ∧ mapcounts m' !! 1 = Some (wrap (1 + 1)).
Proof.
  destruct (fork_counts_every_duplicated_pte 16 128 256 zero_pt
              (fun _ => zero_dir) 1 two_pages
              (Process 0 (default [] (cur_pagetable two_pages))))
    as (m' & Hrun & _ & _ & Hpte).
  - vm_compute. reflexivity.
  - vm_compute. constructor.
  - vm_compute. reflexivity.
  - vm_compute. reflexivity.
  - vm_compute. reflexivity.
  - reflexivity.
  - intros i. reflexivity.
  - destruct (Hpte 1 (Pte true false 1 1))
      as (Hparent & Hchild & Hcount).
    + vm_compute. reflexivity.
    + reflexivity.
    + intros Hp. discriminate Hp.
    + exists m'. split; [exact Hrun|]. split; [exact Hparent|].
      split; [exact Hchild|]. apply Hcount; vm_compute; reflexivity.
Defined.

Lemma fork_shares_cow_page_read_only_witness :
  ∃ m', switch_process 16 256 zero_pt (fun _ => zero_dir) 1 two_pages
        = Some m'
    ∧ mapcounts m' !! 0 = Some 2%Z
    ∧ pte_of 16 m' (current two_pages) 0 = Some (Pte true false 0 3)
    ∧ pte_of 16 m' (current m') 0 = Some (Pte true false 0 3).
Proof.
  destruct (fork_shares_cow_page_read_only 16 128 256 zero_pt
              (fun _ => zero_dir) 1 two_pages
              (Process 0 (default [] (cur_pagetable two_pages)))
              0 (Pte true true 0 3))
    as (m' & Hrun & _ & _ & _ & Hcount & Hparent & Hchild).
  - vm_compute. reflexivity.
  - vm_compute. constructor.
  - vm_compute. reflexivity.
  - vm_compute. reflexivity.
  - vm_compute. reflexivity.
  - reflexivity.
  - intros i. reflexivity.
  - vm_compute. reflexivity.
  - reflexivity.
  - reflexivity.
  - vm_compute. reflexivity.
  - vm_compute. reflexivity.
  - exists m'. split; [exact Hrun|]. split; [exact Hcount|].
    split; [exact Hparent | exact Hchild].
Defined.

(** * Further properties of the program *)

(** ** The translation cache as a map *)

(** What one slot answers to a lookup of [vpn]. *)
Definition tlb_match (vpn : nat) (e : tlb_entry) : option nat :=
  if tlb_valid e && Nat.eqb (tlb_vpn e) vpn then Some (tlb_pfn e) else None.

Section TlbMap.

Variable NR_TLB_ENTRIES : nat.

(** A lookup reads the slots through [tlb_match] only. *)
Lemma lookup_tlb_from_ext (t t' : list tlb_entry) (vpn n i : nat) :
  (∀ j, i ≤ j < i + n → tlb_match vpn <$> t !! j = tlb_match vpn <$> t' !! j) →
  lookup_tlb_from n i vpn t = lookup_tlb_from n i vpn t'.
Proof.
  revert i. induction n as [|n IH]; intros i H; simpl; [done|].
  pose proof (H i ltac:(lia)) as Hi.
  assert (Hnext : lookup_tlb_from n (S i) vpn t
                  = lookup_tlb_from n (S i) vpn t').
  { apply IH. intros j Hj. apply H. lia. }
  destruct (t !! i) as [e|], (t' !! i) as [e'|]; simpl in *; try done.
  injection Hi as Hi. unfold tlb_match in Hi.
  destruct (tlb_valid e), (tlb_valid e'); simpl in *; try done.
  - destruct (Nat.eqb (tlb_vpn e) vpn), (Nat.eqb (tlb_vpn e') vpn);
      congruence.
  - by destruct (Nat.eqb (tlb_vpn e) vpn).
  - by destruct (Nat.eqb (tlb_vpn e') vpn).
Qed.

(** The first slot that answers decides the lookup. *)
Lemma lookup_tlb_from_first (t : list tlb_entry) (vpn n i j : nat) (e : tlb_entry)
    (p : nat) :
  i ≤ j < i + n → i + n ≤ length t →
  t !! j = Some e → tlb_match vpn e = Some p →
  (∀ k x, i ≤ k < j → t !! k = Some x → tlb_match vpn x = None) →
  lookup_tlb_from n i vpn t = Some (Some p).
Proof.
  revert i. induction n as [|n IH]; intros i Hj Hlen He Hm Hbefore; [lia|].
  simpl. destruct (decide (i = j)) as [->|Hne].
  - rewrite He; simpl. unfold tlb_match in Hm.
    destruct (tlb_valid e); simpl in *; [|done].
    destruct (Nat.eqb (tlb_vpn e) vpn); congruence.
  - destruct (lookup_lt_is_Some_2 t i) as [x Hx]; [lia|].
    rewrite Hx; simpl.
    pose proof (Hbefore i x ltac:(lia) Hx) as Hmiss. unfold tlb_match in Hmiss.
    assert (Hnext : lookup_tlb_from n (S i) vpn t = Some (Some p)).
    { apply IH; [lia | lia | done | done |].
      intros k y Hk. apply Hbefore. lia. }
    destruct (tlb_valid x); simpl in *; [|done].
    by destruct (Nat.eqb (tlb_vpn x) vpn).
Qed.

(** A lookup either misses on every slot or stops on the first slot that
    answers. *)
Lemma lookup_tlb_from_cases (t : list tlb_entry) (vpn n i : nat) :
  i + n ≤ length t →
  (lookup_tlb_from n i vpn t = Some None
   ∧ ∀ k x, i ≤ k < i + n → t !! k = Some x → tlb_match vpn x = None)
  ∨ (∃ j e p, i ≤ j < i + n ∧ t !! j = Some e ∧ tlb_match vpn e = Some p
       ∧ (∀ k x, i ≤ k < j → t !! k = Some x → tlb_match vpn x = None)
       ∧ lookup_tlb_from n i vpn t = Some (Some p)).
Proof.
  revert i. induction n as [|n IH]; intros i Hlen.
  - left. split; [done|]. intros k x Hk. lia.
  - destruct (lookup_lt_is_Some_2 t i) as [x Hx]; [lia|].
    destruct (tlb_match vpn x) as [p|] eqn:Hm.
    + right. exists i, x, p. split; [lia|]. split; [done|]. split; [done|].
      split; [intros k y Hk; lia|].
      apply (lookup_tlb_from_first t vpn (S n) i i x p);
        first [done | lia | intros k y Hk; lia].
    + destruct (IH (S i)) as [[Hrun Hall]|(j & e & p & Hj & He & Hp & Hb & Hrun)];
        [lia| |].
      * left. split.
        -- simpl. rewrite Hx; simpl. unfold tlb_match in Hm.
           destruct (tlb_valid x); simpl in *; [|done].
           by destruct (Nat.eqb (tlb_vpn x) vpn).
        -- intros k y Hk Hy. destruct (decide (k = i)) as [->|]; [congruence|].
           apply (Hall k y); [lia | done].
      * right. exists j, e, p. split; [lia|]. split; [done|]. split; [done|].
        split.
        -- intros k y Hk Hy. destruct (decide (k = i)) as [->|]; [congruence|].
           apply (Hb k y); [lia | done].
        -- apply (lookup_tlb_from_first t vpn (S n) i j e p);
             [lia | lia | done | done |].
           intros k y Hk Hy. destruct (decide (k = i)) as [->|]; [congruence|].
           apply (Hb k y); [lia | done].
Qed.

(** The loop of [insert_tlb] fills the first invalid slot, or none. *)
Lemma insert_tlb_from_cases (t : list tlb_entry) (vpn pfn n i : nat) :
  i + n ≤ length t →
  (insert_tlb_from n i vpn pfn t = Some t
   ∧ ∀ k x, i ≤ k < i + n → t !! k = Some x → tlb_valid x = true)
  ∨ (∃ j e, i ≤ j < i + n ∧ t !! j = Some e ∧ tlb_valid e = false
       ∧ (∀ k x, i ≤ k < j → t !! k = Some x → tlb_valid x = true)
       ∧ insert_tlb_from n i vpn pfn t
         = Some (<[j := TlbEntry true vpn pfn]> t)).
Proof.
  revert i. induction n as [|n IH]; intros i Hlen.
  - left. split; [done|]. intros k x Hk. lia.
  - destruct (lookup_lt_is_Some_2 t i) as [x Hx]; [lia|].
    simpl. rewrite Hx; simpl. destruct (tlb_valid x) eqn:Hv; simpl.
    + destruct (IH (S i)) as [[Hrun Hall]|(j & e & Hj & He & Hinv & Hb & Hrun)];
        [lia| |].
      * left. split; [done|]. intros k y Hk Hy.
        destruct (decide (k = i)) as [->|]; [congruence|].
        apply (Hall k y); [lia | done].
      * right. exists j, e. split; [lia|]. split; [done|]. split; [done|].
        split; [|done]. intros k y Hk Hy.
        destruct (decide (k = i)) as [->|]; [congruence|].
        apply (Hb k y); [lia | done].
    + right. exists i, x. split; [lia|]. split; [done|]. split; [done|].
      split; [intros k y Hk; lia | done].
Qed.

(** X1: a translation inserted while the page has no cached translation
    and a slot is free is the one the next lookup returns. *)
Theorem insert_tlb_then_lookup_hits (vpn pfn : nat) (m : machine) (j : nat)
    (e : tlb_entry) :
  NR_TLB_ENTRIES ≤ length (tlb m) →
  lookup_tlb NR_TLB_ENTRIES vpn m = Some None →
  j < NR_TLB_ENTRIES → tlb m !! j = Some e → tlb_valid e = false →
  ∃ m', insert_tlb NR_TLB_ENTRIES vpn pfn m = Some m'
    ∧ lookup_tlb NR_TLB_ENTRIES vpn m' = Some (Some pfn).
Proof.
  intros Hlen Hmiss Hj He Hinv.
  destruct (insert_tlb_from_cases (tlb m) vpn pfn NR_TLB_ENTRIES 0 Hlen)
    as [[_ Hall]|(i & x & Hi & Hx & Hxv & Hb & Hrun)].
  { specialize (Hall j e ltac:(lia) He). congruence. }
  exists (with_tlb (<[i := TlbEntry true vpn pfn]> (tlb m)) m).
  unfold insert_tlb. rewrite Hrun. split; [done|].
  unfold lookup_tlb in *; simpl.
  destruct (lookup_tlb_from_cases (tlb m) vpn NR_TLB_ENTRIES 0 Hlen)
    as [[_ Hnone]|(? & ? & ? & _ & _ & _ & _ & Hhit)]; [|congruence].
  apply (lookup_tlb_from_first _ vpn NR_TLB_ENTRIES 0 i
           (TlbEntry true vpn pfn) pfn).
  - lia.
  - by rewrite length_insert.
  - apply list_lookup_insert_eq. lia.
  - unfold tlb_match; simpl. by rewrite Nat.eqb_refl.
  - intros k y Hk Hy. rewrite list_lookup_insert_ne in Hy by lia.
    apply (Hnone k y); [lia | done].
Qed.

(** X2: with every slot valid, [insert_tlb] drops the translation: the
    cache is left as it was. *)
Theorem insert_tlb_full_cache_drops (vpn pfn : nat) (m : machine) :
  NR_TLB_ENTRIES ≤ length (tlb m) →
  (∀ k x, k < NR_TLB_ENTRIES → tlb m !! k = Some x → tlb_valid x = true) →
  insert_tlb NR_TLB_ENTRIES vpn pfn m = Some m.
Proof.
  intros Hlen Hfull.
  destruct (insert_tlb_from_cases (tlb m) vpn pfn NR_TLB_ENTRIES 0 Hlen)
    as [[Hrun _]|(i & x & Hi & Hx & Hxv & _)].
  - unfold insert_tlb. rewrite Hrun. simpl. by destruct m.
  - specialize (Hfull i x ltac:(lia) Hx). congruence.
Qed.

(** X3: [insert_tlb] for one page leaves the lookups of every other page
    as they were. *)
Theorem insert_tlb_keeps_other_pages (vpn pfn v : nat) (m m' : machine) :
  NR_TLB_ENTRIES ≤ length (tlb m) →
  insert_tlb NR_TLB_ENTRIES vpn pfn m = Some m' →
  v ≠ vpn →
  lookup_tlb NR_TLB_ENTRIES v m' = lookup_tlb NR_TLB_ENTRIES v m.
Proof.
  intros Hlen Hrun Hv. unfold insert_tlb in Hrun.
  destruct (insert_tlb_from_cases (tlb m) vpn pfn NR_TLB_ENTRIES 0 Hlen)
    as [[Heq _]|(i & x & Hi & Hx & Hxv & _ & Heq)];
    rewrite Heq in Hrun; simpl in Hrun; injection Hrun as <-.
  - done.
  - unfold lookup_tlb; simpl. apply lookup_tlb_from_ext. intros k Hk.
    destruct (decide (k = i)) as [->|Hne].
    + rewrite list_lookup_insert_eq by lia. rewrite Hx; simpl. f_equal.
      unfold tlb_match; simpl. rewrite Hxv; simpl.
      by destruct (Nat.eqb_spec vpn v); [congruence|].
    + by rewrite list_lookup_insert_ne.
Qed.

(** X4: [free_tlb] makes the lookups of its page miss and leaves the
    lookups of every other page as they were. *)
Theorem free_tlb_invalidates_one_page (vpn : nat) (m : machine) :
  NR_TLB_ENTRIES ≤ length (tlb m) →
  ∃ m', free_tlb NR_TLB_ENTRIES vpn m = Some m'
    ∧ lookup_tlb NR_TLB_ENTRIES vpn m' = Some None
    ∧ ∀ v, v ≠ vpn →
        lookup_tlb NR_TLB_ENTRIES v m' = lookup_tlb NR_TLB_ENTRIES v m.
Proof.
  intros Hlen.
  destruct (free_tlb_then_lookup_misses NR_TLB_ENTRIES vpn m Hlen)
    as (t' & Hrun & Hmiss & Hent).
  exists (with_tlb t' m). split; [done|]. split; [done|].
  intros v Hv. unfold lookup_tlb; simpl. apply lookup_tlb_from_ext.
  intros k Hk. rewrite Hent. case_decide; [|done].
  destruct (tlb m !! k) as [x|]; simpl; [|done]. f_equal.
  unfold free_tlb_entry, tlb_match.
  destruct (tlb_valid x) eqn:Hx; simpl; [|by rewrite Hx].
  destruct (Nat.eqb_spec (tlb_vpn x) vpn) as [Heq|Hne]; simpl.
  - destruct (Nat.eqb_spec (tlb_vpn x) v); [congruence | done].
  - by rewrite Hx.
Qed.

(** X5: [lookup_tlb] returns the frame of the first valid slot that holds
    the page, and a later slot for the same page is never seen. *)
Theorem lookup_tlb_first_match_wins (vpn p : nat) (m : machine) :
  NR_TLB_ENTRIES ≤ length (tlb m) →
  lookup_tlb NR_TLB_ENTRIES vpn m = Some (Some p)
  ↔ ∃ j e, j < NR_TLB_ENTRIES ∧ tlb m !! j = Some e
      ∧ tlb_valid e = true ∧ tlb_vpn e = vpn ∧ tlb_pfn e = p
      ∧ ∀ k x, k < j → tlb m !! k = Some x →
          tlb_valid x = false ∨ tlb_vpn x ≠ vpn.
Proof.
  intros Hlen. unfold lookup_tlb.
  assert (Hmatch : ∀ x q, tlb_match vpn x = Some q
            ↔ tlb_valid x = true ∧ tlb_vpn x = vpn ∧ tlb_pfn x = q).
  { intros x q. unfold tlb_match. destruct (tlb_valid x); simpl.
    - destruct (Nat.eqb_spec (tlb_vpn x) vpn); split.
      + intros [= <-]. done.
      + by intros (_ & _ & ->).
      + done.
      + by intros (_ & ? & _).
    - split; [done | by intros (? & _)]. }
  assert (Hnone : ∀ x, tlb_match vpn x = None
            ↔ tlb_valid x = false ∨ tlb_vpn x ≠ vpn).
  { intros x. unfold tlb_match. destruct (tlb_valid x); simpl.
    - destruct (Nat.eqb_spec (tlb_vpn x) vpn); split; try done.
      + by intros [?|?].
      + by right.
    - split; [by left | done]. }
  split.
  - intros Hrun.
    destruct (lookup_tlb_from_cases (tlb m) vpn NR_TLB_ENTRIES 0 Hlen)
      as [[Hmiss _]|(j & e & q & Hj & He & Hq & Hb & Hhit)]; [congruence|].
    rewrite Hhit in Hrun. injection Hrun as ->.
    apply Hmatch in Hq as (Hv & Hvp & Hp).
    exists j, e. split; [lia|]. repeat (split; [done|]).
    intros k x Hk Hx. apply Hnone. apply (Hb k x); [lia | done].
  - intros (j & e & Hj & He & Hv & Hvp & Hp & Hb).
    apply (lookup_tlb_from_first _ vpn NR_TLB_ENTRIES 0 j e p);
      [lia | lia | done | by apply Hmatch |].
    intros k x Hk Hx. apply Hnone. apply (Hb k x); [lia | done].
Qed.

End TlbMap.

(** ** Allocation, deallocation and faults, continued *)

(** What [alloc_page] and [handle_page_fault] may change: the page table
    of the running process and the frame counts, and nothing else. *)
Definition same_outside_current (m m' : machine) : Prop :=
  tlb m' = tlb m ∧ processes m' = processes m ∧ current m' = current m
  ∧ ptbr m' = ptbr m ∧ pid <$> heap m' = pid <$> heap m
  ∧ ∀ a, a ≠ current m → heap m' !! a = heap m !! a.

Lemma same_outside_current_refl (m : machine) : same_outside_current m m.
Proof. by repeat split. Qed.

Lemma same_outside_current_trans (m1 m2 m3 : machine) :
  same_outside_current m1 m2 → same_outside_current m2 m3 →
  same_outside_current m1 m3.
Proof.
  intros (Ht & Hq & Hc & Hb & Hp & Hh) (Ht' & Hq' & Hc' & Hb' & Hp' & Hh').
  repeat split; try congruence.
  intros a Ha. rewrite Hh' by congruence. by apply Hh.
Qed.

Lemma same_outside_current_set (m : machine) (pt : pagetable_t) :
  same_outside_current m (set_cur_pagetable pt m).
Proof.
  repeat split; [apply pids_set_cur_pagetable|].
  intros a Ha. by apply heap_set_cur_pagetable_ne.
Qed.

Lemma same_outside_current_counts (m : machine) (c : list Z) :
  same_outside_current m (with_mapcounts c m).
Proof. by repeat split. Qed.

Lemma same_outside_current_write (m m' : machine) (o i : nat) (e : pte) :
  write_pte m o i e = Some m' → same_outside_current m m'.
Proof.
  unfold write_pte. intros H.
  destruct (cur_pagetable m) as [pt|]; simpl in H; [|done].
  destruct (pt_write pt o i e) as [pt'|]; simpl in H; [|done].
  injection H as <-. apply same_outside_current_set.
Qed.

(** The frame the selection loop ends on is the lowest free one, or the
    last frame of the pool when none is free. *)
Lemma find_frame_result (c : list Z) (n i f : nat) (p : option nat) :
  i + n ≤ length c → 0 < n →
  find_frame n i p c = Some f →
  (c !! f = Some 0%Z ∧ i ≤ f < i + n ∧ ∀ g, i ≤ g < f → c !! g ≠ Some 0%Z)
  ∨ (f = i + n - 1 ∧ ∀ g, i ≤ g < i + n → c !! g ≠ Some 0%Z).
Proof.
  revert i p. induction n as [|n IH]; intros i p Hlen Hn Hrun; [lia|].
  destruct (lookup_lt_is_Some_2 c i) as [k Hk]; [lia|].
  change (find_frame (S n) i p c)
    with (c !! i ≫= fun k => if Z.eqb k 0 then Some i
                             else find_frame n (S i) (Some i) c) in Hrun.
  rewrite Hk in Hrun. cbn [mbind option_bind] in Hrun. revert Hrun.
  destruct (Z.eqb_spec k 0) as [Hk0|Hk0]; intros Hrun.
  - subst k. injection Hrun as <-. left. split; [done|]. split; [lia|].
    intros g Hg. lia.
  - destruct n as [|n'].
    + simpl in Hrun. injection Hrun as <-. right. split; [lia|].
      intros g Hg. replace g with i by lia. congruence.
    + destruct (IH (S i) (Some i)) as [(Hz & Hr & Hlow)|[-> Hfull]];
        [lia | lia | done | |].
      * left. split; [done|]. split; [lia|]. intros g Hg.
        destruct (decide (g = i)) as [->|]; [congruence|]. apply Hlow. lia.
      * right. split; [lia|]. intros g Hg.
        destruct (decide (g = i)) as [->|]; [congruence|]. apply Hfull. lia.
Qed.

Section PagingBehaviour.

Variable NR_PTES_PER_PAGE : nat.
Variable NR_PAGEFRAMES : nat.
Variable NR_TLB_ENTRIES : nat.

Local Abbreviation out_index vpn := (vpn / NR_PTES_PER_PAGE).
Local Abbreviation in_index vpn := (vpn mod NR_PTES_PER_PAGE).
Local Abbreviation pte_at := (pte_of NR_PTES_PER_PAGE).

Lemma same_outside_current_pte (m m' : machine) (a v : nat) :
  same_outside_current m m' → a ≠ current m → pte_at m' a v = pte_at m a v.
Proof.
  intros (_ & _ & _ & _ & _ & Hh) Ha. unfold pte_of. by rewrite Hh.
Qed.

Lemma same_outside_current_alloc (junk : pte_directory) (vpn rw : nat)
    (m m' : machine) (r : Z) :
  alloc_page NR_PTES_PER_PAGE NR_PAGEFRAMES junk vpn rw m = Some (r, m') →
  same_outside_current m m'.
Proof.
  unfold alloc_page. intros H.
  destruct (cur_pagetable m) as [pt|]; simpl in H; [|done].
  destruct (pt !! out_index vpn) as [od|]; simpl in H; [|done].
  destruct (find_frame _ _ _ _) as [f|]; simpl in H; [|done].
  destruct (mapcounts m !! f) as [k|]; simpl in H; [|done].
  destruct (Z.eqb k 16).
  - injection H as _ <-. apply same_outside_current_set.
  - destruct (pt_write _ _ _ _) as [pt2|]; simpl in H; [|done].
    destruct (incr f (mapcounts m)) as [c|]; simpl in H; [|done].
    injection H as _ <-.
    eapply same_outside_current_trans; [apply same_outside_current_set|].
    apply same_outside_current_counts.
Qed.

Lemma pte_at_current (m : machine) (pt : pagetable_t) (v : nat) :
  cur_pagetable m = Some pt →
  pte_at m (current m) v = pt_read pt (out_index v) (in_index v).
Proof.
  unfold pte_of, cur_pagetable. intros Hpt.
  destruct (heap m !! current m); simpl in *; congruence.
Qed.

(** X6: while some frame is free, [alloc_page] returns the lowest free
    frame, takes its count from 0 to 1 and maps the page on it: read-only
    with tag 1 when [rw] is 1, writable with tag 3 otherwise.  The
    directory is created when absent; the pages of other directories, the
    other pages of a directory that was there, every other process and
    the translation cache are as before. *)
Theorem alloc_page_maps_lowest_free_frame (junk : pte_directory)
    (vpn rw : nat) (m : machine) (pt : pagetable_t)
    (od : option pte_directory) (e0 : pte) :
  cur_pagetable m = Some pt →
  pt !! out_index vpn = Some od →
  default junk od !! in_index vpn = Some e0 →
  length (mapcounts m) = NR_PAGEFRAMES →
  (∃ g, mapcounts m !! g = Some 0%Z) →
  ∃ g m',
    alloc_page NR_PTES_PER_PAGE NR_PAGEFRAMES junk vpn rw m
    = Some (Z.of_nat g, m')
    ∧ mapcounts m !! g = Some 0%Z
    ∧ (∀ h, h < g → mapcounts m !! h ≠ Some 0%Z)
    ∧ mapcounts m' = <[g := 1%Z]> (mapcounts m)
    ∧ pte_at m' (current m) vpn
      = Some (if Nat.eqb rw 1 then Pte true false g 1 else Pte true true g 3)
    ∧ (∀ v, v ≠ vpn → is_Some od ∨ out_index v ≠ out_index vpn →
         pte_at m' (current m) v = pte_at m (current m) v)
    ∧ same_outside_current m m'.
Proof.
  intros Hpt Ho Hi Hlen (g0 & Hg0).
  destruct (find_frame_lowest_free (mapcounts m) NR_PAGEFRAMES 0 None)
    as (g & Hg & _ & Hgz & Hlow); [lia| |].
  { exists g0. split; [apply lookup_lt_Some in Hg0; lia | done]. }
  pose proof (alloc_page_unfold NR_PTES_PER_PAGE NR_PAGEFRAMES junk vpn rw m
                pt od e0 g 0%Z Hpt Ho Hi Hg Hgz) as Hrun.
  simpl in Hrun. eexists g, _. split; [exact Hrun|].
  split; [done|]. split; [intros h Hh; apply Hlow; lia|]. split; [done|].
  pose proof (fun v => pte_at_current m pt v Hpt) as Hcur.
  assert (Hlt : out_index vpn < length pt) by (by eapply lookup_lt_Some).
  split; [|split].
  - change (pte_at (set_cur_pagetable
              (<[out_index vpn := Some (<[in_index vpn :=
                   if Nat.eqb rw 1 then Pte true false g 1
                   else Pte true true g 3]> (default junk od))]> pt) m)
              (current m) vpn = Some (if Nat.eqb rw 1 then Pte true false g 1
                                      else Pte true true g 3)).
    rewrite (pte_at_set_cur_eq _ m pt) by done. unfold pt_read.
    rewrite list_lookup_insert_eq by done. simpl.
    apply list_lookup_insert_eq. by eapply lookup_lt_Some.
  - intros v Hv Hwhere.
    change (pte_at (set_cur_pagetable
              (<[out_index vpn := Some (<[in_index vpn :=
                   if Nat.eqb rw 1 then Pte true false g 1
                   else Pte true true g 3]> (default junk od))]> pt) m)
              (current m) v = pte_at m (current m) v).
    rewrite (pte_at_set_cur_eq _ m pt), Hcur by done.
    destruct (decide (out_index v = out_index vpn)) as [Heq|Hne].
    + destruct Hwhere as [[d ->]|]; [|done]. simpl.
      apply pt_read_write_ne; [done|].
      by apply vpn_indices_inj.
    + unfold pt_read. by rewrite list_lookup_insert_ne.
  - eapply same_outside_current_alloc. exact Hrun.
Qed.

(** X7: [alloc_page] returns [-1] exactly when no frame is free and the
    count of the last frame is 16; it then leaves every count and every
    PTE as they were. *)
Theorem alloc_page_fails_only_at_cap (junk : pte_directory) (vpn rw : nat)
    (m : machine) (pt : pagetable_t) (od : option pte_directory) (e0 : pte) :
  cur_pagetable m = Some pt →
  pt !! out_index vpn = Some od →
  default junk od !! in_index vpn = Some e0 →
  length (mapcounts m) = NR_PAGEFRAMES →
  0 < NR_PAGEFRAMES →
  (Z.of_nat NR_PAGEFRAMES < 2 ^ 32)%Z →
  ∃ r m',
    alloc_page NR_PTES_PER_PAGE NR_PAGEFRAMES junk vpn rw m = Some (r, m')
    ∧ (r = MINUS_ONE
       ↔ (∀ g, g < NR_PAGEFRAMES → mapcounts m !! g ≠ Some 0%Z)
         ∧ mapcounts m !! (NR_PAGEFRAMES - 1) = Some 16%Z)
    ∧ (r = MINUS_ONE →
       mapcounts m' = mapcounts m
       ∧ ∀ a v e, pte_at m a v = Some e → pte_at m' a v = Some e).
Proof.
  intros Hpt Ho Hi Hlen Hpos Hint.
  destruct (find_frame_defined (mapcounts m) NR_PAGEFRAMES 0 None)
    as (f & Hf & Hrange); [lia | done |].
  destruct (lookup_lt_is_Some_2 (mapcounts m) f) as [k Hk]; [lia|].
  pose proof (alloc_page_unfold NR_PTES_PER_PAGE NR_PAGEFRAMES junk vpn rw m
                pt od e0 f k Hpt Ho Hi Hf Hk) as Hrun.
  destruct (find_frame_result (mapcounts m) NR_PAGEFRAMES 0 f None)
    as [(Hz & _ & _)|[Hlast Hfull]]; [lia | done | done | |].
  - assert (k = 0%Z) as -> by congruence. simpl in Hrun.
    eexists _, _. split; [exact Hrun|].
    assert (Hne : Z.of_nat f ≠ MINUS_ONE).
    { unfold MINUS_ONE, wrap. change ((-1) mod 2 ^ 32)%Z with (2 ^ 32 - 1)%Z.
      lia. }
    split; [|done]. split; [done|].
    intros [Hfull _]. exfalso. apply (Hfull f); [lia | done].
  - simpl in Hlast. replace (NR_PAGEFRAMES - 0) with NR_PAGEFRAMES in Hlast
      by lia. subst f.
    destruct (decide (k = 16%Z)) as [Hk16|Hk16].
    + subst k. simpl in Hrun.
      eexists _, _. split; [exact Hrun|]. split.
      * split; [|done]. intros _. split; [|done].
        intros g Hg. apply Hfull. lia.
      * intros _. split; [done|]. intros a v e He.
        destruct (decide (a = current m)) as [->|Ha].
        -- rewrite (pte_at_set_cur_eq _ m pt) by done.
           rewrite (pte_at_current m pt v Hpt) in He. unfold pt_read in *.
           destruct od as [d|]; simpl in *.
           ++ by rewrite (list_insert_id pt _ _ Ho).
           ++ destruct (decide (out_index v = out_index vpn)) as [Heq|Hne].
              ** rewrite Heq, Ho in He. done.
              ** by rewrite list_lookup_insert_ne.
        -- by rewrite pte_at_set_cur_ne.
    + rewrite (proj2 (Z.eqb_neq k 16) Hk16) in Hrun.
      eexists _, _. split; [exact Hrun|].
      assert (Hne : Z.of_nat (NR_PAGEFRAMES - 1) ≠ MINUS_ONE).
      { unfold MINUS_ONE, wrap. change ((-1) mod 2 ^ 32)%Z with (2 ^ 32 - 1)%Z.
        lia. }
      split; [|done]. split; [done|]. intros [_ Hcap]. congruence.
Qed.

(** [free_page] on a page whose directory exists. *)
Lemma free_page_unfold (vpn : nat) (m : machine) (pt : pagetable_t)
    (d : pte_directory) (e : pte) (k : Z) :
  cur_pagetable m = Some pt →
  pt !! out_index vpn = Some (Some d) → d !! in_index vpn = Some e →
  mapcounts m !! pfn e = Some k →
  NR_TLB_ENTRIES ≤ length (tlb m) →
  ∃ t',
    free_page NR_PTES_PER_PAGE NR_TLB_ENTRIES vpn m
    = Some (with_tlb t'
              (set_cur_pagetable
                 (<[out_index vpn :=
                      Some (<[in_index vpn := Pte false false 0 0]> d)]> pt)
                 (with_mapcounts (<[pfn e := wrap (k - 1)]> (mapcounts m)) m)))
    ∧ lookup_tlb_from NR_TLB_ENTRIES 0 vpn t' = Some None
    ∧ ∀ v, v ≠ vpn → lookup_tlb_from NR_TLB_ENTRIES 0 v t'
                     = lookup_tlb_from NR_TLB_ENTRIES 0 v (tlb m).
Proof.
  intros Hpt Ho Hi Hk Htlb.
  set (c1 := <[pfn e := wrap (k - 1)]> (mapcounts m)).
  set (pt1 := <[out_index vpn :=
                  Some (<[in_index vpn := Pte false false 0 0]> d)]> pt).
  set (m1 := set_cur_pagetable pt1 (with_mapcounts c1 m)).
  destruct (free_tlb_then_lookup_misses NR_TLB_ENTRIES vpn m1)
    as (t' & Hfree & Hmiss & Hent); [done|].
  exists t'. split; [|split; [exact Hmiss|]].
  - unfold free_page, read_pte, pt_read.
    rewrite Hpt; simpl. rewrite Ho; simpl. rewrite Hi; simpl.
    unfold decr. rewrite Hk; simpl. fold c1.
    rewrite (write_pte_defined (with_mapcounts c1 m) pt _ _ d e _);
      [|done..]. simpl. fold pt1 m1. exact Hfree.
  - intros v Hv. apply lookup_tlb_from_ext. intros j Hj.
    rewrite Hent. case_decide; [|done]. simpl.
    destruct (tlb m !! j) as [x|]; simpl; [|done]. f_equal.
    unfold free_tlb_entry, tlb_match.
    destruct (tlb_valid x) eqn:Hx; simpl; [|by rewrite Hx].
    destruct (Nat.eqb_spec (tlb_vpn x) vpn) as [Heq|Hne]; simpl.
    + destruct (Nat.eqb_spec (tlb_vpn x) v); [congruence | done].
    + by rewrite Hx.
Qed.

(** X8: [free_page] on a mapped page takes one reference off the page's
    frame, clears the PTE and drops the page from the translation cache.
    Nothing else moves: the other pages, the other processes (a sharer
    keeps its mapping), the other counts and the cached translations of
    other pages.  The frame is free again exactly when the reference was
    the last one. *)
Theorem free_page_unmaps_one_page (vpn : nat) (m : machine) (e : pte)
    (k : Z) :
  pte_of NR_PTES_PER_PAGE m (current m) vpn = Some e →
  valid e = true →
  mapcounts m !! pfn e = Some k → (1 ≤ k < 2 ^ 32)%Z →
  NR_TLB_ENTRIES ≤ length (tlb m) →
  ∃ m',
    free_page NR_PTES_PER_PAGE NR_TLB_ENTRIES vpn m = Some m'
    ∧ mapcounts m' = <[pfn e := (k - 1)%Z]> (mapcounts m)
    ∧ (mapcounts m' !! pfn e = Some 0%Z ↔ k = 1%Z)
    ∧ pte_at m' (current m) vpn = Some (Pte false false 0 0)
    ∧ (∀ a v, (a, v) ≠ (current m, vpn) → pte_at m' a v = pte_at m a v)
    ∧ lookup_tlb NR_TLB_ENTRIES vpn m' = Some None
    ∧ (∀ v, v ≠ vpn →
         lookup_tlb NR_TLB_ENTRIES v m' = lookup_tlb NR_TLB_ENTRIES v m)
    ∧ current m' = current m ∧ processes m' = processes m
    ∧ ptbr m' = ptbr m.
Proof.
  intros He Hv Hk Hrange Htlb.
  destruct (pte_at_current_inv _ m vpn e He) as (pt & d & Hpt & Ho & Hi).
  destruct (free_page_unfold vpn m pt d e k Hpt Ho Hi Hk Htlb)
    as (t' & Hrun & Hmiss & Hother).
  assert (Hwrap : wrap (k - 1) = (k - 1)%Z).
  { unfold wrap. apply Z.mod_small. lia. }
  rewrite Hwrap in Hrun.
  eexists. split; [exact Hrun|]. simpl. split; [done|]. split.
  { rewrite list_lookup_insert_eq by (by eapply lookup_lt_Some).
    split; [intros [= ?]; lia | intros ->; done]. }
  split.
  { change (pte_at (set_cur_pagetable
              (<[out_index vpn :=
                   Some (<[in_index vpn := Pte false false 0 0]> d)]> pt) m)
              (current m) vpn = Some (Pte false false 0 0)).
    rewrite (pte_at_set_cur_eq _ m pt) by done.
    by apply (pt_read_write_eq pt _ _ d e). }
  split.
  { intros a v Hne.
    change (pte_at (set_cur_pagetable
              (<[out_index vpn :=
                   Some (<[in_index vpn := Pte false false 0 0]> d)]> pt) m)
              a v = pte_at m a v).
    by apply pte_at_update_other. }
  split; [exact Hmiss|]. split; [exact Hother|]. done.
Qed.

(** X9: [alloc_page] followed by [free_page] of the same page gives the
    frame back: the counts are what they were, the PTE is cleared, and the
    next [alloc_page] returns the same frame. *)
Theorem alloc_then_free_gives_frame_back (junk : pte_directory)
    (vpn rw rw' : nat) (m : machine) (pt : pagetable_t)
    (od : option pte_directory) (e0 : pte) :
  cur_pagetable m = Some pt →
  pt !! out_index vpn = Some od →
  default junk od !! in_index vpn = Some e0 →
  length (mapcounts m) = NR_PAGEFRAMES →
  (∃ g, mapcounts m !! g = Some 0%Z) →
  NR_TLB_ENTRIES ≤ length (tlb m) →
  ∃ g m1 m2 m3,
    alloc_page NR_PTES_PER_PAGE NR_PAGEFRAMES junk vpn rw m
    = Some (Z.of_nat g, m1)
    ∧ free_page NR_PTES_PER_PAGE NR_TLB_ENTRIES vpn m1 = Some m2
    ∧ mapcounts m2 = mapcounts m
    ∧ pte_at m2 (current m) vpn = Some (Pte false false 0 0)
    ∧ alloc_page NR_PTES_PER_PAGE NR_PAGEFRAMES junk vpn rw' m2
      = Some (Z.of_nat g, m3).
Proof.
  intros Hpt Ho Hi Hlen (g0 & Hg0) Htlb.
  destruct (find_frame_lowest_free (mapcounts m) NR_PAGEFRAMES 0 None)
    as (g & Hg & _ & Hgz & _); [lia| |].
  { exists g0. split; [apply lookup_lt_Some in Hg0; lia | done]. }
  pose proof (alloc_page_unfold NR_PTES_PER_PAGE NR_PAGEFRAMES junk vpn rw m
                pt od e0 g 0%Z Hpt Ho Hi Hg Hgz) as Hrun.
  simpl in Hrun.
  set (e1 := if Nat.eqb rw 1 then Pte true false g 1 else Pte true true g 3)
    in Hrun.
  set (d1 := <[in_index vpn := e1]> (default junk od)) in Hrun.
  set (pt1 := <[out_index vpn := Some d1]> pt) in Hrun.
  set (m1 := with_mapcounts (<[g := 1%Z]> (mapcounts m))
               (set_cur_pagetable pt1 m)) in Hrun.
  assert (Hlt : out_index vpn < length pt) by (by eapply lookup_lt_Some).
  assert (Hpt1 : cur_pagetable m1 = Some pt1).
  { unfold m1. rewrite cur_pagetable_with_mapcounts.
    by apply (cur_pagetable_set m pt). }
  assert (Ho1 : pt1 !! out_index vpn = Some (Some d1)).
  { by apply list_lookup_insert_eq. }
  assert (Hi1 : d1 !! in_index vpn = Some e1).
  { apply list_lookup_insert_eq. by eapply lookup_lt_Some. }
  assert (Hpfn : pfn e1 = g) by (unfold e1; by destruct (Nat.eqb rw 1)).
  assert (Hk1 : mapcounts m1 !! pfn e1 = Some 1%Z).
  { rewrite Hpfn. simpl. apply list_lookup_insert_eq.
    by eapply lookup_lt_Some. }
  destruct (free_page_unfold vpn m1 pt1 d1 e1 1%Z Hpt1 Ho1 Hi1 Hk1 Htlb)
    as (t' & Hfree & _).
  set (d2 := <[in_index vpn := Pte false false 0 0]> d1) in Hfree.
  set (pt2 := <[out_index vpn := Some d2]> pt1) in Hfree.
  assert (Hcounts : <[pfn e1 := wrap (1 - 1)]> (mapcounts m1) = mapcounts m).
  { rewrite Hpfn. simpl. rewrite list_insert_insert_eq.
    by apply list_insert_id. }
  rewrite Hcounts in Hfree.
  set (m2 := with_tlb t' (set_cur_pagetable pt2 (with_mapcounts (mapcounts m) m1)))
    in Hfree.
  assert (Hpt2 : cur_pagetable m2 = Some pt2).
  { unfold m2. by apply (cur_pagetable_set _ pt1). }
  assert (Ho2 : pt2 !! out_index vpn = Some (Some d2)).
  { apply list_lookup_insert_eq. unfold pt1. by rewrite length_insert. }
  assert (Hi2 : d2 !! in_index vpn = Some (Pte false false 0 0)).
  { apply list_lookup_insert_eq. by eapply lookup_lt_Some. }
  pose proof (alloc_page_unfold NR_PTES_PER_PAGE NR_PAGEFRAMES junk vpn rw' m2
                pt2 (Some d2) _ g 0%Z Hpt2 Ho2 Hi2 Hg Hgz) as Hagain.
  simpl in Hagain.
  eexists g, m1, m2, _. split; [exact Hrun|]. split; [exact Hfree|].
  split; [done|]. split; [|exact Hagain].
  change (pte_at (set_cur_pagetable pt2 m1) (current m1) vpn
          = Some (Pte false false 0 0)).
  rewrite (pte_at_set_cur_eq _ m1 pt1) by done.
  unfold pt_read. rewrite Ho2. simpl. exact Hi2.
Qed.

(** The two resolving branches of [handle_page_fault] share their shape:
    with [e'] the PTE written back, both answer [true] and stay inside the
    running process's page table and the frame counts. *)
Lemma fault_branch_resolves (junk : pte_directory) (vpn rw : nat)
    (m m' : machine) (f : nat) (e' : pte) (b : bool) :
  (k ← mapcounts m !! f;
   if Z.eqb k 1 then
     m1 ← write_pte m (out_index vpn) (in_index vpn) e'; Some (true, m1)
   else
     m1 ← write_pte m (out_index vpn) (in_index vpn) e';
     c ← decr f (mapcounts m1);
     r ← alloc_page NR_PTES_PER_PAGE NR_PAGEFRAMES junk vpn rw
           (with_mapcounts c m1);
     Some (true, r.2)) = Some (b, m') →
  b = true ∧ same_outside_current m m'.
Proof.
  intros H.
  destruct (mapcounts m !! f) as [k|]; simpl in H; [|done].
  destruct (write_pte m _ _ e') as [m1|] eqn:Hw; simpl in H.
  - pose proof (same_outside_current_write _ _ _ _ _ Hw) as Hs1.
    destruct (Z.eqb k 1).
    + injection H as <- <-. done.
    + destruct (decr f (mapcounts m1)) as [c|]; simpl in H; [|done].
      destruct (alloc_page _ _ junk vpn rw _) as [[r m2]|] eqn:Ha;
        simpl in H; [|done].
      injection H as <- <-. split; [done|].
      eapply same_outside_current_trans; [exact Hs1|].
      eapply same_outside_current_trans;
        [apply same_outside_current_counts|].
      eapply same_outside_current_alloc. exact Ha.
  - by destruct (Z.eqb k 1).
Qed.

(** X10: [handle_page_fault] answers [false] exactly when the directory
    of the page is absent, or the page is valid and either writable or
    not tagged copy-on-write; when it answers [false] the machine is
    untouched. *)
Theorem handle_page_fault_refuses_unchanged (junk : pte_directory)
    (vpn rw : nat) (m m' : machine) (pt : pagetable_t) (b : bool) :
  cur_pagetable m = Some pt →
  handle_page_fault NR_PTES_PER_PAGE NR_PAGEFRAMES junk vpn rw m
  = Some (b, m') →
  (b = false
   ↔ pt !! out_index vpn = Some None
     ∨ ∃ e, pte_at m (current m) vpn = Some e ∧ valid e = true
         ∧ (writable e = true ∨ private e ≠ 3))
  ∧ (b = false → m' = m).
Proof.
  intros Hpt H. unfold handle_page_fault in H.
  rewrite Hpt in H; simpl in H.
  rewrite (pte_at_current m pt vpn Hpt). unfold pt_read.
  destruct (pt !! out_index vpn) as [[d|]|] eqn:Ho; simpl in *; [| |done].
  - destruct (d !! in_index vpn) as [e|] eqn:Hi; simpl in H; [|done].
    destruct (valid e) eqn:Hv; simpl in H.
    + destruct (writable e) eqn:Hw; simpl in H.
      * injection H as <- <-. split; [|done]. split; [|done].
        intros _. right. eauto.
      * destruct (Nat.eqb_spec (private e) 3) as [Hp|Hp].
        -- apply fault_branch_resolves in H as [-> _].
           split; [|done]. split; [done|].
           intros [?|(x & [= <-] & _ & [?|?])]; congruence.
        -- injection H as <- <-. split; [|done]. split; [|done].
           intros _. right. eauto.
    + apply fault_branch_resolves in H as [-> _].
      split; [|done]. split; [done|].
      intros [?|(x & [= <-] & ? & _)]; congruence.
  - injection H as <- <-. split; [|done]. split; [|done]. by left.
Qed.

(** X11: whatever [handle_page_fault] does, it stays inside the page
    table of the running process and the frame counts.  The translation
    cache in particular is never touched, so a translation cached for the
    page survives a copy-on-write that moves the page to another frame. *)
Theorem handle_page_fault_keeps_tlb_and_others (junk : pte_directory)
    (vpn rw : nat) (m m' : machine) (b : bool) :
  handle_page_fault NR_PTES_PER_PAGE NR_PAGEFRAMES junk vpn rw m
  = Some (b, m') →
  (∀ v, lookup_tlb NR_TLB_ENTRIES v m' = lookup_tlb NR_TLB_ENTRIES v m)
  ∧ (∀ a v, a ≠ current m → pte_at m' a v = pte_at m a v)
  ∧ processes m' = processes m ∧ current m' = current m
  ∧ ptbr m' = ptbr m ∧ pid <$> heap m' = pid <$> heap m.
Proof.
  intros H.
  assert (Hs : same_outside_current m m').
  { unfold handle_page_fault in H.
    destruct (cur_pagetable m) as [pt|]; simpl in H; [|done].
    destruct (pt !! out_index vpn) as [[d|]|]; simpl in H; [| |done].
    - destruct (d !! in_index vpn) as [e|]; simpl in H; [|done].
      destruct (negb (valid e)).
      + by apply fault_branch_resolves in H as [_ ?].
      + destruct (negb (writable e) && Nat.eqb (private e) 3).
        * by apply fault_branch_resolves in H as [_ ?].
        * injection H as _ <-. apply same_outside_current_refl.
    - injection H as _ <-. apply same_outside_current_refl. }
  split.
  { intros v. unfold lookup_tlb. destruct Hs as (-> & _). done. }
  split.
  { intros a v Ha. by apply same_outside_current_pte. }
  destruct Hs as (_ & ? & ? & ? & ? & _). done.
Qed.

(** X12: a fault on an invalid PTE whose stale frame number names a
    frame with exactly one reference only marks the PTE valid: the page
    lands on that frame with the permission bits the PTE held, no count
    moves and no frame is allocated. *)
Theorem invalid_pte_fault_revalidates_in_place (junk : pte_directory)
    (vpn rw : nat) (m : machine) (e : pte) :
  pte_at m (current m) vpn = Some e → valid e = false →
  mapcounts m !! pfn e = Some 1%Z →
  ∃ m',
    handle_page_fault NR_PTES_PER_PAGE NR_PAGEFRAMES junk vpn rw m
    = Some (true, m')
    ∧ pte_at m' (current m) vpn
      = Some (Pte true (writable e) (pfn e) (private e))
    ∧ (∀ a v, (a, v) ≠ (current m, vpn) → pte_at m' a v = pte_at m a v)
    ∧ mapcounts m' = mapcounts m.
Proof.
  intros He Hv Hk.
  destruct (pte_at_current_inv _ m vpn e He) as (pt & d & Hpt & Ho & Hi).
  eexists. split.
  - unfold handle_page_fault. rewrite Hpt; simpl. rewrite Ho; simpl.
    rewrite Hi; simpl. rewrite Hv; simpl. rewrite Hk; simpl.
    by rewrite (write_pte_defined m pt _ _ d e _ Hpt Ho Hi).
  - split; [|split; [|done]].
    + rewrite (pte_at_set_cur_eq _ m pt) by done.
      by rewrite (pt_read_write_eq pt _ _ d e).
    + intros a v Hne. by apply pte_at_update_other.
Qed.

End PagingBehaviour.

(** ** Switch and fork, continued *)

Lemma find_pid_app (h : list process) (l1 q : list nat) (p : nat) :
  Forall (fun a => ∃ u, h !! a = Some u ∧ pid u ≠ p) l1 →
  find_pid h (l1 ++ q) p = find_pid h q p.
Proof.
  induction 1 as [|a l1 (u & Hu & Hp) _ IH]; simpl; [done|].
  rewrite Hu; simpl. by destruct (Nat.eqb_spec (pid u) p).
Qed.

Section SwitchBehaviour.

Variable NR_PTES_PER_PAGE : nat.
Variable NR_PAGEFRAMES : nat.
Variable NR_TLB_ENTRIES : nat.

Local Abbreviation pte_at := (pte_of NR_PTES_PER_PAGE).

(** The switch path of [switch_process], in full. *)
Lemma switch_existing_unfold (junk_pt : pagetable_t)
    (junk_dir : nat → pte_directory) (p : nat) (m : machine)
    (l1 l2 : list nat) (temp : nat) (t : process) :
  NR_TLB_ENTRIES ≤ length (tlb m) →
  processes m = l1 ++ temp :: l2 →
  Forall (fun a => ∃ u, heap m !! a = Some u ∧ pid u ≠ p) l1 →
  heap m !! temp = Some t → pid t = p →
  ∃ t',
    switch_process NR_PTES_PER_PAGE NR_TLB_ENTRIES junk_pt junk_dir p m
    = Some (Machine (heap m) (l1 ++ l2 ++ [current m]) temp (Some temp) t'
                    (mapcounts m))
    ∧ length t' = length (tlb m)
    ∧ ∀ j, j < NR_TLB_ENTRIES → ∃ e, t' !! j = Some e ∧ tlb_valid e = false.
Proof.
  intros Htlb Hq Hl1 Ht Hp.
  destruct (flush_tlb_loop NR_TLB_ENTRIES (tlb m) Htlb)
    as (t' & Hrun & Hlen & Hinv & _).
  assert (Htl1 : temp ∉ l1).
  { intros Hin. rewrite Forall_forall in Hl1.
    destruct (Hl1 temp (proj1 (list_elem_of_In _ _) Hin)) as (u & Hu & Hne).
    congruence. }
  exists t'. split; [|done].
  unfold switch_process, flush_tlb. rewrite Hrun; simpl.
  rewrite Hq, (find_pid_app _ _ _ _ Hl1); simpl. rewrite Ht; simpl.
  rewrite Hp, Nat.eqb_refl; simpl.
  rewrite <- app_assoc; simpl.
  by rewrite (unlink_first temp l1 (l2 ++ [current m]) Htl1).
Qed.

(** X13: [switch_process] leaves the translation cache empty, whether it
    switches or forks: no lookup hits after it. *)
Theorem switch_process_leaves_cache_empty (junk_pt : pagetable_t)
    (junk_dir : nat → pte_directory) (p : nat) (m m' : machine) :
  NR_TLB_ENTRIES ≤ length (tlb m) →
  switch_process NR_PTES_PER_PAGE NR_TLB_ENTRIES junk_pt junk_dir p m
  = Some m' →
  ∀ v, lookup_tlb NR_TLB_ENTRIES v m' = Some None.
Proof.
  intros Htlb H v.
  destruct (flush_tlb_loop NR_TLB_ENTRIES (tlb m) Htlb)
    as (t' & Hrun & _ & Hinv & _).
  assert (Ht : tlb m' = t').
  { unfold switch_process, flush_tlb in H. rewrite Hrun in H; simpl in H.
    destruct (find_pid _ _ p) as [[temp|]|]; simpl in H; [| |done].
    - by injection H as <-.
    - destruct (heap m !! current m) as [parent|]; simpl in H; [|done].
      destruct (for_up _ _ _ _) as [[[ppt cpt] c]|]; simpl in H; [|done].
      by injection H as <-. }
  unfold lookup_tlb. rewrite Ht. apply lookup_tlb_from_miss.
  intros j Hj. destruct (Hinv j) as (e & He & Hv); [lia|]. eauto.
Qed.

(** X14: with distinct pids, switching to a queued process and then back
    to the pid that was running restores the running process, with [ptbr]
    on its page table; page tables and frame counts are untouched, and
    the process switched to is now at the tail of the queue. *)
Theorem switch_there_and_back (junk_pt : pagetable_t)
    (junk_dir : nat → pte_directory) (m : machine) (l1 l2 : list nat)
    (temp : nat) (t c : process) :
  NR_TLB_ENTRIES ≤ length (tlb m) →
  processes m = l1 ++ temp :: l2 →
  heap m !! temp = Some t → heap m !! current m = Some c →
  pid t ≠ pid c →
  Forall (fun a => ∃ u, heap m !! a = Some u ∧ pid u ≠ pid t ∧ pid u ≠ pid c)
         (l1 ++ l2) →
  ∃ m1 m2,
    switch_process NR_PTES_PER_PAGE NR_TLB_ENTRIES junk_pt junk_dir (pid t) m
    = Some m1
    ∧ current m1 = temp
    ∧ switch_process NR_PTES_PER_PAGE NR_TLB_ENTRIES junk_pt junk_dir (pid c)
        m1 = Some m2
    ∧ current m2 = current m ∧ ptbr m2 = Some (current m)
    ∧ heap m2 = heap m ∧ mapcounts m2 = mapcounts m
    ∧ processes m2 = l1 ++ l2 ++ [temp].
Proof.
  intros Htlb Hq Ht Hc Hne Hall.
  apply list.Forall_app in Hall as Hsplit. destruct Hsplit as [Hl1 Hl2].
  destruct (switch_existing_unfold junk_pt junk_dir (pid t) m l1 l2 temp t)
    as (t1 & Hrun1 & Hlen1 & _); try done.
  { eapply list.Forall_impl; [exact Hl1|]. intros a (u & ? & ? & _). eauto. }
  set (m1 := Machine (heap m) (l1 ++ l2 ++ [current m]) temp (Some temp) t1
                     (mapcounts m)) in Hrun1.
  destruct (switch_existing_unfold junk_pt junk_dir (pid c) m1 (l1 ++ l2) []
              (current m) c) as (t2 & Hrun2 & _); try done.
  { simpl. lia. }
  { simpl. by rewrite <- app_assoc. }
  { eapply list.Forall_impl; [exact Hall|]. intros a (u & ? & _ & ?). eauto. }
  eexists m1, _. split; [exact Hrun1|]. split; [done|].
  split; [exact Hrun2|]. simpl. repeat split.
  by rewrite <- app_assoc.
Qed.


(** X16: a fork leaves every other process as it was and changes in the
    parent nothing but write permissions: each entry of the parent keeps
    its valid bit, frame and tag, and loses [writable] only when it is
    valid and tagged copy-on-write. *)
Theorem fork_parent_and_others (junk_pt : pagetable_t)
    (junk_dir : nat → pte_directory) (p : nat) (m : machine)
    (parent : process) :
  NR_TLB_ENTRIES ≤ length (tlb m) →
  Forall (fun a => ∃ t, heap m !! a = Some t ∧ pid t ≠ p) (processes m) →
  heap m !! current m = Some parent →
  wf_pagetable NR_PTES_PER_PAGE NR_PAGEFRAMES (pagetable parent) = true →
  length (mapcounts m) = NR_PAGEFRAMES →
  length junk_pt = NR_PTES_PER_PAGE →
  (∀ i, length (junk_dir i) = NR_PTES_PER_PAGE) →
  ∃ m',
    switch_process NR_PTES_PER_PAGE NR_TLB_ENTRIES junk_pt junk_dir p m
    = Some m'
    ∧ length (heap m') = S (length (heap m))
    ∧ (∀ a, a ≠ current m → a < length (heap m) →
         heap m' !! a = heap m !! a)
    ∧ pid <$> heap m' !! current m = Some (pid parent)
    ∧ (∀ v, pte_at m' (current m) v
            = (fun e => Pte (valid e)
                          (writable e
                           && negb (valid e && Nat.eqb (private e) 3))
                          (pfn e) (private e))
              <$> pte_at m (current m) v).
Proof.
  intros Htlb Habs Hpar Hwf Hc Hjp Hjd.
  destruct (fork_spec NR_PTES_PER_PAGE NR_PAGEFRAMES NR_TLB_ENTRIES
              junk_pt junk_dir p m parent)
    as (t' & c' & Hrun & _); [done..|].
  pose proof (lookup_lt_Some _ _ _ Hpar) as Hcur.
  eexists. split; [exact Hrun|]. simpl. split; [|split; [|split]].
  - rewrite length_app, length_insert. simpl. lia.
  - intros a Ha Hlt. rewrite lookup_app_l by (by rewrite length_insert).
    by rewrite list_lookup_insert_ne.
  - rewrite lookup_app_l by (by rewrite length_insert).
    by rewrite list_lookup_insert_eq.
  - intros v. unfold pte_of. simpl.
    rewrite lookup_app_l by (by rewrite length_insert).
    rewrite list_lookup_insert_eq by done. rewrite Hpar. simpl.
    unfold pt_read, fork_parent_pt. rewrite list_lookup_fmap.
    destruct (pagetable parent !! (v / NR_PTES_PER_PAGE)) as [[d|]|];
      simpl; try done.
    rewrite list_lookup_fmap.
    destruct (d !! (v mod NR_PTES_PER_PAGE)) as [e|]; simpl; [|done].
    f_equal. unfold fork_parent_pte, cow_protect, set_writable.
    destruct e as [va w f q]; simpl.
    destruct va; simpl; [|by rewrite andb_true_r].
    destruct (Nat.eqb q 3); simpl; [by rewrite andb_false_r|].
    by rewrite andb_true_r.
Qed.

(** X17: [switch_process] does not look at the running process when it
    searches for the pid: asked for the pid of the running process, absent
    from the queue, it forks, and two processes then carry that pid. *)
Theorem switch_to_running_pid_forks_twin (junk_pt : pagetable_t)
    (junk_dir : nat → pte_directory) (m : machine) (parent : process) :
  NR_TLB_ENTRIES ≤ length (tlb m) →
  heap m !! current m = Some parent →
  Forall (fun a => ∃ t, heap m !! a = Some t ∧ pid t ≠ pid parent)
         (processes m) →
  wf_pagetable NR_PTES_PER_PAGE NR_PAGEFRAMES (pagetable parent) = true →
  length (mapcounts m) = NR_PAGEFRAMES →
  length junk_pt = NR_PTES_PER_PAGE →
  (∀ i, length (junk_dir i) = NR_PTES_PER_PAGE) →
  ∃ m',
    switch_process NR_PTES_PER_PAGE NR_TLB_ENTRIES junk_pt junk_dir
      (pid parent) m = Some m'
    ∧ current m' ≠ current m
    ∧ current m ∈ processes m'
    ∧ pid <$> heap m' !! current m' = Some (pid parent)
    ∧ pid <$> heap m' !! current m = Some (pid parent).
Proof.
  intros Htlb Hpar Habs Hwf Hc Hjp Hjd.
  destruct (fork_spec NR_PTES_PER_PAGE NR_PAGEFRAMES NR_TLB_ENTRIES
              junk_pt junk_dir (pid parent) m parent)
    as (t' & c' & Hrun & _); [done..|].
  pose proof (lookup_lt_Some _ _ _ Hpar) as Hcur.
  eexists. split; [exact Hrun|]. simpl. split; [lia|]. split; [|split].
  - apply elem_of_app. right. by apply list_elem_of_singleton.
  - rewrite lookup_app_r by (by rewrite length_insert).
    by rewrite length_insert, Nat.sub_diag.
  - rewrite lookup_app_l by (by rewrite length_insert).
    by rewrite list_lookup_insert_eq.
Qed.

End SwitchBehaviour.

(** ** Operations that keep the reference counts right *)

Lemma refcount_inv_spec (n : nat) (m : machine) :
  refcount_inv n m = true
  ↔ ∀ f, f < n → mapcounts m !! f = Some (Z.of_nat (count_refs m f)).
Proof.
  unfold refcount_inv. rewrite forallb_forall. split.
  - intros H f Hf. eapply bool_decide_eq_true_1. apply H. apply in_seq. lia.
  - intros H f Hf. apply bool_decide_eq_true_2. apply H.
    apply in_seq in Hf. lia.
Qed.

Lemma sum_list_with_insert {A} (g : A → nat) (l : list A) (i : nat) (x y : A) :
  l !! i = Some x →
  sum_list_with g (<[i := y]> l) + g x = sum_list_with g l + g y.
Proof.
  revert i. induction l as [|a l IH]; intros i Hi; [done|].
  destruct i as [|i]; simpl in *.
  - injection Hi as ->. lia.
  - specialize (IH i Hi). lia.
Qed.

Lemma sum_list_with_agree {A} (g h : A → nat) (l : list A) :
  (∀ x, x ∈ l → g x = h x) → sum_list_with g l = sum_list_with h l.
Proof.
  induction l as [|a l IH]; intros H; simpl; [done|].
  rewrite (H a) by (by left). rewrite IH; [done|].
  intros x Hx. apply H. by right.
Qed.

(** Replacing one PTE in a page table moves the references of the table by
    those of the two entries; a directory created for the page counts
    with what its fresh memory held. *)
Lemma refs_pt_pte_update (f : nat) (pt : pagetable_t)
    (od : option pte_directory) (junk : pte_directory) (o i : nat)
    (e0 e1 : pte) :
  pt !! o = Some od → default junk od !! i = Some e0 →
  (od = None → refs_dir f junk = 0) →
  refs_pt f (<[o := Some (<[i := e1]> (default junk od))]> pt) + refs_pte f e0
  = refs_pt f pt + refs_pte f e1.
Proof.
  intros Ho Hi Hjunk.
  pose proof (sum_list_with_insert (from_option (refs_dir f) 0) pt o od
                (Some (<[i := e1]> (default junk od))) Ho) as Hpt.
  pose proof (sum_list_with_insert (refs_pte f) (default junk od) i e0 e1 Hi)
    as Hd.
  unfold refs_pt. simpl in Hpt. unfold refs_dir in *.
  destruct od as [d|]; simpl in *.
  - lia.
  - specialize (Hjunk eq_refl). lia.
Qed.

(** The references of a machine, when only the page table of the running
    process differs. *)
Lemma count_refs_current_update (m m' : machine) (f : nat) :
  current m' = current m → processes m' = processes m →
  (∀ a, a ≠ current m → heap m' !! a = heap m !! a) →
  current m ∉ processes m →
  count_refs m' f + refs_proc m f (current m)
  = count_refs m f + refs_proc m' f (current m).
Proof.
  intros Hc Hq Hh Hnot. unfold count_refs. rewrite Hc, Hq. simpl.
  rewrite (sum_list_with_agree (refs_proc m' f) (refs_proc m f)); [lia|].
  intros a Ha. unfold refs_proc. rewrite Hh; [done|]. by intros ->.
Qed.

Lemma count_refs_pte_update (m m' : machine) (f : nat) (pt : pagetable_t)
    (od : option pte_directory) (junk : pte_directory) (o i : nat)
    (e0 e1 : pte) :
  current m' = current m → processes m' = processes m →
  (∀ a, a ≠ current m → heap m' !! a = heap m !! a) →
  current m ∉ processes m →
  cur_pagetable m = Some pt →
  pt !! o = Some od → default junk od !! i = Some e0 →
  (od = None → refs_dir f junk = 0) →
  cur_pagetable m'
  = Some (<[o := Some (<[i := e1]> (default junk od))]> pt) →
  count_refs m' f + refs_pte f e0 = count_refs m f + refs_pte f e1.
Proof.
  intros Hc Hq Hh Hnot Hpt Ho Hi Hjunk Hpt'.
  pose proof (count_refs_current_update m m' f Hc Hq Hh Hnot) as Hcount.
  pose proof (refs_pt_pte_update f pt od junk o i e0 e1 Ho Hi Hjunk) as Hrefs.
  unfold refs_proc in Hcount. unfold cur_pagetable in Hpt, Hpt'.
  rewrite Hc in Hpt'.
  destruct (heap m !! current m) as [q|]; simpl in *; [|done].
  destruct (heap m' !! current m) as [q'|]; simpl in *; [|done].
  injection Hpt as Hq0. injection Hpt' as Hq'.
  rewrite Hq0, Hq' in Hcount. lia.
Qed.

Lemma refs_dir_clean (f : nat) (d : pte_directory) :
  (∀ j, j ∈ d → valid j = false) → refs_dir f d = 0.
Proof.
  unfold refs_dir. induction d as [|a d IH]; intros H; simpl; [done|].
  rewrite IH by (intros j Hj; apply H; by right).
  unfold refs_pte. rewrite (H a) by (by left). done.
Qed.

(** A PTE of the running process is among the references counted. *)
Lemma count_refs_ge (m : machine) (f : nat) (pt : pagetable_t) (o i : nat)
    (d : pte_directory) (e : pte) :
  cur_pagetable m = Some pt → pt !! o = Some (Some d) → d !! i = Some e →
  refs_pte f e ≤ count_refs m f.
Proof.
  intros Hpt Ho Hi. unfold count_refs, refs_proc. simpl.
  unfold cur_pagetable in Hpt.
  destruct (heap m !! current m) as [q|]; simpl in *; [|done].
  injection Hpt as Hq. rewrite Hq.
  pose proof (sum_list_with_in _ (from_option (refs_dir f) 0) pt
                (list_elem_of_lookup_2 _ _ _ Ho)) as H1.
  pose proof (sum_list_with_in _ (refs_pte f) d
                (list_elem_of_lookup_2 _ _ _ Hi)) as H2.
  unfold refs_pt, refs_dir in *. simpl in H1. lia.
Qed.

Section RefcountKept.

Variable NR_PTES_PER_PAGE : nat.
Variable NR_PAGEFRAMES : nat.
Variable NR_TLB_ENTRIES : nat.

Local Abbreviation out_index vpn := (vpn / NR_PTES_PER_PAGE).
Local Abbreviation in_index vpn := (vpn mod NR_PTES_PER_PAGE).
Local Abbreviation pte_at := (pte_of NR_PTES_PER_PAGE).

(** X18: [alloc_page] for a page that is not mapped, with a frame free,
    keeps every frame's count equal to the number of valid PTEs on it. *)
Theorem alloc_page_keeps_refcount (junk : pte_directory) (vpn rw : nat)
    (m : machine) (pt : pagetable_t) (od : option pte_directory) (e0 : pte) :
  refcount_inv NR_PAGEFRAMES m = true →
  current m ∉ processes m →
  cur_pagetable m = Some pt →
  pt !! out_index vpn = Some od →
  default junk od !! in_index vpn = Some e0 →
  valid e0 = false →
  (od = None → ∀ j, j ∈ junk → valid j = false) →
  length (mapcounts m) = NR_PAGEFRAMES →
  (∃ g, mapcounts m !! g = Some 0%Z) →
  ∃ g m',
    alloc_page NR_PTES_PER_PAGE NR_PAGEFRAMES junk vpn rw m
    = Some (Z.of_nat g, m')
    ∧ refcount_inv NR_PAGEFRAMES m' = true.
Proof.
  intros Hinv Hnot Hpt Ho Hi Hv Hjunk Hlen (g0 & Hg0).
  destruct (find_frame_lowest_free (mapcounts m) NR_PAGEFRAMES 0 None)
    as (g & Hg & Hrange & Hgz & _); [lia| |].
  { exists g0. split; [apply lookup_lt_Some in Hg0; lia | done]. }
  pose proof (alloc_page_unfold NR_PTES_PER_PAGE NR_PAGEFRAMES junk vpn rw m
                pt od e0 g 0%Z Hpt Ho Hi Hg Hgz) as Hrun.
  simpl in Hrun.
  set (e1 := if Nat.eqb rw 1 then Pte true false g 1 else Pte true true g 3)
    in Hrun.
  eexists g, _. split; [exact Hrun|].
  match goal with |- refcount_inv _ ?M = true => set (m' := M) end.
  rewrite refcount_inv_spec in Hinv. apply refcount_inv_spec.
  intros f Hf.
  assert (Hcount : count_refs m' f + refs_pte f e0
                   = count_refs m f + refs_pte f e1).
  { apply (count_refs_pte_update m m' f pt od junk (out_index vpn)
             (in_index vpn) e0 e1); try done.
    - intros a Ha. simpl. by rewrite list_lookup_alter_ne.
    - intros Hnone. apply refs_dir_clean. by apply Hjunk.
    - unfold m'. rewrite cur_pagetable_with_mapcounts.
      by apply (cur_pagetable_set m pt). }
  assert (He0 : refs_pte f e0 = 0) by (unfold refs_pte; by rewrite Hv).
  assert (He1 : refs_pte f e1 = if Nat.eqb g f then 1 else 0).
  { unfold refs_pte, e1. by destruct (Nat.eqb rw 1). }
  change (mapcounts m') with (<[g := 1%Z]> (mapcounts m)).
  destruct (decide (f = g)) as [->|Hne].
  - rewrite list_lookup_insert_eq by lia.
    rewrite Nat.eqb_refl in He1.
    specialize (Hinv g Hf). rewrite Hgz in Hinv. injection Hinv as Hz.
    f_equal. lia.
  - rewrite list_lookup_insert_ne by done.
    destruct (Nat.eqb_spec g f); [congruence|].
    rewrite (Hinv f Hf). do 2 f_equal. lia.
Qed.

(** X19: [free_page] of a mapped page keeps every frame's count equal to
    the number of valid PTEs on it. *)
Theorem free_page_keeps_refcount (vpn : nat) (m : machine) (e : pte) (k : Z) :
  refcount_inv NR_PAGEFRAMES m = true →
  current m ∉ processes m →
  pte_at m (current m) vpn = Some e → valid e = true →
  mapcounts m !! pfn e = Some k → (k < 2 ^ 32)%Z →
  pfn e < NR_PAGEFRAMES →
  NR_TLB_ENTRIES ≤ length (tlb m) →
  ∃ m', free_page NR_PTES_PER_PAGE NR_TLB_ENTRIES vpn m = Some m'
    ∧ refcount_inv NR_PAGEFRAMES m' = true.
Proof.
  intros Hinv Hnot He Hv Hk Hbound Hpfn Htlb.
  destruct (pte_at_current_inv _ m vpn e He) as (pt & d & Hpt & Ho & Hi).
  destruct (free_page_unfold NR_PTES_PER_PAGE NR_TLB_ENTRIES vpn m pt d e k
              Hpt Ho Hi Hk Htlb) as (t' & Hrun & _).
  eexists. split; [exact Hrun|].
  match goal with |- refcount_inv _ ?M = true => set (m' := M) end.
  rewrite refcount_inv_spec in Hinv. apply refcount_inv_spec.
  intros f Hf.
  assert (Hcount : count_refs m' f + refs_pte f e
                   = count_refs m f + refs_pte f (Pte false false 0 0)).
  { apply (count_refs_pte_update m m' f pt (Some d) [] (out_index vpn)
             (in_index vpn) e (Pte false false 0 0)); try done.
    - intros a Ha. simpl. by rewrite list_lookup_alter_ne.
    - unfold m'. by apply (cur_pagetable_set (with_mapcounts _ m) pt). }
  change (refs_pte f (Pte false false 0 0)) with 0 in Hcount.
  change (mapcounts m') with (<[pfn e := wrap (k - 1)]> (mapcounts m)).
  destruct (decide (f = pfn e)) as [->|Hne].
  - rewrite list_lookup_insert_eq by (by eapply lookup_lt_Some).
    assert (Hone : refs_pte (pfn e) e = 1).
    { unfold refs_pte. by rewrite Hv, Nat.eqb_refl. }
    specialize (Hinv (pfn e) Hf). rewrite Hk in Hinv. injection Hinv as Hz.
    f_equal. unfold wrap. rewrite Z.mod_small by lia. lia.
  - rewrite list_lookup_insert_ne by done.
    assert (Hzero : refs_pte f e = 0).
    { unfold refs_pte. rewrite Hv. simpl.
      by destruct (Nat.eqb_spec (pfn e) f); [congruence|]. }
    rewrite (Hinv f Hf). do 2 f_equal. lia.
Qed.

(** X20: switching to a queued process keeps every frame's count equal
    to the number of valid PTEs on it: the processes are the same. *)
Theorem switch_keeps_refcount (junk_pt : pagetable_t)
    (junk_dir : nat → pte_directory) (p : nat) (m : machine) :
  refcount_inv NR_PAGEFRAMES m = true →
  NR_TLB_ENTRIES ≤ length (tlb m) →
  Forall (fun a => is_Some (heap m !! a)) (processes m) →
  Exists (fun a => ∃ t, heap m !! a = Some t ∧ pid t = p) (processes m) →
  ∃ m',
    switch_process NR_PTES_PER_PAGE NR_TLB_ENTRIES junk_pt junk_dir p m
    = Some m'
    ∧ current m' ∈ processes m
    ∧ refcount_inv NR_PAGEFRAMES m' = true.
Proof.
  intros Hinv Htlb Hlive Hex.
  destruct (find_pid_present (heap m) (processes m) p Hlive Hex)
    as (l1 & temp & l2 & Hq & (t & Ht & Hp) & Hl1 & _).
  destruct (switch_existing_unfold NR_PTES_PER_PAGE NR_TLB_ENTRIES
              junk_pt junk_dir p m l1 l2 temp t Htlb Hq Hl1 Ht Hp)
    as (t' & Hrun & _).
  eexists. split; [exact Hrun|]. simpl. split.
  { rewrite Hq. apply elem_of_app. right. by left. }
  rewrite refcount_inv_spec in Hinv. apply refcount_inv_spec.
  intros f Hf. simpl. rewrite (Hinv f Hf). do 2 f_equal.
  unfold count_refs. simpl. rewrite Hq.
  change (refs_proc (Machine (heap m) (l1 ++ l2 ++ [current m]) temp
                       (Some temp) t' (mapcounts m)) f)
    with (refs_proc m f).
  rewrite !sum_list_with_app. simpl. lia.
Qed.

(** X21: a copy-on-write fault keeps every frame's count equal to the
    number of valid PTEs on it, on both of its paths: the promotion in
    place when the count is 1, and the copy to the lowest free frame
    otherwise, as long as a frame is free. *)
Theorem cow_fault_keeps_refcount (junk : pte_directory) (vpn rw : nat)
    (m : machine) (e : pte) (k : Z) :
  refcount_inv NR_PAGEFRAMES m = true →
  current m ∉ processes m →
  pte_at m (current m) vpn = Some e →
  valid e = true → writable e = false → private e = 3 →
  mapcounts m !! pfn e = Some k → (k < 2 ^ 32)%Z →
  length (mapcounts m) = NR_PAGEFRAMES →
  (k ≠ 1%Z → ∃ g, mapcounts m !! g = Some 0%Z) →
  ∃ m',
    handle_page_fault NR_PTES_PER_PAGE NR_PAGEFRAMES junk vpn rw m
    = Some (true, m')
    ∧ refcount_inv NR_PAGEFRAMES m' = true.
Proof.
  intros Hinv Hnot He Hv Hw Hp Hk Hbound Hlen Hfree.
  destruct (pte_at_current_inv _ m vpn e He) as (pt & d & Hpt & Ho & Hi).
  assert (Hpfn : pfn e < NR_PAGEFRAMES).
  { apply lookup_lt_Some in Hk. lia. }
  assert (Hlt : out_index vpn < length pt) by (by eapply lookup_lt_Some).
  assert (Hlti : in_index vpn < length d) by (by eapply lookup_lt_Some).
  rewrite refcount_inv_spec in Hinv.
  assert (Hrefs : ∀ f, refs_pte f e = if Nat.eqb (pfn e) f then 1 else 0).
  { intros f. unfold refs_pte. by rewrite Hv. }
  destruct (decide (k = 1%Z)) as [->|Hk1].
  - eexists. split.
    { unfold handle_page_fault. rewrite Hpt; simpl. rewrite Ho; simpl.
      rewrite Hi; simpl. rewrite Hv, Hw, Hp; simpl. rewrite Hk; simpl.
      by rewrite (write_pte_defined m pt _ _ d e _ Hpt Ho Hi). }
    match goal with |- refcount_inv _ ?M = true => set (m' := M) end.
    apply refcount_inv_spec. intros f Hf.
    assert (Hcount : count_refs m' f + refs_pte f e
                     = count_refs m f + refs_pte f (set_writable true e)).
    { apply (count_refs_pte_update m m' f pt (Some d) [] (out_index vpn)
               (in_index vpn) e (set_writable true e)); try done.
      - intros a Ha. simpl. by rewrite list_lookup_alter_ne.
      - unfold m'. by apply (cur_pagetable_set m pt). }
    change (refs_pte f (set_writable true e)) with (refs_pte f e) in Hcount.
    change (mapcounts m') with (mapcounts m).
    rewrite (Hinv f Hf). do 2 f_equal. lia.
  - destruct (Hfree Hk1) as (g0 & Hg0).
    set (e' := set_writable true e).
    set (d1 := <[in_index vpn := e']> d).
    set (pt1 := <[out_index vpn := Some d1]> pt).
    set (c1 := <[pfn e := wrap (k - 1)]> (mapcounts m)).
    set (m1 := with_mapcounts c1 (set_cur_pagetable pt1 m)).
    assert (Hpt1 : cur_pagetable m1 = Some pt1).
    { unfold m1. rewrite cur_pagetable_with_mapcounts.
      by apply (cur_pagetable_set m pt). }
    assert (Ho1 : pt1 !! out_index vpn = Some (Some d1)).
    { by apply list_lookup_insert_eq. }
    assert (Hi1 : d1 !! in_index vpn = Some e').
    { by apply list_lookup_insert_eq. }
    assert (Hkpos : (2 ≤ k)%Z).
    { pose proof (count_refs_ge m (pfn e) pt _ _ d e Hpt Ho Hi) as Hge.
      rewrite Hrefs, Nat.eqb_refl in Hge.
      specialize (Hinv (pfn e) Hpfn). rewrite Hk in Hinv.
      injection Hinv as Hz. lia. }
    assert (Hwrap : wrap (k - 1) = (k - 1)%Z).
    { unfold wrap. apply Z.mod_small. lia. }
    assert (Hc1 : ∀ h, h ≠ pfn e → c1 !! h = mapcounts m !! h).
    { intros h Hh. unfold c1. by apply list_lookup_insert_ne. }
    assert (Hc1f : c1 !! pfn e = Some (k - 1)%Z).
    { unfold c1. rewrite Hwrap. apply list_lookup_insert_eq. lia. }
    destruct (find_frame_lowest_free c1 NR_PAGEFRAMES 0 None)
      as (g & Hg & Hrange & Hgz & _).
    { unfold c1. rewrite length_insert. lia. }
    { exists g0. split; [apply lookup_lt_Some in Hg0; lia|].
      rewrite Hc1; [done|]. intros ->. rewrite Hk in Hg0. injection Hg0. lia. }
    assert (Hgf : g ≠ pfn e).
    { intros ->. rewrite Hc1f in Hgz. injection Hgz. lia. }
    pose proof (alloc_page_unfold NR_PTES_PER_PAGE NR_PAGEFRAMES junk vpn rw
                  m1 pt1 (Some d1) _ g 0%Z Hpt1 Ho1 Hi1 Hg Hgz) as Halloc.
    simpl in Halloc.
    set (e1 := if Nat.eqb rw 1 then Pte true false g 1 else Pte true true g 3)
      in Halloc.
    eexists. split.
    { unfold handle_page_fault. rewrite Hpt; simpl. rewrite Ho; simpl.
      rewrite Hi; simpl. rewrite Hv, Hw, Hp; simpl. rewrite Hk; simpl.
      destruct (Z.eqb_spec k 1) as [|_]; [done|].
      rewrite (write_pte_defined m pt _ _ d e _ Hpt Ho Hi); simpl.
      unfold decr; simpl. rewrite Hk; simpl.
      fold e' d1 pt1 c1 m1. by rewrite Halloc. }
    match goal with |- refcount_inv _ ?M = true => set (m' := M) end.
    apply refcount_inv_spec. intros f Hf.
    assert (Hcount : count_refs m' f + refs_pte f e
                     = count_refs m f + refs_pte f e1).
    { apply (count_refs_pte_update m m' f pt (Some d) [] (out_index vpn)
               (in_index vpn) e e1); try done.
      - intros a Ha. simpl. rewrite list_lookup_alter_ne by done.
        by rewrite list_lookup_alter_ne.
      - unfold m'. simpl. rewrite cur_pagetable_with_mapcounts.
        rewrite (cur_pagetable_set m1 pt1) by done. f_equal.
        unfold pt1, d1. by rewrite !list_insert_insert_eq. }
    assert (He1 : refs_pte f e1 = if Nat.eqb g f then 1 else 0).
    { unfold refs_pte, e1. by destruct (Nat.eqb rw 1). }
    rewrite Hrefs in Hcount. rewrite He1 in Hcount.
    change (mapcounts m') with (<[g := 1%Z]> c1).
    destruct (decide (f = g)) as [->|Hfg].
    + rewrite list_lookup_insert_eq by (unfold c1; rewrite length_insert; lia).
      rewrite Nat.eqb_refl in Hcount.
      destruct (Nat.eqb_spec (pfn e) g); [congruence|].
      specialize (Hinv g Hf). rewrite <- (Hc1 g Hgf), Hgz in Hinv.
      injection Hinv as Hz. f_equal. lia.
    + rewrite list_lookup_insert_ne by done.
      destruct (Nat.eqb_spec g f); [congruence|].
      destruct (decide (f = pfn e)) as [->|Hfe].
      * rewrite Hc1f. rewrite Nat.eqb_refl in Hcount.
        specialize (Hinv (pfn e) Hf). rewrite Hk in Hinv.
        injection Hinv as Hz. f_equal. lia.
      * rewrite (Hc1 f Hfe).
        destruct (Nat.eqb_spec (pfn e) f); [congruence|].
        rewrite (Hinv f Hf). do 2 f_equal. lia.
Qed.

End RefcountKept.

(** Increments that stay below [2^32] add up. *)
Lemma bump_small (r : nat) (k : Z) :
  (0 ≤ k)%Z → (k + Z.of_nat r < 2 ^ 32)%Z → bump r k = (k + Z.of_nat r)%Z.
Proof.
  intros Hk. induction r as [|r IH]; intros Hr.
  - simpl. lia.
  - change (bump (S r) k) with (wrap (bump r k + 1)).
    rewrite IH by lia. unfold wrap. rewrite Z.mod_small by lia. lia.
Qed.

(** Sums over two arrays that agree slot by slot. *)
Lemma sum_list_with_pointwise {A B} (g : A → nat) (h : B → nat)
    (l : list A) (l' : list B) :
  length l = length l' →
  (∀ i x y, l !! i = Some x → l' !! i = Some y → g x = h y) →
  sum_list_with g l = sum_list_with h l'.
Proof.
  revert l'. induction l as [|a l IH]; intros [|b l'] Hlen H;
    simpl in *; try done.
  rewrite (H 0 a b eq_refl eq_refl). f_equal.
  apply IH; [lia|]. intros i x y Hx Hy. by apply (H (S i)).
Qed.

Lemma refs_pte_fork_parent (f : nat) (e : pte) :
  refs_pte f (fork_parent_pte e) = refs_pte f e.
Proof.
  unfold fork_parent_pte, cow_protect, refs_pte.
  destruct (valid e) eqn:Hv; [|by rewrite Hv].
  destruct (Nat.eqb (private e) 3); simpl; by rewrite Hv.
Qed.

Lemma refs_pt_fork_parent (f : nat) (pt : pagetable_t) :
  refs_pt f (fork_parent_pt pt) = refs_pt f pt.
Proof.
  unfold refs_pt, fork_parent_pt.
  apply sum_list_with_pointwise; [by rewrite length_fmap|].
  intros i x y Hx Hy. rewrite list_lookup_fmap, Hy in Hx.
  injection Hx as <-. destruct y as [d|]; simpl; [|done].
  unfold refs_dir. apply sum_list_with_pointwise; [by rewrite length_fmap|].
  intros j a b Ha Hb. rewrite list_lookup_fmap, Hb in Ha.
  injection Ha as <-. apply refs_pte_fork_parent.
Qed.

Lemma refs_pt_fork_child (nr_ptes nr_frames f : nat)
    (junk_dir : nat → pte_directory) (pt junk_pt : pagetable_t) :
  wf_pagetable nr_ptes nr_frames pt = true →
  length junk_pt = nr_ptes →
  (∀ i, length (junk_dir i) = nr_ptes) →
  (∀ i j, j ∈ junk_dir i → valid j = false) →
  (∀ o d j, junk_pt !! o = Some (Some d) → j ∈ d → valid j = false) →
  refs_pt f (fork_child_pt junk_dir pt junk_pt) = refs_pt f pt.
Proof.
  intros Hwf Hjp Hjd Hclean Hcleanpt.
  pose proof (wf_pagetable_length _ _ _ Hwf) as Hlen.
  unfold refs_pt, fork_child_pt.
  apply sum_list_with_pointwise.
  { rewrite length_imap, length_zip. lia. }
  intros o x od Hx Hod. rewrite list_lookup_imap in Hx.
  destruct (lookup_lt_is_Some_2 junk_pt o) as [y Hy].
  { apply lookup_lt_Some in Hod. lia. }
  rewrite (proj2 (lookup_zip_Some pt junk_pt o od y) (conj Hod Hy)) in Hx.
  simpl in Hx. injection Hx as <-. unfold fork_child_slot. simpl.
  destruct od as [pd|]; simpl.
  - destruct (wf_pagetable_directory _ _ _ _ _ Hwf Hod) as [Hld _].
    unfold refs_dir, fork_child_dir. apply sum_list_with_pointwise.
    { rewrite length_zip_with, Hjd. lia. }
    intros i a e Ha He. rewrite lookup_zip_with, He in Ha. simpl in Ha.
    destruct (junk_dir o !! i) as [j|] eqn:Hj; simpl in Ha; [|done].
    injection Ha as <-. unfold fork_child_pte, refs_pte.
    destruct (valid e) eqn:Hv.
    + unfold cow_protect. destruct (Nat.eqb (private e) 3); simpl;
        by rewrite Hv.
    + by rewrite (Hclean o j (list_elem_of_lookup_2 _ _ _ Hj)).
  - destruct y as [d|]; simpl; [|done].
    apply refs_dir_clean. intros j Hj. by apply (Hcleanpt o d j).
Qed.

Section ForkRefcount.

Variable NR_PTES_PER_PAGE : nat.
Variable NR_PAGEFRAMES : nat.
Variable NR_TLB_ENTRIES : nat.

(** X22: a fork keeps every frame's count equal to the number of valid
    PTEs on it, provided the memory of the new process holds no valid
    entry and no count passes [2^32 - 1]. *)
Theorem fork_keeps_refcount (junk_pt : pagetable_t)
    (junk_dir : nat → pte_directory) (p : nat) (m : machine)
    (parent : process) :
  refcount_inv NR_PAGEFRAMES m = true →
  current m ∉ processes m →
  NR_TLB_ENTRIES ≤ length (tlb m) →
  Forall (fun a => ∃ t, heap m !! a = Some t ∧ pid t ≠ p) (processes m) →
  heap m !! current m = Some parent →
  wf_pagetable NR_PTES_PER_PAGE NR_PAGEFRAMES (pagetable parent) = true →
  length (mapcounts m) = NR_PAGEFRAMES →
  length junk_pt = NR_PTES_PER_PAGE →
  (∀ i, length (junk_dir i) = NR_PTES_PER_PAGE) →
  (∀ i j, j ∈ junk_dir i → valid j = false) →
  (∀ o d j, junk_pt !! o = Some (Some d) → j ∈ d → valid j = false) →
  (∀ f, f < NR_PAGEFRAMES →
     (Z.of_nat (count_refs m f + refs_proc m f (current m)) < 2 ^ 32)%Z) →
  ∃ m',
    switch_process NR_PTES_PER_PAGE NR_TLB_ENTRIES junk_pt junk_dir p m
    = Some m'
    ∧ refcount_inv NR_PAGEFRAMES m' = true.
Proof.
  intros Hinv Hnot Htlb Habs Hpar Hwf Hc Hjp Hjd Hclean Hcleanpt Hsmall.
  destruct (fork_spec NR_PTES_PER_PAGE NR_PAGEFRAMES NR_TLB_ENTRIES
              junk_pt junk_dir p m parent)
    as (t' & c' & Hrun & _ & Hcount); [done..|].
  pose proof (lookup_lt_Some _ _ _ Hpar) as Hcur.
  eexists. split; [exact Hrun|].
  match goal with |- refcount_inv _ ?M = true => set (m' := M) end.
  rewrite refcount_inv_spec in Hinv. apply refcount_inv_spec.
  intros f Hf. change (mapcounts m') with c'.
  rewrite (Hcount f _ (Hinv f Hf)).
  rewrite bump_small; [|lia|specialize (Hsmall f Hf); lia].
  f_equal. rewrite <- Nat2Z.inj_add. f_equal.
  assert (Hchild : refs_proc m' f (length (heap m))
                   = refs_pt f (pagetable parent)).
  { unfold refs_proc, m'. simpl.
    rewrite lookup_app_r by (by rewrite length_insert).
    rewrite length_insert, Nat.sub_diag. simpl.
    by apply (refs_pt_fork_child NR_PTES_PER_PAGE NR_PAGEFRAMES). }
  assert (Hparent : refs_proc m' f (current m)
                    = refs_pt f (pagetable parent)).
  { unfold refs_proc, m'. simpl.
    rewrite lookup_app_l by (by rewrite length_insert).
    rewrite list_lookup_insert_eq by done. simpl.
    apply refs_pt_fork_parent. }
  assert (Hothers : sum_list_with (refs_proc m' f) (processes m)
                    = sum_list_with (refs_proc m f) (processes m)).
  { apply sum_list_with_agree. intros a Ha.
    rewrite List.Forall_forall in Habs.
    destruct (Habs a (proj1 (list_elem_of_In _ _) Ha)) as (u & Hu & _).
    unfold refs_proc, m'. simpl.
    rewrite lookup_app_l
      by (rewrite length_insert; by eapply lookup_lt_Some).
    rewrite list_lookup_insert_ne; [done|].
    intros Heq. apply Hnot. by rewrite Heq. }
  unfold count_refs.
  change (current m') with (length (heap m)).
  change (processes m') with (processes m ++ [current m]).
  simpl. rewrite sum_list_with_app. simpl.
  rewrite Hchild, Hparent, Hothers.
  assert (Hself : refs_proc m f (current m) = refs_pt f (pagetable parent)).
  { unfold refs_proc. by rewrite Hpar. }
  rewrite Hself. lia.
Qed.

End ForkRefcount.

(** ** The further properties at work on the samples *)

(** Every slot of the translation cache in use. *)
Fixpoint fill_tlb (n v : nat) (m : machine) : option machine :=
  match n with
  | O => Some m
  | S n' => m' ← insert_tlb 256 v v m; fill_tlb n' (S v) m'
  end.
Definition cache_full_trace : option machine := run [fill_tlb 256 0] boot.
Definition cache_full : machine := default boot cache_full_trace.

Lemma zero_dir_clean (j : pte) : j ∈ zero_dir → valid j = false.
Proof. intros H. apply elem_of_replicate_inv in H. by subst j. Qed.

Lemma zero_pt_clean (o : nat) (d : pte_directory) (j : pte) :
  zero_pt !! o = Some (Some d) → j ∈ d → valid j = false.
Proof. intros H. apply lookup_replicate in H as [H _]. discriminate H. Qed.

Lemma insert_tlb_then_lookup_hits_witness :
  ∃ m', insert_tlb 256 5 7 boot = Some m'
    ∧ lookup_tlb 256 5 m' = Some (Some 7).
Proof.
  apply (insert_tlb_then_lookup_hits 256 5 7 boot 0 (TlbEntry false 0 0)).
  - vm_compute. reflexivity.
  - vm_compute. reflexivity.
  - lia.
  - reflexivity.
  - reflexivity.
Defined.

Lemma insert_tlb_full_cache_drops_witness :
  cache_full_trace = Some cache_full
  ∧ insert_tlb 256 300 9 cache_full = Some cache_full.
Proof.
  split; [vm_compute; reflexivity|].
  apply (insert_tlb_full_cache_drops 256 300 9 cache_full).
  - vm_compute. reflexivity.
  - intros k x Hk Hx.
    assert (Hall : forallb tlb_valid (tlb cache_full) = true)
      by (vm_compute; reflexivity).
    rewrite forallb_forall in Hall. apply Hall.
    apply (proj1 (list_elem_of_In _ _)).
    exact (list_elem_of_lookup_2 _ _ _ Hx).
Defined.

Lemma insert_tlb_keeps_other_pages_witness :
  lookup_tlb 256 5 (default boot (insert_tlb 256 9 3 cached))
  = lookup_tlb 256 5 cached.
Proof.
  apply (insert_tlb_keeps_other_pages 256 9 3 5 cached).
  - vm_compute. reflexivity.
  - vm_compute. reflexivity.
  - intros H. discriminate H.
Defined.

Lemma free_tlb_invalidates_one_page_witness :
  ∃ m', free_tlb 256 5 cached = Some m'
    ∧ lookup_tlb 256 5 m' = Some None
    ∧ ∀ v, v ≠ 5 → lookup_tlb 256 v m' = lookup_tlb 256 v cached.
Proof.
  apply (free_tlb_invalidates_one_page 256 5 cached).
  vm_compute. reflexivity.
Defined.

Lemma lookup_tlb_first_match_wins_witness :
  lookup_tlb 256 5 cached = Some (Some 7)
  ↔ ∃ j e, j < 256 ∧ tlb cached !! j = Some e
      ∧ tlb_valid e = true ∧ tlb_vpn e = 5 ∧ tlb_pfn e = 7
      ∧ ∀ k x, k < j → tlb cached !! k = Some x →
          tlb_valid x = false ∨ tlb_vpn x ≠ 5.
Proof.
  apply (lookup_tlb_first_match_wins 256 5 7 cached).
  vm_compute. reflexivity.
Defined.

Lemma alloc_page_maps_lowest_free_frame_witness :
  ∃ g m', alloc_page 16 128 zero_dir 0 2 boot = Some (Z.of_nat g, m')
    ∧ mapcounts m' = <[g := 1%Z]> (mapcounts boot)
    ∧ pte_of 16 m' (current boot) 0 = Some (Pte true true g 3).
Proof.
  destruct (alloc_page_maps_lowest_free_frame 16 128 zero_dir 0 2 boot
              (replicate 16 None) None (Pte false false 0 0))
    as (g & m' & Hrun & _ & _ & Hcount & Hpte & _).
  - reflexivity.
  - reflexivity.
  - reflexivity.
  - reflexivity.
  - exists 0. reflexivity.
  - exists g, m'. split; [exact Hrun|]. split; [exact Hcount | exact Hpte].
Defined.

Lemma alloc_page_fails_only_at_cap_witness :
  ∃ r m', alloc_page 16 128 zero_dir 128 2 full = Some (r, m')
    ∧ (r = MINUS_ONE
       ↔ (∀ g, g < 128 → mapcounts full !! g ≠ Some 0%Z)
         ∧ mapcounts full !! (128 - 1) = Some 16%Z).
Proof.
  destruct (alloc_page_fails_only_at_cap 16 128 zero_dir 128 2 full
              (default [] (cur_pagetable full)) None (Pte false false 0 0))
    as (r & m' & Hrun & Hiff & _).
  - vm_compute. reflexivity.
  - vm_compute. reflexivity.
  - reflexivity.
  - vm_compute. reflexivity.
  - lia.
  - lia.
  - exists r, m'. split; [exact Hrun | exact Hiff].
Defined.

Lemma free_page_unmaps_one_page_witness :
  ∃ m', free_page 16 256 0 two_pages = Some m'
    ∧ mapcounts m' = <[0 := 0%Z]> (mapcounts two_pages)
    ∧ pte_of 16 m' (current two_pages) 0 = Some (Pte false false 0 0).
Proof.
  destruct (free_page_unmaps_one_page 16 256 0 two_pages (Pte true true 0 3)
              1%Z) as (m' & Hrun & Hcount & _ & Hpte & _).
  - vm_compute. reflexivity.
  - reflexivity.
  - vm_compute. reflexivity.
  - lia.
  - vm_compute. reflexivity.
  - exists m'. split; [exact Hrun|]. split; [exact Hcount | exact Hpte].
Defined.

Lemma alloc_then_free_gives_frame_back_witness :
  ∃ g m1 m2 m3,
    alloc_page 16 128 zero_dir 0 2 boot = Some (Z.of_nat g, m1)
    ∧ free_page 16 256 0 m1 = Some m2
    ∧ mapcounts m2 = mapcounts boot
    ∧ alloc_page 16 128 zero_dir 0 1 m2 = Some (Z.of_nat g, m3).
Proof.
  destruct (alloc_then_free_gives_frame_back 16 128 256 zero_dir 0 2 1 boot
              (replicate 16 None) None (Pte false false 0 0))
    as (g & m1 & m2 & m3 & Ha & Hf & Hc & _ & Hagain).
  - reflexivity.
  - reflexivity.
  - reflexivity.
  - reflexivity.
  - exists 0. reflexivity.
  - vm_compute. reflexivity.
  - exists g, m1, m2, m3. split; [exact Ha|]. split; [exact Hf|].
    split; [exact Hc | exact Hagain].
Defined.

Lemma handle_page_fault_refuses_unchanged_witness :
  handle_page_fault 16 128 zero_dir 1 2 two_pages = Some (false, two_pages)
  ∧ ∃ e, pte_of 16 two_pages (current two_pages) 1 = Some e
      ∧ valid e = true ∧ (writable e = true ∨ private e ≠ 3).
Proof.
  assert (Hrun : handle_page_fault 16 128 zero_dir 1 2 two_pages
                 = Some (false, two_pages)) by (vm_compute; reflexivity).
  split; [exact Hrun|].
  destruct (handle_page_fault_refuses_unchanged 16 128 zero_dir 1 2 two_pages
              two_pages (default [] (cur_pagetable two_pages)) false)
    as [[Hwhy _] _].
  - vm_compute. reflexivity.
  - exact Hrun.
  - destruct (Hwhy eq_refl) as [Hnull|Hpte].
    + vm_compute in Hnull. discriminate Hnull.
    + exact Hpte.
Defined.

Lemma handle_page_fault_keeps_tlb_and_others_witness :
  tlb (default boot (fault 0 2 shared)) = tlb shared
  ∧ processes (default boot (fault 0 2 shared)) = processes shared
  ∧ pte_of 16 (default boot (fault 0 2 shared)) 0 0 = pte_of 16 shared 0 0.
Proof.
  destruct (handle_page_fault_keeps_tlb_and_others 16 128 256 zero_dir 0 2
              shared (default boot (fault 0 2 shared)) true)
    as (_ & Hother & Hq & _).
  - vm_compute. reflexivity.
  - split; [vm_compute; reflexivity|]. split; [exact Hq|].
    apply Hother. vm_compute. intros H. discriminate H.
Defined.

Lemma invalid_pte_fault_revalidates_in_place_witness :
  ∃ m', handle_page_fault 16 128 zero_dir 1 1 page_one_freed = Some (true, m')
    ∧ pte_of 16 m' (current page_one_freed) 1 = Some (Pte true false 0 0)
    ∧ mapcounts m' = mapcounts page_one_freed.
Proof.
  destruct (invalid_pte_fault_revalidates_in_place 16 128 zero_dir 1 1
              page_one_freed (Pte false false 0 0))
    as (m' & Hrun & Hpte & _ & Hcount).
  - vm_compute. reflexivity.
  - reflexivity.
  - vm_compute. reflexivity.
  - exists m'. split; [exact Hrun|]. split; [exact Hpte | exact Hcount].
Defined.

Lemma switch_process_leaves_cache_empty_witness :
  lookup_tlb 256 5 cached = Some (Some 7)
  ∧ ∀ v, lookup_tlb 256 v (default boot (switch 1 cached)) = Some None.
Proof.
  split; [vm_compute; reflexivity|].
  apply (switch_process_leaves_cache_empty 16 256 zero_pt
           (fun _ => zero_dir) 1 cached).
  - vm_compute. reflexivity.
  - vm_compute. reflexivity.
Defined.

Lemma switch_there_and_back_witness :
  ∃ m1 m2,
    switch_process 16 256 zero_pt (fun _ => zero_dir) 0 shared = Some m1
    ∧ current m1 = 0
    ∧ switch_process 16 256 zero_pt (fun _ => zero_dir) 1 m1 = Some m2
    ∧ current m2 = current shared
    ∧ heap m2 = heap shared ∧ mapcounts m2 = mapcounts shared.
Proof.
  destruct (switch_there_and_back 16 256 zero_pt (fun _ => zero_dir) shared
              [] [] 0
              (Process 0 (default [] (pagetable <$> heap shared !! 0)))
              (Process 1 (default [] (pagetable <$> heap shared !! 1))))
    as (m1 & m2 & H1 & Hc1 & H2 & Hc2 & _ & Hh & Hm & _).
  - vm_compute. reflexivity.
  - vm_compute. reflexivity.
  - vm_compute. reflexivity.
  - vm_compute. reflexivity.
  - intros H. discriminate H.
  - constructor.
  - exists m1, m2. split; [exact H1|]. split; [exact Hc1|].
    split; [exact H2|]. split; [exact Hc2|]. split; [exact Hh | exact Hm].
Defined.


Lemma fork_parent_and_others_witness :
  ∃ m', switch_process 16 256 zero_pt (fun _ => zero_dir) 1 two_pages
        = Some m'
    ∧ length (heap m') = S (length (heap two_pages))
    ∧ pid <$> heap m' !! current two_pages = Some 0.
Proof.
  destruct (fork_parent_and_others 16 128 256 zero_pt (fun _ => zero_dir) 1
              two_pages (Process 0 (default [] (cur_pagetable two_pages))))
    as (m' & Hrun & Hlen & _ & Hpid & _).
  - vm_compute. reflexivity.
  - vm_compute. constructor.
  - vm_compute. reflexivity.
  - vm_compute. reflexivity.
  - vm_compute. reflexivity.
  - reflexivity.
  - intros i. reflexivity.
  - exists m'. split; [exact Hrun|]. split; [exact Hlen | exact Hpid].
Defined.

Lemma switch_to_running_pid_forks_twin_witness :
  ∃ m', switch_process 16 256 zero_pt (fun _ => zero_dir) 0 two_pages
        = Some m'
    ∧ current m' ≠ current two_pages
    ∧ pid <$> heap m' !! current m' = Some 0
    ∧ pid <$> heap m' !! current two_pages = Some 0.
Proof.
  destruct (switch_to_running_pid_forks_twin 16 128 256 zero_pt
              (fun _ => zero_dir) two_pages
              (Process 0 (default [] (cur_pagetable two_pages))))
    as (m' & Hrun & Hne & _ & Hchild & Hparent).
  - vm_compute. reflexivity.
  - vm_compute. reflexivity.
  - vm_compute. constructor.
  - vm_compute. reflexivity.
  - vm_compute. reflexivity.
  - reflexivity.
  - intros i. reflexivity.
  - exists m'. split; [exact Hrun|]. split; [exact Hne|].
    split; [exact Hchild | exact Hparent].
Defined.

Lemma alloc_page_keeps_refcount_witness :
  ∃ g m', alloc_page 16 128 zero_dir 0 2 boot = Some (Z.of_nat g, m')
    ∧ refcount_inv 128 m' = true.
Proof.
  apply (alloc_page_keeps_refcount 16 128 zero_dir 0 2 boot
           (replicate 16 None) None (Pte false false 0 0)).
  - vm_compute. reflexivity.
  - apply not_elem_of_nil.
  - reflexivity.
  - reflexivity.
  - reflexivity.
  - reflexivity.
  - intros _ j. apply zero_dir_clean.
  - reflexivity.
  - exists 0. reflexivity.
Defined.

Lemma free_page_keeps_refcount_witness :
  ∃ m', free_page 16 256 0 two_pages = Some m'
    ∧ refcount_inv 128 m' = true.
Proof.
  apply (free_page_keeps_refcount 16 128 256 0 two_pages (Pte true true 0 3)
           1%Z).
  - vm_compute. reflexivity.
  - apply not_elem_of_nil.
  - vm_compute. reflexivity.
  - reflexivity.
  - vm_compute. reflexivity.
  - lia.
  - simpl. lia.
  - vm_compute. reflexivity.
Defined.

Lemma switch_keeps_refcount_witness :
  ∃ m', switch_process 16 256 zero_pt (fun _ => zero_dir) 0 shared = Some m'
    ∧ current m' ∈ processes shared
    ∧ refcount_inv 128 m' = true.
Proof.
  apply (switch_keeps_refcount 16 128 256 zero_pt (fun _ => zero_dir) 0
           shared).
  - vm_compute. reflexivity.
  - vm_compute. reflexivity.
  - vm_compute. constructor; [|constructor]. eexists. reflexivity.
  - vm_compute. constructor 1. eexists. split; reflexivity.
Defined.

Lemma cow_fault_keeps_refcount_witness :
  ∃ m', handle_page_fault 16 128 zero_dir 0 2 shared = Some (true, m')
    ∧ refcount_inv 128 m' = true.
Proof.
  apply (cow_fault_keeps_refcount 16 128 zero_dir 0 2 shared
           (Pte true false 0 3) 2%Z).
  - vm_compute. reflexivity.
  - vm_compute. intros H. apply list_elem_of_singleton in H. discriminate H.
  - vm_compute. reflexivity.
  - reflexivity.
  - reflexivity.
  - reflexivity.
  - vm_compute. reflexivity.
  - lia.
  - vm_compute. reflexivity.
  - intros _. exists 1. vm_compute. reflexivity.
Defined.

Lemma fork_keeps_refcount_witness :
  ∃ m', switch_process 16 256 zero_pt (fun _ => zero_dir) 1 two_pages
        = Some m'
    ∧ refcount_inv 128 m' = true.
Proof.
  apply (fork_keeps_refcount 16 128 256 zero_pt (fun _ => zero_dir) 1
           two_pages (Process 0 (default [] (cur_pagetable two_pages)))).
  - vm_compute. reflexivity.
  - apply not_elem_of_nil.
  - vm_compute. reflexivity.
  - vm_compute. constructor.
  - vm_compute. reflexivity.
  - vm_compute. reflexivity.
  - vm_compute. reflexivity.
  - reflexivity.
  - intros i. reflexivity.
  - intros i j. apply zero_dir_clean.
  - apply zero_pt_clean.
  - intros f Hf.
    assert (Hall : forallb
              (fun f => Z.ltb (Z.of_nat (count_refs two_pages f
                                         + refs_proc two_pages f
                                             (current two_pages)))
                              (2 ^ 32))
              (seq 0 128) = true) by (vm_compute; reflexivity).
    rewrite forallb_forall in Hall. apply Z.ltb_lt. apply Hall.
    apply in_seq. lia.
Defined.
